(** * Migration management of the enhanced PostgreSQL MCP server

    A shallow embedding of [src/services/MigrationService.ts], of the part of
    [src/services/SchemaService.ts] it consumes and of the migration tool
    handlers of [src/index.ts], with the properties of the migration store,
    the revert synthesizer and the orchestrating handlers.

    Conventions of the embedding.
    - A JavaScript string is a [string]: a sequence of code units, here the
      code units below 256 (SQL text, identifiers and file names).
    - [Date.now()] and [crypto.randomBytes(4)] are inputs of the call that
      reads them.
    - Asynchronous code runs one handler at a time: an [await] is a
      sequencing point of a state-and-exception monad over the file system
      and the trace of effects.
    - The file system maps paths, as lists of components, to directories
      and files; its operations fail as those of [fs/promises] do on
      missing, existing or mistyped entries (permissions and device errors
      are left out). The metadata file holds text or the JSON text of a
      document [{ migrations: [...] }].
    - A database connection is any function from the history of effects and
      a statement to the answer of the server, so that a property of all
      clients is a property of all executions. *)

From Stdlib Require Import ZArith NArith String Ascii List Bool Lia Sorted.
From Stdlib.Strings Require Import Byte.
From stdpp Require Import base option list strings gmap.

(** ** JavaScript primitives used by the services *)

Module Js.

(** [s.split(sep)] for a separator of one code unit: the pieces between
    the occurrences of [sep]; never the empty array. *)
Fixpoint split (sep : ascii) (s : string) : list string :=
  match s with
  | EmptyString => [EmptyString]
  | String c s' =>
      if Ascii.eqb c sep then EmptyString :: split sep s'
      else match split sep s' with
           | [] => [String c EmptyString]
           | piece :: pieces => String c piece :: pieces
           end
  end.

(** [arr.join(sep)]. *)
Fixpoint join (sep : string) (l : list string) : string :=
  match l with
  | [] => ""
  | [x] => x
  | x :: rest => x +:+ sep +:+ join sep rest
  end.

(** A value of type [string | undefined] inside a template literal. *)
Definition template (v : option string) : string :=
  match v with
  | Some s => s
  | None => "undefined"
  end.

(** Truthiness of a [string | undefined]: [undefined] and [''] are falsy. *)
Definition truthy (v : option string) : bool :=
  match v with
  | Some (String _ _) => true
  | _ => false
  end.

(** [a === b] on strings. *)
Definition strict_eq (a b : string) : bool := String.eqb a b.

(** [a < b] on strings: lexicographic on code units. *)
Definition lt (a b : string) : bool := String.ltb a b.

(** Decimal digits of a natural number, least significant first. *)
Fixpoint digits_le (fuel : nat) (n : N) : list N :=
  match fuel with
  | O => []
  | S fuel' =>
      (n mod 10)%N ::
        (if (n / 10 =? 0)%N then [] else digits_le fuel' (n / 10)%N)
  end.

Definition digit_char (d : N) : ascii := ascii_of_N (48 + d).

Definition string_of_digits (ds : list N) : string :=
  string_of_list_ascii (map digit_char ds).

Definition N_toString (n : N) : string :=
  string_of_digits (rev (digits_le (S (N.to_nat (N.log2 n))) n)).

(** [n.toString()] for an integral number [n] (below 1e21 in magnitude, as
    every millisecond clock value is). *)
Definition toString (z : Z) : string :=
  match z with
  | Zneg p => "-" +:+ N_toString (Npos p)
  | _ => N_toString (Z.to_N z)
  end.

Definition hex_char (d : N) : ascii :=
  if (d <? 10)%N then ascii_of_N (48 + d) else ascii_of_N (87 + d).

(** Two lowercase hexadecimal digits of a byte value. *)
Definition hex_of_N8 (b : N) : string :=
  String (hex_char (b / 16)) (String (hex_char (b mod 16)) "").

(** [buf.toString('hex')]. *)
Definition hex_of_bytes (bs : list byte) : string :=
  fold_right (fun b acc => hex_of_N8 (Byte.to_N b) +:+ acc) "" bs.

(** [n] rendered with at least [w] decimal digits ([padStart(w, '0')]). *)
Definition pad (w : nat) (n : Z) : string :=
  let s := toString n in
  string_of_list_ascii (repeat "0"%char (w - String.length s)) +:+ s.

(** UTF-8 encoding of a string of code units below 256. *)
Definition utf8 (s : string) : list Z :=
  flat_map
    (fun c : ascii =>
       let n := Z.of_N (N_of_ascii c) in
       if (n <? 128)%Z then [n]
       else [(192 + n / 64)%Z; (128 + n mod 64)%Z])
    (list_ascii_of_string s).

End Js.

(** ** SHA-256 ([crypto.createHash('sha256')]), FIPS 180-4 on 32-bit words *)

Module Sha256.
Local Open Scope Z_scope.

Definition w32 (x : Z) : Z := Z.land x 0xffffffff.
Definition add32 (a b : Z) : Z := w32 (a + b).
Definition rotr (n x : Z) : Z :=
  Z.lor (Z.shiftr x n) (w32 (Z.shiftl x (32 - n))).
Definition shr (n x : Z) : Z := Z.shiftr x n.
Definition not32 (x : Z) : Z := Z.lxor x 0xffffffff.

Definition Ch (x y z : Z) : Z := Z.lxor (Z.land x y) (Z.land (not32 x) z).
Definition Maj (x y z : Z) : Z :=
  Z.lxor (Z.lxor (Z.land x y) (Z.land x z)) (Z.land y z).
Definition Sigma0 (x : Z) : Z :=
  Z.lxor (Z.lxor (rotr 2 x) (rotr 13 x)) (rotr 22 x).
Definition Sigma1 (x : Z) : Z :=
  Z.lxor (Z.lxor (rotr 6 x) (rotr 11 x)) (rotr 25 x).
Definition sigma0 (x : Z) : Z :=
  Z.lxor (Z.lxor (rotr 7 x) (rotr 18 x)) (shr 3 x).
Definition sigma1 (x : Z) : Z :=
  Z.lxor (Z.lxor (rotr 17 x) (rotr 19 x)) (shr 10 x).

Definition is_prime (n : Z) : bool :=
  (1 <? n)
  && forallb (fun d => negb (n mod d =? 0)) (map Z.of_nat (seq 2 (Z.to_nat n - 2))).

(** The first sixty-four primes. *)
Definition primes : list Z :=
  Eval vm_compute in
    take 64 (List.filter is_prime (map Z.of_nat (seq 2 310))).

(** The integer [k]-th root of [n], found bit by bit from bit [bits - 1]. *)
Fixpoint root (k n : Z) (bits : nat) (r : Z) : Z :=
  match bits with
  | O => r
  | S b =>
      let c := r + 2 ^ Z.of_nat b in
      root k n b (if c ^ k <=? n then c else r)
  end.

(** The first thirty-two bits of the fractional part of the [k]-th root of
    [p]. *)
Definition root_fraction (k p : Z) : Z :=
  w32 (root k (p * 2 ^ (32 * k)) 40 0).

(** The round constants: from the cube roots of the first 64 primes. *)
Definition K : list Z := Eval vm_compute in map (root_fraction 3) primes.

(** The initial hash value: from the square roots of the first 8 primes. *)
Definition H0 : list Z :=
  Eval vm_compute in map (root_fraction 2) (take 8 primes).

(** Big-endian bytes of [x], [n] of them. *)
Fixpoint be_bytes (n : nat) (x : Z) : list Z :=
  match n with
  | O => []
  | S n' => be_bytes n' (Z.shiftr x 8) ++ [Z.land x 0xff]
  end.

(** The message followed by the bit 1, zero bytes up to 56 modulo 64, and
    the bit length on 64 bits. *)
Definition padding (msg : list Z) : list Z :=
  let len := Z.of_nat (length msg) in
  let zeros := Z.to_nat ((55 - len) mod 64) in
  msg ++ [0x80] ++ repeat 0 zeros ++ be_bytes 8 (8 * len).

Fixpoint words_be (bs : list Z) : list Z :=
  match bs with
  | b0 :: b1 :: b2 :: b3 :: rest =>
      (Z.shiftl b0 24 + Z.shiftl b1 16 + Z.shiftl b2 8 + b3) :: words_be rest
  | _ => []
  end.

(** Blocks of sixteen words. *)
Fixpoint blocks (n : nat) (ws : list Z) : list (list Z) :=
  match n with
  | O => []
  | S n' => take 16 ws :: blocks n' (drop 16 ws)
  end.

(** The message schedule, most recent word first while it is extended. *)
Fixpoint extend (n : nat) (rev_w : list Z) : list Z :=
  match n with
  | O => rev_w
  | S n' =>
      let at_ i := nth i rev_w 0 in
      let w :=
        add32 (add32 (add32 (sigma1 (at_ 1%nat)) (at_ 6%nat))
                     (sigma0 (at_ 14%nat))) (at_ 15%nat) in
      extend n' (w :: rev_w)
  end.

Definition schedule (block : list Z) : list Z :=
  rev (extend 48 (rev block)).

Definition round (st : list Z) (kw : Z * Z) : list Z :=
  match st with
  | [a; b; c; d; e; f; g; h] =>
      let t1 :=
        add32 (add32 (add32 (add32 h (Sigma1 e)) (Ch e f g)) (fst kw))
              (snd kw) in
      let t2 := add32 (Sigma0 a) (Maj a b c) in
      [add32 t1 t2; a; b; c; add32 d t1; e; f; g]
  | _ => st
  end.

Definition compress (h : list Z) (block : list Z) : list Z :=
  let st := fold_left round (combine K (schedule block)) h in
  map (fun p : Z * Z => add32 (fst p) (snd p)) (combine h st).

Definition digest (msg : list Z) : list Z :=
  let ws := words_be (padding msg) in
  fold_left compress (blocks (length ws / 16) ws) H0.

(** [.digest('hex')]. *)
Definition hex (msg : list Z) : string :=
  fold_right
    (fun w acc =>
       fold_right (fun b acc' => Js.hex_of_N8 (Z.to_N b) +:+ acc') acc
                  (be_bytes 4 w))
    "" (digest msg).

End Sha256.

(** ** Regular expressions of [generateRevertSql]

    The fragment of ECMAScript regular expressions the service uses, with
    the backtracking priorities of the language: greedy [+] and [?], lazy
    [*?], capturing groups, flag [i]; repetition applies to character
    classes only. *)

Module Regex.

Inductive re : Type :=
| Eps
| Chr (c : ascii)
| Class (p : ascii -> bool)
| Cat (r1 r2 : re)
| Opt (r : re)
| Plus (p : ascii -> bool)
| StarLazy (p : ascii -> bool)
| Group (i : nat) (r : re).

Definition captures : Type := list (nat * string).

Definition code (c : ascii) : N := N_of_ascii c.

(** [\s] on code units below 256: tab, line feed, vertical tab, form feed,
    carriage return, space, no-break space. *)
Definition space (c : ascii) : bool :=
  let n := code c in
  ((9 <=? n) && (n <=? 13) || (n =? 32) || (n =? 160))%N.

(** [[^\s]] *)
Definition not_space (c : ascii) : bool := negb (space c).

(** [[^\s(]] *)
Definition not_space_paren (c : ascii) : bool :=
  negb (space c) && negb (code c =? 40)%N.

(** [.] without flag [s]: anything but a line terminator. *)
Definition dot (c : ascii) : bool :=
  negb ((code c =? 10) || (code c =? 13))%N.

(** Canonicalization under flag [i] for the letters of the patterns. *)
Definition canon (c : ascii) : ascii :=
  let n := code c in
  if ((97 <=? n) && (n <=? 122))%N then ascii_of_N (n - 32) else c.

Fixpoint plus_greedy {R} (p : ascii -> bool) (s : string)
    (k : string -> option R) : option R :=
  match s with
  | String c s' =>
      if p c then
        match plus_greedy p s' k with
        | Some r => Some r
        | None => k s'
        end
      else None
  | EmptyString => None
  end.

Fixpoint star_lazy {R} (p : ascii -> bool) (s : string)
    (k : string -> option R) : option R :=
  match k s with
  | Some r => Some r
  | None =>
      match s with
      | String c s' => if p c then star_lazy p s' k else None
      | EmptyString => None
      end
  end.

(** What was consumed between the input [s] and its suffix [rest]. *)
Definition consumed (s rest : string) : string :=
  substring 0 (String.length s - String.length rest) s.

Fixpoint run (r : re) (s : string) (caps : captures)
    (k : string -> captures -> option captures) : option captures :=
  match r with
  | Eps => k s caps
  | Chr c =>
      match s with
      | String ch s' =>
          if Ascii.eqb (canon ch) (canon c) then k s' caps else None
      | EmptyString => None
      end
  | Class p =>
      match s with
      | String ch s' => if p ch then k s' caps else None
      | EmptyString => None
      end
  | Cat r1 r2 => run r1 s caps (fun s1 caps1 => run r2 s1 caps1 k)
  | Opt r' =>
      match run r' s caps k with
      | Some res => Some res
      | None => k s caps
      end
  | Plus p => plus_greedy p s (fun s' => k s' caps)
  | StarLazy p => star_lazy p s (fun s' => k s' caps)
  | Group i r' =>
      run r' s caps (fun s' caps' => k s' ((i, consumed s s') :: caps'))
  end.

(** [str.match(re)] without flag [g]: the leftmost match, [None] for
    [null]; group 0 is the whole match. *)
Fixpoint exec (r : re) (s : string) : option captures :=
  match run (Group 0 r) s [] (fun _ caps => Some caps) with
  | Some caps => Some caps
  | None =>
      match s with
      | String _ s' => exec r s'
      | EmptyString => None
      end
  end.

(** [m[i]] on a match array. *)
Fixpoint group (i : nat) (caps : captures) : option string :=
  match caps with
  | [] => None
  | (j, v) :: caps' => if Nat.eqb i j then Some v else group i caps'
  end.

Fixpoint lit (s : string) : re :=
  match s with
  | EmptyString => Eps
  | String c s' => Cat (Chr c) (lit s')
  end.

Definition seq (rs : list re) : re := fold_right Cat Eps rs.

(** [/CREATE\s+(?:OR\s+REPLACE\s+)?FUNCTION\s+([^\s(]+)/i] *)
Definition function_re : re :=
  seq [ lit "CREATE"; Plus space;
        Opt (seq [lit "OR"; Plus space; lit "REPLACE"; Plus space]);
        lit "FUNCTION"; Plus space; Group 1 (Plus not_space_paren) ].

(** [/CREATE\s+TRIGGER\s+([^\s]+)\s+.*?ON\s+([^\s]+)/i] *)
Definition trigger_re : re :=
  seq [ lit "CREATE"; Plus space; lit "TRIGGER"; Plus space;
        Group 1 (Plus not_space); Plus space; StarLazy dot;
        lit "ON"; Plus space; Group 2 (Plus not_space) ].

(** [/CREATE\s+(?:UNIQUE\s+)?INDEX\s+([^\s]+)/i] *)
Definition index_re : re :=
  seq [ lit "CREATE"; Plus space;
        Opt (seq [lit "UNIQUE"; Plus space]);
        lit "INDEX"; Plus space; Group 1 (Plus not_space) ].

End Regex.

(** ** [new Date(t).toISOString()] *)

Module JsDate.
Local Open Scope Z_scope.

Definition msPerDay : Z := 86400000.

(** Proleptic Gregorian date of a day number counted from 1970-01-01. *)
Definition civil (days : Z) : Z * Z * Z :=
  let z := days + 719468 in
  let era := z / 146097 in
  let doe := z - era * 146097 in
  let yoe := (doe - doe / 1460 + doe / 36524 - doe / 146096) / 365 in
  let doy := doe - (365 * yoe + yoe / 4 - yoe / 100) in
  let mp := (5 * doy + 2) / 153 in
  let d := doy - (153 * mp + 2) / 5 + 1 in
  let m := if mp <? 10 then mp + 3 else mp - 9 in
  let y := yoe + era * 400 + (if m <=? 2 then 1 else 0) in
  (y, m, d).

Definition year_string (y : Z) : string :=
  if (0 <=? y) && (y <=? 9999) then Js.pad 4 y
  else (if y <? 0 then "-" else "+") +:+ Js.pad 6 (Z.abs y).

(** [None] stands for the RangeError of an invalid date. *)
Definition toISOString (t : Z) : option string :=
  if Z.abs t <=? 8640000000000000 then
    let '(y, m, d) := civil (t / msPerDay) in
    let ms := t mod msPerDay in
    Some (year_string y +:+ "-" +:+ Js.pad 2 m +:+ "-" +:+ Js.pad 2 d
          +:+ "T" +:+ Js.pad 2 (ms / 3600000)
          +:+ ":" +:+ Js.pad 2 (ms / 60000 mod 60)
          +:+ ":" +:+ Js.pad 2 (ms / 1000 mod 60)
          +:+ "." +:+ Js.pad 3 (ms mod 1000) +:+ "Z")
  else None.

End JsDate.

(** ** Data model ([src/types/index.ts]) *)

Inductive MigrationType : Type := table | function | trigger | index | alter.

#[global] Instance MigrationType_eq_dec : EqDecision MigrationType.
Proof. solve_decision. Defined.

(** The type inside a template literal. *)
Definition MigrationType_toString (t : MigrationType) : string :=
  match t with
  | table => "table"
  | function => "function"
  | trigger => "trigger"
  | index => "index"
  | alter => "alter"
  end.

Module Migration.
Record t : Type := mk {
  id : string;
  name : string;
  timestamp : Z;
  sql : string;
  type : MigrationType;
  description : option string;
  checksum : string
}.
End Migration.

#[global] Instance Migration_eq_dec : EqDecision Migration.t.
Proof. solve_decision. Defined.

(** The document of the metadata file: [{ migrations: [...] }]. *)
Record Metadata : Type := { migrations : list Migration.t }.

(** A path is the list of its components below the root. *)
Abbreviation path := (list string).

Record MigrationConfig : Type := {
  migrationsDir : path;
  metadataFile : path
}.

(** [getMigrationConfig] of [src/config/index.ts]. *)
Definition getMigrationConfig (workingDir : path) : MigrationConfig :=
  {| migrationsDir := workingDir ++ ["migrations"];
     metadataFile := workingDir ++ ["migrations"; "metadata.json"] |}.

(** ** Exceptions *)

Inductive Errno : Type := ENOENT | EEXIST | EISDIR | ENOTDIR.

Inductive Error : Type :=
| JsError (message : string)      (* throw new Error(message) *)
| SyntaxError                     (* JSON.parse on text that is no JSON *)
| RangeError                      (* toISOString of an invalid date *)
| FsError (code : Errno) (p : path)
| PgError (message : string).     (* a statement the server rejected *)

Inductive result (A : Type) : Type :=
| Ok (a : A)
| Throw (e : Error).
Arguments Ok {A} a.
Arguments Throw {A} e.

(** The error classes of the specification, read off the thrown values. *)
Definition NotFound (e : Error) : bool :=
  match e with
  | JsError msg =>
      String.eqb msg "Migration not found"
      || String.eqb msg "No migrations to revert"
  | _ => false
  end.

Definition UnsupportedKind (e : Error) : bool :=
  match e with
  | JsError msg => String.prefix "Revert not implemented for migration type: " msg
  | _ => false
  end.

(** ** The file system and the trace of effects *)

(** A file holds text that is no JSON document, or the JSON text
    [JSON.stringify(d, null, 2)] of a metadata document [d], which
    [JSON.parse] reads back as [d]. *)
Inductive content : Type :=
| Text (s : string)
| Json (d : Metadata).

Inductive node : Type :=
| Dir
| File (c : content).

(** A statement sent on a pooled connection is answered with [None] when
    the server accepts it, with the error otherwise. *)
Inductive Event : Type :=
| EvQuery (statement : string) (answer : option Error)
| EvRelease
| EvMkdir (p : path)
| EvWriteFile (p : path) (c : content)
| EvUnlink (p : path).

Record World : Type := {
  fs : gmap path node;
  trace : list Event
}.

(** The server behind a connection: its answer to a statement, given
    everything that happened before. *)
Definition PoolClient : Type := list Event -> string -> option Error.

(** [dbService.getClient()] yields a client or rejects. *)
Record DatabaseService : Type := { getClient_result : result PoolClient }.

(** ** The monad of the asynchronous code *)

Definition M (A : Type) : Type := World -> result A * World.

Definition ret {A} (a : A) : M A := fun w => (Ok a, w).

Definition throw {A} (e : Error) : M A := fun w => (Throw e, w).

Definition bind {A B} (m : M A) (f : A -> M B) : M B :=
  fun w =>
    match m w with
    | (Ok a, w') => f a w'
    | (Throw e, w') => (Throw e, w')
    end.

(** [try { m } catch (e) { h e }] *)
Definition try_catch {A} (m : M A) (h : Error -> M A) : M A :=
  fun w =>
    match m w with
    | (Ok a, w') => (Ok a, w')
    | (Throw e, w') => h e w'
    end.

(** [try { m } finally { f }]: an exception of [f] replaces the outcome. *)
Definition try_finally {A} (m : M A) (f : M unit) : M A :=
  fun w =>
    match m w with
    | (r, w') =>
        match f w' with
        | (Ok _, w'') => (r, w'')
        | (Throw e, w'') => (Throw e, w'')
        end
    end.

Definition lift {A} (r : result A) : M A := fun w => (r, w).

Declare Scope js_scope.
Delimit Scope js_scope with js.
Notation "'let!' x ':=' m 'in' k" := (bind m (fun x => k))
  (at level 10, x name, m at level 100, k at level 200,
   format "'[v' 'let!'  x  ':='  m  'in' '/' k ']'") : js_scope.
Local Open Scope js_scope.

Definition emit (e : Event) : M unit :=
  fun w => (Ok tt, {| fs := fs w; trace := trace w ++ [e] |}).

(** ** [fs/promises] *)

Module Fs.

Definition parent (p : path) : path := removelast p.

Definition is_dir (files : gmap path node) (p : path) : bool :=
  match p with
  | [] => true
  | _ => match files !! p with Some Dir => true | _ => false end
  end.

Definition exists_ (files : gmap path node) (p : path) : bool :=
  match p with
  | [] => true
  | _ => match files !! p with Some _ => true | None => false end
  end.

Definition set_fs (files : gmap path node) : M unit :=
  fun w => (Ok tt, {| fs := files; trace := trace w |}).

Definition get_fs : M (gmap path node) := fun w => (Ok (fs w), w).

(** [fs.access(p)] *)
Definition access (p : path) : M unit :=
  let! files := get_fs in
  if exists_ files p then ret tt else throw (FsError ENOENT p).

(** Creation of the missing directories along [done ++ todo]. *)
Fixpoint mkdirs (done : path) (todo : list string)
    (files : gmap path node) : result (gmap path node) :=
  match todo with
  | [] => Ok files
  | c :: todo' =>
      let p := done ++ [c] in
      match files !! p with
      | Some (File _) =>
          Throw (FsError (match todo' with [] => EEXIST | _ => ENOTDIR end) p)
      | Some Dir => mkdirs p todo' files
      | None => mkdirs p todo' (<[p := Dir]> files)
      end
  end.

(** [fs.mkdir(p, { recursive: true })] *)
Definition mkdir_recursive (p : path) : M unit :=
  let! files := get_fs in
  let! files' := lift (mkdirs [] p files) in
  let! _ := set_fs files' in emit (EvMkdir p).

(** [fs.writeFile(p, c)]: replaces a file, or creates it in a directory. *)
Definition writeFile (p : path) (c : content) : M unit :=
  let! files := get_fs in
  let write :=
    let! _ := set_fs (<[p := File c]> files) in emit (EvWriteFile p c) in
  if is_dir files p then throw (FsError EISDIR p)
  else match files !! p with
       | Some (File _) => write
       | _ =>
           if is_dir files (parent p) then write
           else if exists_ files (parent p) then throw (FsError ENOTDIR p)
           else throw (FsError ENOENT p)
       end.

(** [fs.readFile(p, 'utf-8')] *)
Definition readFile (p : path) : M content :=
  let! files := get_fs in
  if is_dir files p then throw (FsError EISDIR p)
  else match files !! p with
       | Some (File c) => ret c
       | _ => throw (FsError ENOENT p)
       end.

(** [fs.unlink(p)] *)
Definition unlink (p : path) : M unit :=
  let! files := get_fs in
  if is_dir files p then throw (FsError EISDIR p)
  else match files !! p with
       | Some (File _) => let! _ := set_fs (delete p files) in emit (EvUnlink p)
       | _ => throw (FsError ENOENT p)
       end.

(** [path.join(dir, file)] for a file name without separator [/] (and
    other than [.] and [..]), which is then one more component of the
    path; a name with a separator would be normalised by [path.join].
    The names the code passes are [<id>.sql]: the statements about an id
    that is not generated by [generateMigrationId] assume that it holds
    no separator. *)
Definition join (dir : path) (file : string) : path := dir ++ [file].

End Fs.

(** White space of the JSON grammar: tab, line feed, carriage return,
    space. *)
Definition json_space (c : ascii) : bool :=
  let n := N_of_ascii c in
  ((n =? 9) || (n =? 10) || (n =? 13) || (n =? 32))%N.

(** Whether the first token of [s] can begin a JSON value: after white
    space, a brace, a bracket, a quote, a digit, a minus sign before a
    digit, or the first letter of [true], [false] or [null].  Every text
    [JSON.parse] accepts begins so; a text that does not is rejected with a
    SyntaxError. *)
Fixpoint json_start (s : string) : bool :=
  match s with
  | EmptyString => false
  | String c s' =>
      if json_space c then json_start s'
      else
        let n := N_of_ascii c in
        let digit (m : N) := ((48 <=? m) && (m <=? 57))%N in
        ((n =? 123) || (n =? 91) || (n =? 34) || digit n
         || (n =? 116) || (n =? 102) || (n =? 110)
         || ((n =? 45)
             && match s' with
                | String d _ => digit (N_of_ascii d)
                | EmptyString => false
                end))%N
  end.

(** [JSON.parse] of what a file holds.  A file of kind [Text] stands for
    a text that is not a JSON document: [JSON.parse] rejects it.  This is
    so whenever [json_start] is false of the text; the statements that
    depend on how a text at the path of the index is read assume it
    ([legible], below). *)
Definition JSON_parse (c : content) : M Metadata :=
  match c with
  | Json d => ret d
  | Text _ => throw SyntaxError
  end.

(** ** [src/services/SchemaService.ts]: the builder of CREATE TABLE *)

Module ColumnDefinition.
Record t : Type := mk {
  name : string;
  type : string;
  constraints : option string
}.
End ColumnDefinition.

Module CreateTableParams.
Record t : Type := mk {
  tableName : string;
  columns : list ColumnDefinition.t;
  constraints : option (list string)
}.
End CreateTableParams.

Module SchemaService.

Definition createTable (params : CreateTableParams.t) : string :=
  let columnDefinitions :=
    Js.join ", "
      (map (fun col =>
              ColumnDefinition.name col +:+ " " +:+ ColumnDefinition.type col
              +:+ (if Js.truthy (ColumnDefinition.constraints col)
                   then " " +:+ Js.template (ColumnDefinition.constraints col)
                   else ""))
           (CreateTableParams.columns params)) in
  let tableConstraints :=
    match CreateTableParams.constraints params with
    | Some cs => ", " +:+ Js.join ", " cs
    | None => ""
    end in
  "CREATE TABLE " +:+ CreateTableParams.tableName params +:+ " ("
    +:+ columnDefinitions +:+ tableConstraints +:+ ")".

End SchemaService.

(** ** [src/services/MigrationService.ts] *)

(** What one call of [createMigration] reads from the clock and from the
    random generator, in the order of the reads. *)
Record Entropy : Type := {
  now_id : Z;                           (* Date.now() of generateMigrationId *)
  random4 : byte * byte * byte * byte;  (* crypto.randomBytes(4) *)
  now_name : Z;                         (* Date.now() of the name *)
  now_timestamp : Z                     (* Date.now() of the timestamp *)
}.

Module MigrationService.

Definition newline : string := String (ascii_of_nat 10) EmptyString.

Definition ensureMigrationsDir (this : MigrationConfig) : M unit :=
  try_catch
    (Fs.access (migrationsDir this))
    (fun _ =>
       let! _ := Fs.mkdir_recursive (migrationsDir this) in
       Fs.writeFile (metadataFile this) (Json {| migrations := [] |})).

Definition generateMigrationId (e : Entropy) : string :=
  let '(b0, b1, b2, b3) := random4 e in
  Js.toString (now_id e) +:+ "_" +:+ Js.hex_of_bytes [b0; b1; b2; b3].

Definition generateChecksum (sql : string) : string :=
  Sha256.hex (Js.utf8 sql).

Definition migrationContent (migration : Migration.t) (iso : string) : string :=
  "-- Migration: " +:+ Migration.name migration +:+ newline
  +:+ "-- Type: " +:+ MigrationType_toString (Migration.type migration) +:+ newline
  +:+ "-- Description: "
  +:+ (if Js.truthy (Migration.description migration)
       then Js.template (Migration.description migration)
       else "No description provided") +:+ newline
  +:+ "-- Timestamp: " +:+ iso +:+ newline
  +:+ newline
  +:+ Migration.sql migration +:+ newline.

Definition toISOString (t : Z) : M string :=
  match JsDate.toISOString t with
  | Some s => ret s
  | None => throw RangeError
  end.

Definition createMigration (this : MigrationConfig) (e : Entropy)
    (type : MigrationType) (sql : string) (description : option string)
    : M Migration.t :=
  let! _ := ensureMigrationsDir this in
  let migration :=
    {| Migration.id := generateMigrationId e;
       Migration.name :=
         MigrationType_toString type +:+ "_" +:+ Js.toString (now_name e);
       Migration.timestamp := now_timestamp e;
       Migration.sql := sql;
       Migration.type := type;
       Migration.description := description;
       Migration.checksum := generateChecksum sql |} in
  (* Write migration file *)
  let migrationFile :=
    Fs.join (migrationsDir this) (Migration.id migration +:+ ".sql") in
  let! iso := toISOString (Migration.timestamp migration) in
  let! _ := Fs.writeFile migrationFile (Text (migrationContent migration iso)) in
  (* Update metadata *)
  let! text := Fs.readFile (metadataFile this) in
  let! metadata := JSON_parse text in
  let metadata' := {| migrations := migrations metadata ++ [migration] |} in
  let! _ := Fs.writeFile (metadataFile this) (Json metadata') in
  ret migration.

Definition getMigrations (this : MigrationConfig) : M (list Migration.t) :=
  try_catch
    (let! text := Fs.readFile (metadataFile this) in
     let! metadata := JSON_parse text in
     ret (migrations metadata))
    (fun _ => ret []).

(** [client.query(statement)] *)
Definition query (client : PoolClient) (statement : string) : M unit :=
  fun w =>
    let answer := client (trace w) statement in
    (match answer with None => Ok tt | Some e => Throw e end,
     {| fs := fs w; trace := trace w ++ [EvQuery statement answer] |}).

(** [client.release()] *)
Definition release : M unit := emit EvRelease.

Definition applyMigration (client : PoolClient) (migration : Migration.t)
    : M unit :=
  try_catch
    (let! _ := query client "BEGIN" in
     let! _ := query client (Migration.sql migration) in
     query client "COMMIT")
    (fun error =>
       let! _ := query client "ROLLBACK" in
       throw error).

Definition removeMigration (this : MigrationConfig) (migrationId : string)
    : M unit :=
  (* Read and update metadata *)
  let! text := Fs.readFile (metadataFile this) in
  let! metadata := JSON_parse text in
  let metadata' :=
    {| migrations :=
         filter (fun m => Migration.id m <> migrationId) (migrations metadata) |} in
  let! _ := Fs.writeFile (metadataFile this) (Json metadata') in
  (* Delete migration file *)
  let migrationFile := Fs.join (migrationsDir this) (migrationId +:+ ".sql") in
  Fs.unlink migrationFile.

(** [str.match(re)?.[i]] *)
Definition match_group (r : Regex.re) (i : nat) (s : string) : option string :=
  match Regex.exec r s with
  | Some caps => Regex.group i caps
  | None => None
  end.

Definition generateRevertSql (migration : Migration.t) : result string :=
  match Migration.type migration with
  | table =>
      Ok ("DROP TABLE IF EXISTS "
          +:+ Js.template (Js.split " " (Migration.sql migration) !! 2%nat))
  | function =>
      let functionName :=
        match_group Regex.function_re 1 (Migration.sql migration) in
      Ok (if Js.truthy functionName
          then "DROP FUNCTION IF EXISTS " +:+ Js.template functionName
          else "")
  | trigger =>
      match Regex.exec Regex.trigger_re (Migration.sql migration) with
      | Some matches =>
          let triggerName := Regex.group 1 matches in
          let tableName := Regex.group 2 matches in
          Ok ("DROP TRIGGER IF EXISTS " +:+ Js.template triggerName
              +:+ " ON " +:+ Js.template tableName)
      | None => Ok ""
      end
  | index =>
      let indexName :=
        match_group Regex.index_re 1 (Migration.sql migration) in
      Ok (if Js.truthy indexName
          then "DROP INDEX IF EXISTS " +:+ Js.template indexName
          else "")
  | alter =>
      Throw (JsError ("Revert not implemented for migration type: "
                      +:+ MigrationType_toString (Migration.type migration)))
  end.

End MigrationService.

(** ** The migration tool handlers of [src/index.ts] *)

(** What a handler answers (the payload of its JSON text). *)
Inductive Response : Type :=
| TableCreated (sql : string) (id name : string)
| MigrationList (migrations : list Migration.t)
| MigrationsApplied
| MigrationReverted (revertedMigration : Migration.t) (revertSql : string).

Module Server.
Import MigrationService.

Section Handlers.

Variable migrationService : MigrationConfig.
Variable dbService : DatabaseService.

Definition getClient : M PoolClient := lift (getClient_result dbService).

(** [migration.id === fromId] for [fromId : string | undefined]. *)
Definition id_is (migration : Migration.t) (wanted : option string) : bool :=
  match wanted with
  | Some i => Js.strict_eq (Migration.id migration) i
  | None => false
  end.

(** case "createTable" *)
Definition createTable (e : Entropy) (args : CreateTableParams.t)
    : M Response :=
  let sql := SchemaService.createTable args in
  let! migration :=
    createMigration migrationService e table sql
      (Some ("Create table " +:+ CreateTableParams.tableName args)) in
  let! client := getClient in
  try_finally
    (let! _ := applyMigration client migration in
     ret (TableCreated sql (Migration.id migration) (Migration.name migration)))
    release.

(** case "listMigrations" *)
Definition listMigrations : M Response :=
  let! migrations := getMigrations migrationService in
  ret (MigrationList migrations).

(** The loop of case "applyMigrations". *)
Fixpoint applyLoop (client : PoolClient) (fromId : option string)
    (shouldApply : bool) (migrations : list Migration.t) : M unit :=
  match migrations with
  | [] => ret tt
  | migration :: rest =>
      if id_is migration fromId then
        (* shouldApply = true; continue; *)
        applyLoop client fromId true rest
      else
        let! _ :=
          if shouldApply then applyMigration client migration else ret tt in
        applyLoop client fromId shouldApply rest
  end.

(** case "applyMigrations" *)
Definition applyMigrations (fromId : option string) : M Response :=
  let! migrations := getMigrations migrationService in
  let! client := getClient in
  try_finally
    (let shouldApply := negb (Js.truthy fromId) in
     let! _ := applyLoop client fromId shouldApply migrations in
     ret MigrationsApplied)
    release.

(** [migrationId ? migrations.find(...) : migrations[migrations.length - 1]] *)
Definition targetMigration (migrationId : option string)
    (migrations : list Migration.t) : option Migration.t :=
  if Js.truthy migrationId
  then List.find (fun m => id_is m migrationId) migrations
  else last migrations.

(** case "revertMigration" *)
Definition revertMigration (migrationId : option string) : M Response :=
  let! migrations := getMigrations migrationService in
  if Nat.eqb (length migrations) 0 then
    throw (JsError "No migrations to revert")
  else
    match targetMigration migrationId migrations with
    | None => throw (JsError "Migration not found")
    | Some target =>
        let! client := getClient in
        try_finally
          (try_catch
             (let! revertSql := lift (generateRevertSql target) in
              let! _ := query client "BEGIN" in
              let! _ := query client revertSql in
              let! _ := query client "COMMIT" in
              let! _ := removeMigration migrationService (Migration.id target) in
              ret (MigrationReverted target revertSql))
             (fun error =>
                let! _ := query client "ROLLBACK" in
                throw error))
          release
    end.

End Handlers.

End Server.

(** ** Vocabulary of the statements *)

(** The regular file at a path, if there is one. *)
Definition file_at (files : gmap path node) (p : path) : option content :=
  if Fs.is_dir files p then None
  else match files !! p with
       | Some (File c) => Some c
       | _ => None
       end.

(** The records of the metadata index as [getMigrations] reads them. *)
Definition stored (this : MigrationConfig) (files : gmap path node)
    : list Migration.t :=
  match file_at files (metadataFile this) with
  | Some (Json d) => migrations d
  | _ => []
  end.

(** The SQL file of a migration id. *)
Definition sqlFile (this : MigrationConfig) (migrationId : string) : path :=
  Fs.join (migrationsDir this) (migrationId +:+ ".sql").

(** The effects that change the migration store. *)
Definition store_event (e : Event) : bool :=
  match e with
  | EvMkdir _ | EvWriteFile _ _ | EvUnlink _ => true
  | EvQuery _ _ | EvRelease => false
  end.

(** The statements of one accepted transaction around [sql]. *)
Definition transaction (sql : string) : list Event :=
  [EvQuery "BEGIN" None; EvQuery sql None; EvQuery "COMMIT" None].

(** A server that accepts every statement. *)
Definition accepting : PoolClient := fun _ _ => None.

(** A server that rejects the statement [bad] and accepts the others. *)
Definition rejecting (bad : string) (e : Error) : PoolClient :=
  fun _ statement => if String.eqb statement bad then Some e else None.

(** The records the loop of "applyMigrations" hands to [applyMigration]. *)
Fixpoint pending (fromId : option string) (shouldApply : bool)
    (migrations : list Migration.t) : list Migration.t :=
  match migrations with
  | [] => []
  | migration :: rest =>
      if Server.id_is migration fromId then pending fromId true rest
      else if shouldApply then migration :: pending fromId shouldApply rest
      else pending fromId shouldApply rest
  end.

(** One call of [createMigration]: what it reads and what it is given. *)
Record Call : Type := {
  entropy : Entropy;
  kind : MigrationType;
  sqlText : string;
  note : option string
}.

(** A sequence of [createMigration] calls, each awaited before the next. *)
Fixpoint createAll (this : MigrationConfig) (calls : list Call)
    : M (list Migration.t) :=
  match calls with
  | [] => ret []
  | c :: rest =>
      let! m :=
        MigrationService.createMigration this (entropy c) (kind c)
          (sqlText c) (note c) in
      let! ms := createAll this rest in
      ret (m :: ms)
  end.

(** Two clock readings that print with the same number of digits, the first
    strictly before the second. *)
Definition ticks_before (a b : Entropy) : Prop :=
  (0 <= now_id a < now_id b)%Z /\
  String.length (Js.toString (now_id a)) = String.length (Js.toString (now_id b)).

(** Value of a list of decimal digits, least significant first. *)
Fixpoint value_le (ds : list N) : N :=
  match ds with
  | [] => 0
  | d :: ds' => d + 10 * value_le ds'
  end.

(** Whether the code unit [c] occurs in [s]. *)
Fixpoint contains (c : ascii) (s : string) : bool :=
  match s with
  | EmptyString => false
  | String c' s' => Ascii.eqb c' c || contains c s'
  end.

(** ** Sample stores and records *)

Module Demo.

Definition workingDir : path := ["app"].

Definition config : MigrationConfig := getMigrationConfig workingDir.

Definition record (id sql : string) (type : MigrationType) : Migration.t :=
  Migration.mk id (MigrationType_toString type +:+ "_1711017000000")
    1711017000000 sql type None (MigrationService.generateChecksum sql).

Definition tasks : Migration.t :=
  record "1711017000000_0a0b0c0d"
    "CREATE TABLE tasks (id SERIAL PRIMARY KEY)" table.

Definition users : Migration.t :=
  record "1711017000100_00000001" "CREATE TABLE users (id SERIAL)" table.

Definition idx : Migration.t :=
  record "1711017000200_00000002" "CREATE INDEX users_id ON users (id)" index.

(** The working directory alone: nothing initialized. *)
Definition bare : World :=
  {| fs := {[ workingDir := Dir ]}; trace := [] |}.

(** A migrations directory without index file. *)
Definition no_index : World :=
  {| fs := {[ workingDir := Dir; migrationsDir config := Dir ]};
     trace := [] |}.

(** A store whose index holds [records], with the SQL files of [ids]. *)
Definition store (records : list Migration.t) (ids : list string) : World :=
  {| fs :=
       foldr (fun i files => <[sqlFile config i := File (Text "")]> files)
         (<[metadataFile config := File (Json {| migrations := records |})]>
            {[ workingDir := Dir; migrationsDir config := Dir ]})
         ids;
     trace := [] |}.

(** The readings of a call whose three clock reads fall in millisecond [t]. *)
Definition entropy_at (t : Z) (r : byte * byte * byte * byte) : Entropy :=
  {| now_id := t; random4 := r; now_name := t; now_timestamp := t |}.

Definition call (t : Z) (r : byte * byte * byte * byte) (sql : string) : Call :=
  {| entropy := entropy_at t r; kind := table; sqlText := sql; note := None |}.

Definition database (client : PoolClient) : DatabaseService :=
  {| getClient_result := Ok client |}.

End Demo.

(** ** [src/services/SchemaService.ts]: the other builders *)

Inductive TriggerWhen : Type := BEFORE | AFTER | INSTEAD_OF.
Inductive TriggerEvent : Type := INSERT | UPDATE | DELETE.
Inductive TriggerScope : Type := ROW | STATEMENT.

Definition TriggerWhen_toString (t : TriggerWhen) : string :=
  match t with
  | BEFORE => "BEFORE"
  | AFTER => "AFTER"
  | INSTEAD_OF => "INSTEAD OF"
  end.

Definition TriggerEvent_toString (e : TriggerEvent) : string :=
  match e with
  | INSERT => "INSERT"
  | UPDATE => "UPDATE"
  | DELETE => "DELETE"
  end.

Definition TriggerScope_toString (s : TriggerScope) : string :=
  match s with
  | ROW => "ROW"
  | STATEMENT => "STATEMENT"
  end.

Module CreateFunctionParams.
Record t : Type := mk {
  name : string;
  parameters : string;
  returnType : string;
  language : string;
  body : string;
  options : option string
}.
End CreateFunctionParams.

Module CreateTriggerParams.
Record t : Type := mk {
  name : string;
  tableName : string;
  functionName : string;
  when : TriggerWhen;
  events : list TriggerEvent;
  forEach : TriggerScope;
  condition : option string
}.
End CreateTriggerParams.

Module CreateIndexParams.
Record t : Type := mk {
  tableName : string;
  indexName : string;
  columns : list string;
  unique : option bool;
  type : option string;
  where_ : option string
}.
End CreateIndexParams.

Module AlterTableParams.
Record t : Type := mk {
  tableName : string;
  operation : string;
  details : string
}.
End AlterTableParams.

Module Builders.

Definition nl : string := MigrationService.newline.

(** [value || ''] and [value ? `prefix${value}suffix` : ''] on an optional
    string. *)
Definition or_empty (v : option string) : string :=
  if Js.truthy v then Js.template v else "".

Definition wrapped (prefix : string) (v : option string) (suffix : string)
    : string :=
  if Js.truthy v then prefix +:+ Js.template v +:+ suffix else "".

Definition createFunction (params : CreateFunctionParams.t) : string :=
  nl +:+ "      CREATE OR REPLACE FUNCTION " +:+ CreateFunctionParams.name params
     +:+ "(" +:+ CreateFunctionParams.parameters params +:+ ")"
  +:+ nl +:+ "      RETURNS " +:+ CreateFunctionParams.returnType params
  +:+ nl +:+ "      LANGUAGE " +:+ CreateFunctionParams.language params
  +:+ nl +:+ "      " +:+ or_empty (CreateFunctionParams.options params)
  +:+ nl +:+ "      AS $$"
  +:+ nl +:+ "      " +:+ CreateFunctionParams.body params
  +:+ nl +:+ "      $$;"
  +:+ nl +:+ "    ".

Definition createTrigger (params : CreateTriggerParams.t) : string :=
  let eventStr :=
    Js.join " OR " (map TriggerEvent_toString (CreateTriggerParams.events params)) in
  let whenClause := wrapped "WHEN (" (CreateTriggerParams.condition params) ")" in
  nl +:+ "      CREATE TRIGGER " +:+ CreateTriggerParams.name params
  +:+ nl +:+ "      " +:+ TriggerWhen_toString (CreateTriggerParams.when params)
     +:+ " " +:+ eventStr
  +:+ nl +:+ "      ON " +:+ CreateTriggerParams.tableName params
  +:+ nl +:+ "      FOR EACH "
     +:+ TriggerScope_toString (CreateTriggerParams.forEach params)
  +:+ nl +:+ "      " +:+ whenClause
  +:+ nl +:+ "      EXECUTE FUNCTION "
     +:+ CreateTriggerParams.functionName params +:+ "();"
  +:+ nl +:+ "    ".

Definition createIndex (params : CreateIndexParams.t) : string :=
  let uniqueStr :=
    match CreateIndexParams.unique params with
    | Some true => "UNIQUE"
    | _ => ""
    end in
  let typeStr := wrapped "USING " (CreateIndexParams.type params) "" in
  let whereClause := wrapped "WHERE " (CreateIndexParams.where_ params) "" in
  nl +:+ "      CREATE " +:+ uniqueStr +:+ " INDEX "
     +:+ CreateIndexParams.indexName params
  +:+ nl +:+ "      ON " +:+ CreateIndexParams.tableName params +:+ " " +:+ typeStr
     +:+ " (" +:+ Js.join ", " (CreateIndexParams.columns params) +:+ ")"
  +:+ nl +:+ "      " +:+ whereClause
  +:+ nl +:+ "    ".

Definition alterTable (params : AlterTableParams.t) : string :=
  "ALTER TABLE " +:+ AlterTableParams.tableName params +:+ " "
  +:+ AlterTableParams.operation params +:+ " "
  +:+ AlterTableParams.details params.

End Builders.

(** ** [src/services/DatabaseService.ts] *)

(** What the server sends back for an accepted statement. *)
Record QueryResult (Row : Type) : Type := {
  command : string;
  rowCount : option Z;
  rows : list Row
}.
Arguments command {Row} _.
Arguments rowCount {Row} _.
Arguments rows {Row} _.

(** The results of the server: what it sends back for a statement it
    accepts, given everything that happened before. *)
Definition Results (Row : Type) : Type := list Event -> string -> QueryResult Row.

Module PostgresService.

Section Pool.

Context {Row : Type}.
Variable pool : DatabaseService.
Variable results : Results Row.

(** [client.query(sql, params)], with its result. *)
Definition client_query (client : PoolClient) (sql : string)
    : M (QueryResult Row) :=
  fun w =>
    let answer := client (trace w) sql in
    (match answer with None => Ok (results (trace w) sql) | Some e => Throw e end,
     {| fs := fs w; trace := trace w ++ [EvQuery sql answer] |}).

(** [this.pool.connect()] *)
Definition connect : M PoolClient := lift (getClient_result pool).

Definition query (sql : string) : M (list Row) :=
  let! client := connect in
  try_finally
    (let! _ := MigrationService.query client "BEGIN TRANSACTION READ ONLY" in
     let! result := client_query client sql in
     ret (rows result))
    (let! _ := MigrationService.query client "ROLLBACK" in
     MigrationService.release).

Definition execute (sql : string) : M (QueryResult Row) :=
  let! client := connect in
  try_finally
    (try_catch
       (let! _ := MigrationService.query client "BEGIN" in
        let! result := client_query client sql in
        let! _ := MigrationService.query client "COMMIT" in
        ret {| command := command result;
               rowCount := rowCount result;
               rows := rows result |})
       (fun error =>
          let! _ := MigrationService.query client "ROLLBACK" in
          throw error))
    MigrationService.release.

Definition getClient : M PoolClient := connect.

End Pool.

End PostgresService.

(** ** The other tool handlers of [src/index.ts] *)

(** The answer of a schema tool: its message, the SQL, and the id and name
    of the migration. *)
Inductive SchemaResponse : Type :=
| Created (message sql id name : string).

Module Tools.
Import MigrationService.

Section Handlers.

Context {Row : Type}.
Variable migrationService : MigrationConfig.
Variable dbService : DatabaseService.
Variable results : Results Row.

(** case "query" *)
Definition query (sql : string) : M (list Row) :=
  PostgresService.query dbService results sql.

(** case "execute" *)
Definition execute (sql : string) : M (QueryResult Row) :=
  PostgresService.execute dbService results sql.

(** [values.map((_, i) => `$${i + 1}`)] *)
Definition placeholders (n : nat) : list string :=
  map (fun i => "$" +:+ Js.toString (Z.of_nat (i + 1))) (seq 0 n).

(** The statement of case "insert", for the keys of [data]. *)
Definition insert_sql (table : string) (columns : list string) : string :=
  "INSERT INTO " +:+ table +:+ " (" +:+ Js.join ", " columns
  +:+ ") VALUES (" +:+ Js.join ", " (placeholders (length columns))
  +:+ ") RETURNING *".

(** The statement of case "update". *)
Definition update_sql (table : string) (columns : list string) (where_ : string)
    : string :=
  let setClause :=
    Js.join ", "
      (map (fun '(col, p) => col +:+ " = " +:+ p)
           (combine columns (placeholders (length columns)))) in
  "UPDATE " +:+ table +:+ " SET " +:+ setClause +:+ " WHERE " +:+ where_
  +:+ " RETURNING *".

(** The statement of case "delete". *)
Definition delete_sql (table where_ : string) : string :=
  "DELETE FROM " +:+ table +:+ " WHERE " +:+ where_ +:+ " RETURNING *".

(** case "insert": [data] as the list of its entries, in key order. *)
Definition insert {V} (table : string) (data : list (string * V))
    : M (QueryResult Row) :=
  PostgresService.execute dbService results (insert_sql table (map fst data)).

(** case "update" *)
Definition update {V} (table : string) (data : list (string * V))
    (where_ : string) : M (QueryResult Row) :=
  PostgresService.execute dbService results
    (update_sql table (map fst data) where_).

(** case "delete" *)
Definition delete (table where_ : string) : M (QueryResult Row) :=
  PostgresService.execute dbService results (delete_sql table where_).

(** case "createFunction" *)
Definition createFunction (e : Entropy) (args : CreateFunctionParams.t)
    : M SchemaResponse :=
  let sql := Builders.createFunction args in
  let! migration :=
    createMigration migrationService e function sql
      (Some ("Create function " +:+ CreateFunctionParams.name args)) in
  let! client := Server.getClient dbService in
  try_finally
    (let! _ := applyMigration client migration in
     ret (Created "Function created successfully" sql
            (Migration.id migration) (Migration.name migration)))
    release.

(** case "createTrigger" *)
Definition createTrigger (e : Entropy) (args : CreateTriggerParams.t)
    : M SchemaResponse :=
  let sql := Builders.createTrigger args in
  let! migration :=
    createMigration migrationService e trigger sql
      (Some ("Create trigger " +:+ CreateTriggerParams.name args)) in
  let! client := Server.getClient dbService in
  try_finally
    (let! _ := applyMigration client migration in
     ret (Created "Trigger created successfully" sql
            (Migration.id migration) (Migration.name migration)))
    release.

(** case "createIndex" *)
Definition createIndex (e : Entropy) (args : CreateIndexParams.t)
    : M SchemaResponse :=
  let sql := Builders.createIndex args in
  let! migration :=
    createMigration migrationService e index sql
      (Some ("Create index " +:+ CreateIndexParams.indexName args)) in
  let! client := Server.getClient dbService in
  try_finally
    (let! _ := applyMigration client migration in
     ret (Created "Index created successfully" sql
            (Migration.id migration) (Migration.name migration)))
    release.

(** case "alterTable" *)
Definition alterTable (e : Entropy) (args : AlterTableParams.t)
    : M SchemaResponse :=
  let sql := Builders.alterTable args in
  let! migration :=
    createMigration migrationService e alter sql
      (Some ("Alter table " +:+ AlterTableParams.tableName args)) in
  let! client := Server.getClient dbService in
  try_finally
    (let! _ := applyMigration client migration in
     ret (Created "Table altered successfully" sql
            (Migration.id migration) (Migration.name migration)))
    release.

End Handlers.

End Tools.

(** ** Vocabulary of the trigger statements *)

(** [/CREATE\s/i] *)
Definition create_blank : Regex.re :=
  Regex.Cat (Regex.lit "CREATE") (Regex.Class Regex.space).

(** Whether the word CREATE, in any case, occurs in [s] before a white
    space. *)
Definition mentions_create (s : string) : bool :=
  match Regex.exec create_blank s with
  | Some _ => true
  | None => false
  end.

(** ** Vocabulary of the index file and of the server's answers *)

(** The index file is legible: if it is a file of text that is not a
    written index, then [JSON.parse] rejects that text at its first
    token.  (A missing index, a directory at its path and a written index
    are legible.) *)
Definition legible (this : MigrationConfig) (files : gmap path node) : bool :=
  match file_at files (metadataFile this) with
  | Some (Text s) => negb (json_start s)
  | _ => true
  end.

(** The server accepts the statements when they are sent in this order
    after [history]. *)
Fixpoint accepts (client : PoolClient) (history : list Event)
    (statements : list string) : bool :=
  match statements with
  | [] => true
  | statement :: rest =>
      match client history statement with
      | None => accepts client (history ++ [EvQuery statement None]) rest
      | Some _ => false
      end
  end.

(** The statements of the transactions of [records], in order. *)
Definition statements_of (records : list Migration.t) : list string :=
  flat_map (fun m => ["BEGIN"; Migration.sql m; "COMMIT"]) records.

(** * Properties *)

Import MigrationService.
Local Open Scope js_scope.

(** *** The monad *)

Lemma bind_run {A B} (m : M A) (f : A -> M B) w :
  bind m f w =
    match m w with
    | (Ok a, w') => f a w'
    | (Throw e, w') => (Throw e, w')
    end.
Proof. reflexivity. Qed.

Lemma query_run client statement w :
  query client statement w =
    (match client (trace w) statement with None => Ok tt | Some e => Throw e end,
     {| fs := fs w;
        trace := trace w ++ [EvQuery statement (client (trace w) statement)] |}).
Proof. reflexivity. Qed.

Lemma rollback_run {A} client e w :
  (let! _ := query client "ROLLBACK" in throw (A:=A) e) w =
    (Throw (match client (trace w) "ROLLBACK" with None => e | Some e' => e' end),
     {| fs := fs w;
        trace := trace w ++ [EvQuery "ROLLBACK" (client (trace w) "ROLLBACK")] |}).
Proof.
  rewrite bind_run, query_run. by destruct (client (trace w) "ROLLBACK").
Qed.

(** *** The file system *)

Lemma file_at_Some files p c :
  file_at files p = Some c <->
  Fs.is_dir files p = false /\ files !! p = Some (File c).
Proof.
  unfold file_at. destruct (Fs.is_dir files p).
  { split; [done|]. by intros [? _]. }
  destruct (files !! p) as [[|c0]|]; split; try done.
  - by intros [_ ?].
  - by intros [= ->].
  - by intros [_ [= ->]].
  - by intros [_ ?].
Qed.

Lemma file_at_insert_eq files p c :
  p <> [] -> file_at (<[p := File c]> files) p = Some c.
Proof.
  intros Hp. unfold file_at. destruct p as [|a p]; [done|]. cbn.
  by rewrite lookup_insert_eq.
Qed.

Lemma file_at_insert_ne files p q n :
  p <> q -> file_at (<[p := n]> files) q = file_at files q.
Proof.
  intros Hp. unfold file_at. destruct q as [|a q]; [done|]. cbn.
  by rewrite lookup_insert_ne.
Qed.

Lemma file_at_delete_eq files p : file_at (delete p files) p = None.
Proof.
  unfold file_at. destruct p as [|a p]; [done|]. cbn.
  by rewrite lookup_delete_eq.
Qed.

Lemma file_at_delete_ne files p q :
  p <> q -> file_at (delete p files) q = file_at files q.
Proof.
  intros Hp. unfold file_at. destruct q as [|a q]; [done|]. cbn.
  by rewrite lookup_delete_ne.
Qed.

Lemma file_at_not_nil files p c : file_at files p = Some c -> p <> [].
Proof. by destruct p. Qed.

Lemma readFile_cases p w :
  (exists c, file_at (fs w) p = Some c /\ Fs.readFile p w = (Ok c, w))
  \/ (exists e, file_at (fs w) p = None /\ Fs.readFile p w = (Throw e, w) /\
        NotFound e = false).
Proof.
  unfold Fs.readFile, file_at, Fs.get_fs, bind, ret, throw.
  destruct (Fs.is_dir (fs w) p); [right; by eexists|].
  destruct (fs w !! p) as [[|c]|]; [right|left|right]; by eexists.
Qed.

Lemma writeFile_over p c c0 w :
  file_at (fs w) p = Some c0 ->
  Fs.writeFile p c w =
    (Ok tt, {| fs := <[p := File c]> (fs w);
               trace := trace w ++ [EvWriteFile p c] |}).
Proof.
  intros [Hd Hl]%file_at_Some.
  unfold Fs.writeFile, Fs.get_fs, Fs.set_fs, bind, emit.
  by rewrite Hd, Hl.
Qed.

Lemma unlink_cases p w :
  (exists c, file_at (fs w) p = Some c /\
     Fs.unlink p w =
       (Ok tt, {| fs := delete p (fs w); trace := trace w ++ [EvUnlink p] |}))
  \/ (exists e, file_at (fs w) p = None /\ Fs.unlink p w = (Throw e, w) /\
        NotFound e = false /\
        (Fs.exists_ (fs w) p = false -> e = FsError ENOENT p)).
Proof.
  unfold Fs.unlink, file_at, Fs.exists_, Fs.get_fs, Fs.set_fs, bind, emit, throw.
  destruct (Fs.is_dir (fs w) p) eqn:Hd.
  - right. eexists. repeat split. destruct p as [|a p]; [done|]. cbn in Hd.
    by destruct (fs w !! (a :: p)).
  - destruct p as [|a p]; [done|].
    destruct (fs w !! (a :: p)) as [[|c]|]; [right|left|right]; by eexists.
Qed.

(** *** Reading the index *)

Lemma getMigrations_stored this w :
  getMigrations this w = (Ok (stored this (fs w)), w).
Proof.
  unfold getMigrations, stored, try_catch.
  rewrite bind_run.
  destruct (readFile_cases (metadataFile this) w)
    as [(c & -> & ->)|(e & -> & -> & _)]; [|done].
  by destruct c.
Qed.

Lemma stored_insert_index this files d :
  metadataFile this <> [] ->
  stored this (<[metadataFile this := File (Json d)]> files) = migrations d.
Proof. intros Hp. unfold stored. by rewrite file_at_insert_eq. Qed.

Lemma stored_delete_ne this files p :
  p <> metadataFile this -> stored this (delete p files) = stored this files.
Proof. intros Hp. unfold stored. by rewrite file_at_delete_ne. Qed.

(** *** [removeMigration] *)

(** The runs of [removeMigration]: the index cannot be read and nothing
    happens; or the index is rewritten without the records of the id, and
    then the SQL file is unlinked. *)
Lemma removeMigration_cases this migrationId w :
  let kept := filter (fun m => Migration.id m <> migrationId) (stored this (fs w)) in
  let index' := Json {| migrations := kept |} in
  let w1 := {| fs := <[metadataFile this := File index']> (fs w);
               trace := trace w ++ [EvWriteFile (metadataFile this) index'] |} in
  (exists e, removeMigration this migrationId w = (Throw e, w) /\
             stored this (fs w) = [] /\ NotFound e = false /\
             forall d, file_at (fs w) (metadataFile this) <> Some (Json d))
  \/ ((exists d, file_at (fs w) (metadataFile this) = Some (Json d)) /\
      removeMigration this migrationId w = Fs.unlink (sqlFile this migrationId) w1).
Proof.
  intros kept index' w1. subst kept index' w1.
  unfold removeMigration, stored. rewrite bind_run.
  destruct (readFile_cases (metadataFile this) w)
    as [(c & Hc & ->)|(e & Hc & -> & He)]; rewrite Hc.
  - destruct c as [s|d]; rewrite bind_run.
    + left. by eexists.
    + right. split; [by eauto|].
      change (JSON_parse (Json d) w) with (Ok d, w). cbv beta iota.
      by rewrite bind_run, (writeFile_over _ _ _ _ Hc).
  - left. by eexists.
Qed.

Lemma removeMigration_index this migrationId w :
  metadataFile this <> sqlFile this migrationId ->
  stored this (fs (snd (removeMigration this migrationId w))) =
    filter (fun m => Migration.id m <> migrationId) (stored this (fs w)).
Proof.
  intros Hne.
  destruct (removeMigration_cases this migrationId w)
    as [(e & -> & Hs & _)|([d Hd] & ->)]; [cbn; by rewrite Hs|].
  apply file_at_not_nil in Hd.
  match goal with |- context [Fs.unlink ?p ?w1] =>
    destruct (unlink_cases p w1) as [(c & _ & ->)|(e & _ & -> & _)] end; cbn.
  - rewrite stored_delete_ne by done. by rewrite stored_insert_index.
  - by rewrite stored_insert_index.
Qed.

Lemma sql_name_not_metadata (migrationId : string) :
  migrationId +:+ ".sql" <> "metadata.json".
Proof.
  intros H.
  do 14 (destruct migrationId as [|? migrationId];
         [discriminate H|]; cbn in H; try discriminate H;
         injection H as _ H).
Qed.

(** In the configuration of the server no SQL file is the index file. *)
Lemma deployed_paths_distinct (workingDir : path) (migrationId : string) :
  let this := getMigrationConfig workingDir in
  metadataFile this <> sqlFile this migrationId.
Proof.
  cbn. unfold sqlFile, Fs.join. cbn. rewrite <- app_assoc. cbn.
  intros H%app_inv_head. injection H as H.
  by apply (sql_name_not_metadata migrationId).
Qed.

(** C10. [removeMigration] keeps every record of the index whose id
    differs from its argument, unchanged and in the same relative order, and
    drops exactly the records with that id; this holds in the configuration
    of the server for every state of the store and every id, whether or not
    the call returns normally. *)
Theorem removeMigration_keeps_the_other_records
    (workingDir : path) (migrationId : string) (w : World) :
  let this := getMigrationConfig workingDir in
  let w' := snd (removeMigration this migrationId w) in
  exists before after,
    getMigrations this w = (Ok before, w) /\
    getMigrations this w' = (Ok after, w') /\
    after = filter (fun m => Migration.id m <> migrationId) before /\
    (forall m, m ∈ before -> Migration.id m <> migrationId -> m ∈ after) /\
    (forall m, m ∈ after -> m ∈ before /\ Migration.id m <> migrationId) /\
    sublist after before.
Proof.
  intros this w'.
  exists (stored this (fs w)), (stored this (fs w')).
  assert (Hafter : stored this (fs w') =
            filter (fun m => Migration.id m <> migrationId) (stored this (fs w))).
  { apply removeMigration_index, deployed_paths_distinct. }
  split; [apply getMigrations_stored|].
  split; [apply getMigrations_stored|].
  split; [exact Hafter|]. rewrite Hafter.
  split; [|split].
  - intros m Hin Hid. by apply list_elem_of_filter.
  - intros m [Hid Hin]%list_elem_of_filter. done.
  - apply sublist_filter.
Qed.

(** C2, as stated, fails: with an index entry whose SQL file is absent,
    [removeMigration] throws ENOENT after it has deleted the entry; and for
    an id without index entry it throws ENOENT, not an error of the class
    NotFound, or succeeds when a file of that name exists. *)
Lemma removeMigration_absent_file_throws :
  let this := Demo.config in
  let orphan := Demo.store [Demo.tasks] [] in
  let stale := Demo.store [Demo.tasks] ["stale"] in
  stored this (fs orphan) = [Demo.tasks] /\
  file_at (fs orphan) (sqlFile this (Migration.id Demo.tasks)) = None /\
  fst (removeMigration this (Migration.id Demo.tasks) orphan)
    = Throw (FsError ENOENT (sqlFile this (Migration.id Demo.tasks))) /\
  stored this (fs (snd (removeMigration this (Migration.id Demo.tasks) orphan))) = [] /\
  fst (removeMigration this "unknown" orphan)
    = Throw (FsError ENOENT (sqlFile this "unknown")) /\
  NotFound (FsError ENOENT (sqlFile this "unknown")) = false /\
  fst (removeMigration this "stale" stale) = Ok tt.
Proof. vm_compute. repeat split. Qed.

(** What a run of [removeMigration] does, for a configuration whose index
    file is not the SQL file of the id. *)
Lemma removeMigration_run (this : MigrationConfig) (migrationId : string)
    (w : World) :
  metadataFile this <> sqlFile this migrationId ->
  let r := fst (removeMigration this migrationId w) in
  let w' := snd (removeMigration this migrationId w) in
  (forall e, r = Throw e -> NotFound e = false) /\
  (forall d, file_at (fs w) (metadataFile this) = Some (Json d) ->
     stored this (fs w') =
       filter (fun m => Migration.id m <> migrationId) (migrations d) /\
     (forall c, file_at (fs w) (sqlFile this migrationId) = Some c ->
        r = Ok tt /\ file_at (fs w') (sqlFile this migrationId) = None) /\
     (file_at (fs w) (sqlFile this migrationId) = None ->
        exists e, r = Throw e /\
          (Fs.exists_ (fs w) (sqlFile this migrationId) = false ->
           e = FsError ENOENT (sqlFile this migrationId)))).
Proof.
  intros Hne r w'. subst r w'.
  destruct (removeMigration_cases this migrationId w)
    as [(e & Hrun & Hs & He & Hno)|([d Hd] & Hrun)].
  { rewrite Hrun. cbn [fst snd]. split; [by intros ? [= <-]|].
    intros d Hd. by destruct (Hno d). }
  rewrite Hrun. clear Hrun.
  set (w1 := {| fs := _; trace := _ |}).
  assert (Hsame : file_at (fs w1) (sqlFile this migrationId)
                  = file_at (fs w) (sqlFile this migrationId)).
  { subst w1. cbn [fs]. by rewrite file_at_insert_ne. }
  assert (Hex : Fs.exists_ (fs w1) (sqlFile this migrationId)
                = Fs.exists_ (fs w) (sqlFile this migrationId)).
  { subst w1. cbn [fs]. unfold Fs.exists_.
    destruct (sqlFile this migrationId) as [|a p] eqn:E; [done|].
    by rewrite lookup_insert_ne. }
  assert (Hidx : stored this (fs w1)
                 = filter (fun m => Migration.id m <> migrationId) (stored this (fs w))).
  { subst w1. cbn [fs]. rewrite stored_insert_index; [done|].
    by eapply file_at_not_nil. }
  destruct (unlink_cases (sqlFile this migrationId) w1)
    as [(c & Hc & ->)|(e & Hc & -> & He & Hen)]; cbn [fst snd fs].
  - split; [by intros ? [=]|]. intros d' Hd'.
    rewrite stored_delete_ne by done. rewrite Hidx. unfold stored. rewrite Hd'.
    split; [done|]. split.
    + intros _ _. split; [done|]. apply file_at_delete_eq.
    + rewrite <- Hsame, Hc. done.
  - split; [by intros ? [= <-]|]. intros d' Hd'.
    rewrite Hidx. unfold stored. rewrite Hd'.
    split; [done|]. split.
    + intros c Hc'. rewrite <- Hsame, Hc in Hc'. done.
    + intros _. exists e. split; [done|]. by rewrite <- Hex.
Qed.

(** C2, amended. For an id without path separator, so that [<id>.sql]
    names a file of the migrations directory, [removeMigration] makes no
    check that an index entry exists and never throws an error of the
    class NotFound. When the index can be read, it rewrites the index
    without the records of the id and then unlinks the SQL file of the id:
    it returns normally when that file exists, and after it the file is
    gone; it throws the error of the file system when the file does not
    exist (ENOENT when nothing is at the path), the index being already
    rewritten. *)
Theorem removeMigration_makes_no_existence_check
    (workingDir : path) (migrationId : string) (w : World) :
  let this := getMigrationConfig workingDir in
  let r := fst (removeMigration this migrationId w) in
  let w' := snd (removeMigration this migrationId w) in
  contains "/" migrationId = false ->
  (forall e, r = Throw e -> NotFound e = false) /\
  (forall d, file_at (fs w) (metadataFile this) = Some (Json d) ->
     stored this (fs w') =
       filter (fun m => Migration.id m <> migrationId) (migrations d) /\
     (forall c, file_at (fs w) (sqlFile this migrationId) = Some c ->
        r = Ok tt /\ file_at (fs w') (sqlFile this migrationId) = None) /\
     (file_at (fs w) (sqlFile this migrationId) = None ->
        exists e, r = Throw e /\
          (Fs.exists_ (fs w) (sqlFile this migrationId) = false ->
           e = FsError ENOENT (sqlFile this migrationId)))).
Proof.
  intros this r w' _. apply removeMigration_run, deployed_paths_distinct.
Qed.

Lemma removeMigration_makes_no_existence_check_witness :
  let this := Demo.config in
  let w := Demo.store [Demo.tasks; Demo.users] [Migration.id Demo.tasks] in
  file_at (fs w) (metadataFile this)
    = Some (Json {| migrations := [Demo.tasks; Demo.users] |}) /\
  stored this (fs (snd (removeMigration this (Migration.id Demo.tasks) w)))
    = [Demo.users].
Proof.
  split; [reflexivity|].
  pose proof (removeMigration_makes_no_existence_check
                Demo.workingDir (Migration.id Demo.tasks)
                (Demo.store [Demo.tasks; Demo.users] [Migration.id Demo.tasks])
                eq_refl)
    as [_ H].
  exact (proj1 (H {| migrations := [Demo.tasks; Demo.users] |} eq_refl)).
Defined.

(** *** [ensureMigrationsDir] *)

Lemma access_run p w :
  Fs.access p w =
    (if Fs.exists_ (fs w) p then Ok tt else Throw (FsError ENOENT p), w).
Proof.
  unfold Fs.access, Fs.get_fs, bind, ret, throw.
  by destruct (Fs.exists_ (fs w) p).
Qed.

Lemma is_dir_insert_ne files p q n :
  p <> q -> Fs.is_dir (<[p := n]> files) q = Fs.is_dir files q.
Proof. intros. destruct q; [done|]. cbn. by rewrite lookup_insert_ne. Qed.

Lemma is_dir_exists files p : Fs.is_dir files p = true -> Fs.exists_ files p = true.
Proof.
  destruct p as [|a p]; [done|]. cbn.
  by destruct (files !! (a :: p)) as [[|c]|].
Qed.

(** When [mkdirs] returns, its whole path is a directory. *)
Lemma mkdirs_is_dir todo : forall done files files',
  Fs.mkdirs done todo files = Ok files' ->
  Fs.is_dir files (done ++ todo) = true \/ todo <> [] ->
  Fs.is_dir files' (done ++ todo) = true.
Proof.
  induction todo as [|c todo IH]; intros done files files' Hrun Hpre.
  - cbn in Hrun. injection Hrun as <-. by destruct Hpre.
  - cbn in Hrun.
    replace (done ++ c :: todo) with ((done ++ [c]) ++ todo)
      by (by rewrite <- app_assoc).
    assert (Hnil : done ++ [c] <> []) by (by destruct done).
    destruct (files !! (done ++ [c])) as [[|c0]|] eqn:E; [| done |].
    + apply (IH _ _ _ Hrun). destruct todo as [|c' todo]; [left|by right].
      rewrite app_nil_r. destruct (done ++ [c]); [done|]. cbn. by rewrite E.
    + apply (IH _ _ _ Hrun). destruct todo as [|c' todo]; [left|by right].
      rewrite app_nil_r. destruct (done ++ [c]) eqn:E'; [done|]. cbn.
      by rewrite lookup_insert_eq.
Qed.

(** Along a path whose proper prefixes are directories, [mkdirs] creates
    the last component alone. *)
Lemma mkdirs_last todo : forall done c files,
  (forall pre suf, todo = pre ++ suf -> pre <> [] ->
     files !! (done ++ pre) = Some Dir) ->
  files !! (done ++ todo ++ [c]) = None ->
  Fs.mkdirs done (todo ++ [c]) files = Ok (<[done ++ todo ++ [c] := Dir]> files).
Proof.
  induction todo as [|x todo IH]; intros done c files Hdirs Hnew.
  - cbn in *. by rewrite Hnew.
  - cbn [app Fs.mkdirs].
    rewrite (Hdirs [x] todo eq_refl ltac:(done)).
    replace (done ++ x :: todo ++ [c]) with ((done ++ [x]) ++ todo ++ [c])
      by (by rewrite <- app_assoc).
    apply IH.
    + intros pre suf -> Hpre. rewrite <- app_assoc. cbn [app].
      by apply (Hdirs (x :: pre) suf).
    + by rewrite <- app_assoc.
Qed.

Lemma writeFile_Ok p c w w' :
  Fs.writeFile p c w = (Ok tt, w') ->
  Fs.is_dir (fs w) p = false /\
  w' = {| fs := <[p := File c]> (fs w); trace := trace w ++ [EvWriteFile p c] |}.
Proof.
  unfold Fs.writeFile, Fs.get_fs, Fs.set_fs, bind, emit, throw.
  destruct (Fs.is_dir (fs w) p); [done|].
  destruct (fs w !! p) as [[|c0]|].
  2: by intros [= <-].
  all: destruct (Fs.is_dir (fs w) (Fs.parent p)); [by intros [= <-]|];
       by destruct (Fs.exists_ (fs w) (Fs.parent p)).
Qed.

(** The runs of [ensureMigrationsDir]. *)
Lemma ensureMigrationsDir_run this w :
  ensureMigrationsDir this w =
    if Fs.exists_ (fs w) (migrationsDir this) then (Ok tt, w)
    else match Fs.mkdirs [] (migrationsDir this) (fs w) with
         | Ok files' =>
             Fs.writeFile (metadataFile this) (Json {| migrations := [] |})
               {| fs := files';
                  trace := trace w ++ [EvMkdir (migrationsDir this)] |}
         | Throw e => (Throw e, w)
         end.
Proof.
  unfold ensureMigrationsDir, try_catch. rewrite access_run.
  destruct (Fs.exists_ (fs w) (migrationsDir this)); [done|].
  rewrite bind_run. unfold Fs.mkdir_recursive, Fs.get_fs, Fs.set_fs, lift, emit, bind.
  by destruct (Fs.mkdirs [] (migrationsDir this) (fs w)).
Qed.

(** On a fresh installation, where the working directory exists and holds
    no migrations directory, the call creates the directory and the empty
    index. *)
Lemma ensureMigrationsDir_fresh (workingDir : path) (w : World) :
  let this := getMigrationConfig workingDir in
  let empty := Json {| migrations := [] |} in
  (forall pre suf, workingDir = pre ++ suf -> pre <> [] ->
     fs w !! pre = Some Dir) ->
  fs w !! migrationsDir this = None ->
  fs w !! metadataFile this = None ->
  ensureMigrationsDir this w =
    (Ok tt,
     {| fs := <[metadataFile this := File empty]>
                (<[migrationsDir this := Dir]> (fs w));
        trace := trace w ++ [EvMkdir (migrationsDir this);
                             EvWriteFile (metadataFile this) empty] |}).
Proof.
  intros this empty Hdirs Hdir Hidx.
  assert (Hne : migrationsDir this <> metadataFile this).
  { cbn. intros H%app_inv_head. discriminate. }
  assert (Hparent : Fs.parent (metadataFile this) = migrationsDir this).
  { cbn. unfold Fs.parent.
    change ["migrations"; "metadata.json"] with (["migrations"] ++ ["metadata.json"]).
    by rewrite app_assoc, removelast_last. }
  rewrite ensureMigrationsDir_run.
  assert (Hno : Fs.exists_ (fs w) (migrationsDir this) = false).
  { unfold Fs.exists_. rewrite Hdir. cbn. by destruct workingDir. }
  rewrite Hno.
  pose proof (mkdirs_last workingDir [] "migrations" (fs w)) as Hmk.
  cbn [app] in Hmk. change (workingDir ++ ["migrations"]) with (migrationsDir this) in Hmk.
  rewrite Hmk by done.
  unfold Fs.writeFile, Fs.get_fs, Fs.set_fs, bind, emit. cbn [fs trace].
  assert (Hfile : <[migrationsDir this := Dir]> (fs w) !! metadataFile this = None).
  { by rewrite lookup_insert_ne. }
  assert (Hd1 : Fs.is_dir (<[migrationsDir this := Dir]> (fs w)) (metadataFile this) = false).
  { unfold Fs.is_dir. rewrite Hfile. cbn. by destruct workingDir. }
  assert (Hd2 : Fs.is_dir (<[migrationsDir this := Dir]> (fs w)) (migrationsDir this) = true).
  { unfold Fs.is_dir. rewrite lookup_insert_eq. cbn. by destruct workingDir. }
  rewrite Hd1, Hfile, Hparent, Hd2. cbn [trace]. by rewrite <- app_assoc.
Qed.

(** An accessible directory path: the call is a no-op. *)
Lemma ensureMigrationsDir_skip this w :
  Fs.exists_ (fs w) (migrationsDir this) = true ->
  ensureMigrationsDir this w = (Ok tt, w).
Proof. intros Hex. by rewrite ensureMigrationsDir_run, Hex. Qed.

(** An inaccessible directory path: a call that returns has created the
    directory and the empty index. *)
Lemma ensureMigrationsDir_create this w w' :
  Fs.exists_ (fs w) (migrationsDir this) = false ->
  ensureMigrationsDir this w = (Ok tt, w') ->
  Fs.is_dir (fs w') (migrationsDir this) = true /\
  file_at (fs w') (metadataFile this) = Some (Json {| migrations := [] |}).
Proof.
  intros Hno. rewrite ensureMigrationsDir_run, Hno.
  destruct (Fs.mkdirs [] (migrationsDir this) (fs w)) as [files'|e] eqn:Hmk;
    [|done].
  intros [Hd ->]%writeFile_Ok. cbn [fs] in *.
  assert (Hdir : Fs.is_dir files' (migrationsDir this) = true).
  { apply (mkdirs_is_dir _ [] _ _ Hmk). right. intros E.
    by rewrite E in Hno. }
  assert (Hne : metadataFile this <> migrationsDir this) by congruence.
  split.
  - by rewrite is_dir_insert_ne.
  - apply file_at_insert_eq. intros E. by rewrite E in Hd.
Qed.

(** C3, as stated, fails: when the migrations directory exists and the
    index file does not, [ensureMigrationsDir] returns normally, changes
    nothing, and leaves the store without index file. *)
Lemma ensureMigrationsDir_leaves_index_missing :
  let r := ensureMigrationsDir Demo.config Demo.no_index in
  Fs.is_dir (fs Demo.no_index) (migrationsDir Demo.config) = true /\
  fst r = Ok tt /\
  snd r = Demo.no_index /\
  Fs.exists_ (fs (snd r)) (metadataFile Demo.config) = false.
Proof. repeat split. Qed.

(** C3, amended. [ensureMigrationsDir] tests only whether the path of the
    migrations directory is accessible. If it is, the call returns normally
    and changes nothing, whether or not the index file exists. If it is
    not, the call creates the directory and writes an empty index, and when
    it returns normally the directory and the empty index file exist. After
    any call that returned normally a second call changes nothing and
    returns normally. *)
Theorem ensureMigrationsDir_tests_the_directory_only
    (this : MigrationConfig) (w : World) :
  (Fs.exists_ (fs w) (migrationsDir this) = true ->
   ensureMigrationsDir this w = (Ok tt, w)) /\
  (forall w',
     Fs.exists_ (fs w) (migrationsDir this) = false ->
     ensureMigrationsDir this w = (Ok tt, w') ->
     Fs.is_dir (fs w') (migrationsDir this) = true /\
     file_at (fs w') (metadataFile this) = Some (Json {| migrations := [] |})) /\
  (forall w',
     ensureMigrationsDir this w = (Ok tt, w') ->
     ensureMigrationsDir this w' = (Ok tt, w')).
Proof.
  split; [apply ensureMigrationsDir_skip|].
  split; [intros w'; apply ensureMigrationsDir_create|].
  intros w' Hrun.
  destruct (Fs.exists_ (fs w) (migrationsDir this)) eqn:Hex.
  - rewrite (ensureMigrationsDir_skip _ _ Hex) in Hrun. injection Hrun as <-.
    by apply ensureMigrationsDir_skip.
  - destruct (ensureMigrationsDir_create _ _ _ Hex Hrun) as [Hdir _].
    by apply ensureMigrationsDir_skip, is_dir_exists.
Qed.

Lemma ensureMigrationsDir_tests_the_directory_only_witness :
  let w' := snd (ensureMigrationsDir Demo.config Demo.bare) in
  Fs.exists_ (fs Demo.bare) (migrationsDir Demo.config) = false /\
  Fs.is_dir (fs w') (migrationsDir Demo.config) = true /\
  file_at (fs w') (metadataFile Demo.config) = Some (Json {| migrations := [] |}) /\
  ensureMigrationsDir Demo.config w' = (Ok tt, w').
Proof.
  pose proof (ensureMigrationsDir_tests_the_directory_only Demo.config Demo.bare)
    as (_ & Hcreate & Hagain).
  split; [reflexivity|].
  destruct (Hcreate (snd (ensureMigrationsDir Demo.config Demo.bare))
              eq_refl eq_refl) as [Hdir Hidx].
  split; [exact Hdir|]. split; [exact Hidx|].
  exact (Hagain _ eq_refl).
Defined.

(** *** [createMigration] *)

Lemma exists_insert files p q n :
  Fs.exists_ files q = true -> Fs.exists_ (<[p := n]> files) q = true.
Proof.
  destruct q as [|a q]; [done|]. cbn.
  destruct (decide (p = a :: q)) as [->|Hne].
  - by rewrite lookup_insert_eq.
  - by rewrite lookup_insert_ne.
Qed.

Lemma ensureMigrationsDir_Ok this w w0 :
  ensureMigrationsDir this w = (Ok tt, w0) ->
  Fs.exists_ (fs w0) (migrationsDir this) = true /\
  (Fs.exists_ (fs w) (migrationsDir this) = true -> w0 = w) /\
  (Fs.exists_ (fs w) (migrationsDir this) = false -> stored this (fs w0) = []).
Proof.
  intros Hrun.
  destruct (Fs.exists_ (fs w) (migrationsDir this)) eqn:Hex.
  - rewrite (ensureMigrationsDir_skip _ _ Hex) in Hrun. injection Hrun as <-.
    by rewrite Hex.
  - destruct (ensureMigrationsDir_create _ _ _ Hex Hrun) as [Hdir Hidx].
    split; [by apply is_dir_exists|]. split; [done|].
    intros _. unfold stored. by rewrite Hidx.
Qed.

(** A run of [createMigration] that returns: the record it built, appended
    to the index left by [ensureMigrationsDir]. *)
Lemma createMigration_Ok this e type sql description w m w' :
  createMigration this e type sql description w = (Ok m, w') ->
  m = {| Migration.id := generateMigrationId e;
         Migration.name :=
           MigrationType_toString type +:+ "_" +:+ Js.toString (now_name e);
         Migration.timestamp := now_timestamp e;
         Migration.sql := sql;
         Migration.type := type;
         Migration.description := description;
         Migration.checksum := generateChecksum sql |} /\
  Fs.exists_ (fs w') (migrationsDir this) = true /\
  stored this (fs w') =
    stored this (fs (snd (ensureMigrationsDir this w))) ++ [m].
Proof.
  unfold createMigration. rewrite bind_run.
  destruct (ensureMigrationsDir this w) as [[[]|e0] w0] eqn:Hens; [|done].
  apply ensureMigrationsDir_Ok in Hens as (Hex & _ & _).
  cbn [snd]. rewrite bind_run. unfold toISOString. cbn [Migration.timestamp].
  destruct (JsDate.toISOString (now_timestamp e)) as [iso|]; [|done].
  unfold ret at 1. cbv beta iota. rewrite bind_run.
  match goal with |- context [Fs.writeFile ?p ?c w0] =>
    destruct (Fs.writeFile p c w0) as [[[]|e1] w1] eqn:Hw1; [|done];
    apply writeFile_Ok in Hw1 as [_ ->]; set (sqlp := p) end.
  rewrite bind_run.
  match goal with |- context [Fs.readFile ?p ?w2] =>
    destruct (readFile_cases p w2) as [(c & Hc & ->)|(e2 & _ & -> & _)];
      [|done] end.
  destruct c as [s|d]; rewrite bind_run; [done|].
  change (JSON_parse (Json d) ?w) with (Ok d, w). cbv beta iota.
  rewrite bind_run, (writeFile_over _ _ _ _ Hc). unfold ret.
  intros [= <- <-]. cbn [fs] in *.
  split; [done|]. split; [by do 2 apply exists_insert|].
  rewrite stored_insert_index by (by eapply file_at_not_nil).
  cbn [migrations]. f_equal.
  unfold stored.
  destruct (decide (sqlp = metadataFile this)) as [E|Hne].
  - assert (Hnil : sqlp <> []) by (rewrite E; by eapply file_at_not_nil).
    rewrite <- E in Hc. rewrite (file_at_insert_eq _ _ _ Hnil) in Hc. done.
  - rewrite file_at_insert_ne in Hc by done. by rewrite Hc.
Qed.

(** The timestamp line of a migration file. *)
Example toISOString_sample :
  JsDate.toISOString 1711017000000 = Some "2024-03-21T10:30:00.000Z".
Proof. vm_compute. reflexivity. Qed.

(** The test vector of FIPS 180-4 for the one-block message "abc". *)
Example Sha256_abc :
  Sha256.hex (Js.utf8 "abc")
  = "ba7816bf8f01cfea414140de5dae2223b00361a396177a9cb410ff61f20015ad".
Proof. vm_compute. reflexivity. Qed.

(** A message of two blocks. *)
Example Sha256_two_blocks :
  Sha256.hex
    (Js.utf8 "abcdbcdecdefdefgefghfghighijhijkijkljklmklmnlmnomnopnopq")
  = "248d6a61d20638b8e5c026930c3e6039a33ce45964ff2167f6ecedd419db06c1".
Proof. vm_compute. reflexivity. Qed.

(** C7. The record that [createMigration] returns holds the SQL text it
    was given, and its checksum is the SHA-256 digest, in hexadecimal, of
    the UTF-8 bytes of that text; the same record is the last of the index
    when the call returns, so every handler that creates and applies a
    migration records it with that checksum. *)
Theorem createMigration_checksum_is_sha256
    (this : MigrationConfig) (e : Entropy) (type : MigrationType)
    (sql : string) (description : option string) (w w' : World)
    (m : Migration.t) :
  createMigration this e type sql description w = (Ok m, w') ->
  Migration.sql m = sql /\
  Migration.checksum m = Sha256.hex (Js.utf8 (Migration.sql m)) /\
  last (stored this (fs w')) = Some m.
Proof.
  intros (-> & _ & ->)%createMigration_Ok.
  split; [done|]. split; [done|]. by rewrite last_snoc.
Qed.

Lemma createMigration_checksum_is_sha256_witness :
  let r :=
    createMigration Demo.config
      (Demo.entropy_at 1711017000000 (xff, xff, xff, xff)) table
      "CREATE TABLE tasks (id SERIAL PRIMARY KEY)" None Demo.bare in
  exists m,
    fst r = Ok m /\
    Migration.checksum m
    = "a6b40f400ac1f33fc5296d2d6c539740d455878dae349e2f1606ff6af9f31c3c".
Proof.
  eexists. split; [reflexivity|].
  etransitivity.
  - exact (proj1 (proj2
      (createMigration_checksum_is_sha256 Demo.config
         (Demo.entropy_at 1711017000000 (xff, xff, xff, xff)) table
         "CREATE TABLE tasks (id SERIAL PRIMARY KEY)" None Demo.bare _ _
         eq_refl))).
  - vm_compute. reflexivity.
Defined.

(** Applying a migration sends statements and leaves the files alone. *)
Lemma applyMigration_fs client migration w :
  fs (snd (applyMigration client migration w)) = fs w.
Proof.
  unfold applyMigration, try_catch. rewrite bind_run, query_run.
  destruct (client (trace w) "BEGIN"); [by rewrite rollback_run|].
  rewrite bind_run, query_run. cbn [trace fs].
  destruct (client _ (Migration.sql migration)); [by rewrite rollback_run|].
  rewrite query_run. cbn [trace fs].
  destruct (client _ "COMMIT"); [by rewrite rollback_run|done].
Qed.

(** The handler "createTable" records the SQL of the builder with its
    SHA-256 checksum, whether or not the statement is then accepted. *)
Lemma createTable_records_checksum this db e args w m w1 :
  createMigration this e table (SchemaService.createTable args)
    (Some ("Create table " +:+ CreateTableParams.tableName args)) w = (Ok m, w1) ->
  let w' := snd (Server.createTable this db e args w) in
  last (stored this (fs w')) = Some m /\
  Migration.sql m = SchemaService.createTable args /\
  Migration.checksum m = Sha256.hex (Js.utf8 (SchemaService.createTable args)).
Proof.
  intros Hm w'. subst w'. unfold Server.createTable.
  rewrite bind_run, Hm, bind_run. unfold Server.getClient, lift.
  apply createMigration_Ok in Hm as (-> & _ & Hst).
  destruct (getClient_result db) as [client|err]; cbn [snd].
  - unfold try_finally. rewrite bind_run.
    pose proof (applyMigration_fs client
      {| Migration.id := generateMigrationId e;
         Migration.name := "table" +:+ "_" +:+ Js.toString (now_name e);
         Migration.timestamp := now_timestamp e;
         Migration.sql := SchemaService.createTable args;
         Migration.type := table;
         Migration.description :=
           Some ("Create table " +:+ CreateTableParams.tableName args);
         Migration.checksum := generateChecksum (SchemaService.createTable args) |}
      w1) as Hfs.
    destruct (applyMigration client _ w1) as [[[]|err] w2]; cbn [snd] in Hfs;
      cbn [release emit ret snd fs]; rewrite Hfs, Hst, last_snoc; done.
  - by rewrite Hst, last_snoc.
Qed.

(** *** Decimal rendering and the order of ids *)

Lemma digits_le_value fuel : forall n,
  (n < 10 ^ N.of_nat fuel)%N -> value_le (Js.digits_le fuel n) = n.
Proof.
  induction fuel as [|fuel IH]; intros n Hn.
  - cbn in *. lia.
  - cbn [Js.digits_le value_le].
    rewrite Nat2N.inj_succ, N.pow_succ_r' in Hn.
    destruct (N.eqb_spec (n / 10) 0) as [E|E].
    + cbn. pose proof (N.div_mod n 10 ltac:(lia)). lia.
    + rewrite IH.
      * pose proof (N.div_mod n 10 ltac:(lia)). lia.
      * apply N.Div0.div_lt_upper_bound. lia.
Qed.

Lemma digits_le_small fuel : forall n,
  Forall (fun d => (d < 10)%N) (Js.digits_le fuel n).
Proof.
  induction fuel as [|fuel IH]; intros n; cbn; [constructor|].
  constructor; [apply N.mod_lt; lia|].
  destruct (N.eqb (n / 10) 0); [constructor|apply IH].
Qed.

Lemma enough_fuel n : (n < 10 ^ N.of_nat (S (N.to_nat (N.log2 n))))%N.
Proof.
  rewrite Nat2N.inj_succ, N2Nat.id.
  destruct (N.eq_dec n 0%N) as [->|Hn]; [cbn; lia|].
  pose proof (N.log2_spec n ltac:(lia)) as [_ Hlt].
  eapply N.lt_le_trans; [exact Hlt|].
  apply N.pow_le_mono_l. lia.
Qed.

Lemma value_le_snoc l d :
  value_le (l ++ [d]) = (value_le l + d * 10 ^ N.of_nat (length l))%N.
Proof.
  induction l as [|x l IH]; cbn [app value_le length].
  - cbn. lia.
  - rewrite IH, Nat2N.inj_succ, N.pow_succ_r'. lia.
Qed.

Lemma value_le_bound l :
  Forall (fun d => (d < 10)%N) l -> (value_le l < 10 ^ N.of_nat (length l))%N.
Proof.
  induction 1 as [|d l Hd _ IH]; cbn [value_le length]; [cbn; lia|].
  rewrite Nat2N.inj_succ, N.pow_succ_r'. lia.
Qed.

Lemma compare_digit_char d1 d2 :
  (d1 < 10)%N -> (d2 < 10)%N ->
  Ascii.compare (Js.digit_char d1) (Js.digit_char d2) = (d1 ?= d2)%N.
Proof.
  intros H1 H2. unfold Ascii.compare, Js.digit_char.
  rewrite !N_ascii_embedding by lia.
  destruct (N.compare_spec d1 d2) as [E|E|E].
  - subst. apply N.compare_refl.
  - apply N.compare_lt_iff. lia.
  - apply N.compare_gt_iff. lia.
Qed.

Lemma length_string_of_digits ds :
  String.length (Js.string_of_digits ds) = length ds.
Proof.
  unfold Js.string_of_digits. induction ds as [|d ds IH]; cbn; congruence.
Qed.

(** Among numerals of the same length, the numeric order is the
    lexicographic order. *)
Lemma compare_numerals a : forall b,
  length a = length b ->
  Forall (fun d => (d < 10)%N) a -> Forall (fun d => (d < 10)%N) b ->
  (value_le (rev a) < value_le (rev b))%N ->
  String.compare (Js.string_of_digits a) (Js.string_of_digits b) = Lt.
Proof.
  induction a as [|d1 a IH]; intros [|d2 b] Hlen Ha Hb Hlt; try discriminate.
  injection Hlen as Hlen.
  inversion Ha as [|? ? Hd1 Ha']; inversion Hb as [|? ? Hd2 Hb']; subst.
  cbn [rev] in Hlt. rewrite !value_le_snoc, !length_rev in Hlt.
  pose proof (value_le_bound (rev a) ltac:(by apply Forall_rev)) as Ba.
  pose proof (value_le_bound (rev b) ltac:(by apply Forall_rev)) as Bb.
  rewrite !length_rev in *. rewrite <- Hlen in *.
  set (k := (10 ^ N.of_nat (length a))%N) in *.
  unfold Js.string_of_digits. cbn [map string_of_list_ascii String.compare].
  rewrite compare_digit_char by done.
  destruct (N.compare_spec d1 d2) as [E|E|E]; [|done|].
  - subst. apply IH; try done. lia.
  - exfalso.
    assert ((d2 + 1) * k <= d1 * k)%N by (apply N.mul_le_mono_r; lia).
    lia.
Qed.

Lemma compare_app_Lt a : forall b x y,
  String.length a = String.length b ->
  String.compare a b = Lt -> String.compare (a +:+ x) (b +:+ y) = Lt.
Proof.
  induction a as [|c a IH]; intros [|c' b] x y Hlen Hlt; try discriminate.
  injection Hlen as Hlen.
  change (String.compare (String c (a +:+ x)) (String c' (b +:+ y)) = Lt).
  cbn [String.compare] in *.
  destruct (Ascii.compare c c'); [by apply IH|done|done].
Qed.

Lemma N_toString_compare n1 n2 :
  (n1 < n2)%N ->
  String.length (Js.N_toString n1) = String.length (Js.N_toString n2) ->
  String.compare (Js.N_toString n1) (Js.N_toString n2) = Lt.
Proof.
  intros Hlt Hlen. unfold Js.N_toString in *.
  rewrite !length_string_of_digits in Hlen.
  apply compare_numerals; try done.
  - apply Forall_rev, digits_le_small.
  - apply Forall_rev, digits_le_small.
  - rewrite !rev_involutive, !digits_le_value by apply enough_fuel. done.
Qed.

Lemma toString_nonneg z : (0 <= z)%Z -> Js.toString z = Js.N_toString (Z.to_N z).
Proof. by destruct z. Qed.

(** The id of the earlier of two readings of the same printed length is
    the smaller string. *)
Lemma generateMigrationId_lt e1 e2 :
  ticks_before e1 e2 ->
  Js.lt (generateMigrationId e1) (generateMigrationId e2) = true.
Proof.
  intros [[H0 Hlt] Hlen]. unfold Js.lt, String.ltb, generateMigrationId.
  destruct (random4 e1) as [[[a0 a1] a2] a3].
  destruct (random4 e2) as [[[b0 b1] b2] b3].
  rewrite compare_app_Lt; [done|done|].
  rewrite !toString_nonneg in * by lia.
  apply N_toString_compare; [lia|done].
Qed.

(** *** Sequences of [createMigration] calls *)

Lemma createAll_cons_Ok this c rest w created w' :
  createAll this (c :: rest) w = (Ok created, w') ->
  exists m ms w1,
    createMigration this (entropy c) (kind c) (sqlText c) (note c) w = (Ok m, w1) /\
    createAll this rest w1 = (Ok ms, w') /\
    created = m :: ms.
Proof.
  cbn [createAll]. rewrite bind_run.
  destruct (createMigration _ _ _ _ _ w) as [[m|e] w1]; [|done].
  rewrite bind_run.
  destruct (createAll this rest w1) as [[ms|e] w2] eqn:Hrest; [|done].
  unfold ret. intros [= <- <-]. exists m, ms, w1. by rewrite Hrest.
Qed.

Lemma createAll_initialized this calls : forall w created w',
  Fs.exists_ (fs w) (migrationsDir this) = true ->
  createAll this calls w = (Ok created, w') ->
  stored this (fs w') = stored this (fs w) ++ created /\
  map Migration.id created = map (fun c => generateMigrationId (entropy c)) calls.
Proof.
  induction calls as [|c rest IH]; intros w created w' Hex Hrun.
  - injection Hrun as <- <-. by rewrite app_nil_r.
  - apply createAll_cons_Ok in Hrun as (m & ms & w1 & Hm & Hrest & ->).
    pose proof Hm as (Em & Hex1 & Hst)%createMigration_Ok.
    rewrite (ensureMigrationsDir_skip _ _ Hex) in Hst. cbn [snd] in Hst.
    destruct (IH _ _ _ Hex1 Hrest) as [Hst' Hids].
    split.
    + by rewrite Hst', Hst, <- app_assoc.
    + cbn [map]. rewrite Hids. by rewrite Em.
Qed.

Lemma created_after e : forall calls created,
  map Migration.id created = map (fun c => generateMigrationId (entropy c)) calls ->
  Forall (ticks_before e) (map entropy calls) ->
  Forall (fun m => Js.lt (generateMigrationId e) (Migration.id m) = true) created.
Proof.
  induction calls as [|c rest IH]; intros [|m ms] Hids Hall; try discriminate.
  - constructor.
  - injection Hids as Hid Hids. inversion Hall as [|? ? Hc Hrest]; subst.
    constructor; [|by apply IH].
    rewrite Hid. by apply generateMigrationId_lt.
Qed.

Lemma created_ids_sorted : forall calls created,
  map Migration.id created = map (fun c => generateMigrationId (entropy c)) calls ->
  StronglySorted ticks_before (map entropy calls) ->
  StronglySorted (fun a b => Js.lt (Migration.id a) (Migration.id b) = true) created.
Proof.
  induction calls as [|c rest IH]; intros [|m ms] Hids Hsorted; try discriminate.
  - constructor.
  - injection Hids as Hid Hids. inversion Hsorted as [|? ? Hrest Hc]; subst.
    constructor; [by apply IH|].
    rewrite Hid. by eapply created_after.
Qed.

(** C8, as stated, fails: two records created within the same millisecond
    are listed in creation order, and the id of the second is the smaller
    string. *)
Lemma listMigrations_same_millisecond :
  let calls :=
    [ Demo.call 1711017000000 (xff, xff, xff, xff) "CREATE TABLE a (id INT)";
      Demo.call 1711017000000 (x00, x00, x00, x01) "CREATE TABLE b (id INT)" ] in
  let first := Demo.record "1711017000000_ffffffff" "CREATE TABLE a (id INT)" table in
  let second := Demo.record "1711017000000_00000001" "CREATE TABLE b (id INT)" table in
  let run := createAll Demo.config calls Demo.bare in
  fst run = Ok [first; second] /\
  fst (Server.listMigrations Demo.config (snd run))
    = Ok (MigrationList [first; second]) /\
  Js.lt (Migration.id first) (Migration.id second) = false /\
  Js.lt (Migration.id second) (Migration.id first) = true.
Proof. vm_compute. repeat split. Qed.

(** C8, amended. After a sequence of [createMigration] calls that all
    return, "listMigrations" answers the records of the calls in the order
    of the calls, after the records the index held before (the index as
    [ensureMigrationsDir] left it at the first call); the id of each record
    is the one generated from the readings of its call; and these ids are
    in strictly increasing order of strings whenever the clock readings of
    the calls are non-negative, strictly increasing and printed with the
    same number of digits. *)
Theorem listMigrations_in_creation_order
    (this : MigrationConfig) (calls : list Call) (w w' : World)
    (created : list Migration.t) :
  createAll this calls w = (Ok created, w') ->
  (exists base,
     Server.listMigrations this w' = (Ok (MigrationList (base ++ created)), w') /\
     (Fs.exists_ (fs w) (migrationsDir this) = true -> base = stored this (fs w)) /\
     (Fs.exists_ (fs w) (migrationsDir this) = false -> calls <> [] -> base = [])) /\
  map Migration.id created = map (fun c => generateMigrationId (entropy c)) calls /\
  (StronglySorted ticks_before (map entropy calls) ->
   StronglySorted (fun a b => Js.lt (Migration.id a) (Migration.id b) = true)
     created).
Proof.
  intros Hrun.
  assert (Hlist : forall l, stored this (fs w') = l ->
            Server.listMigrations this w' = (Ok (MigrationList l), w')).
  { intros l <-. unfold Server.listMigrations.
    by rewrite bind_run, getMigrations_stored. }
  assert (Hmain :
    (exists base, stored this (fs w') = base ++ created /\
       (Fs.exists_ (fs w) (migrationsDir this) = true -> base = stored this (fs w)) /\
       (Fs.exists_ (fs w) (migrationsDir this) = false -> calls <> [] -> base = [])) /\
    map Migration.id created = map (fun c => generateMigrationId (entropy c)) calls).
  { destruct calls as [|c rest].
    - injection Hrun as <- <-. split; [|done].
      exists (stored this (fs w)). by rewrite app_nil_r.
    - apply createAll_cons_Ok in Hrun as (m & ms & w1 & Hm & Hrest & ->).
      pose proof Hm as (Em & Hex1 & Hst)%createMigration_Ok.
      destruct (createAll_initialized _ _ _ _ _ Hex1 Hrest) as [Hst' Hids].
      split.
      + exists (stored this (fs (snd (ensureMigrationsDir this w)))).
        split; [by rewrite Hst', Hst, <- app_assoc|].
        unfold createMigration in Hm. rewrite bind_run in Hm.
        destruct (ensureMigrationsDir this w) as [[[]|e0] w0] eqn:Hens; [|done].
        apply ensureMigrationsDir_Ok in Hens as (_ & Hsame & Hfresh).
        cbn [snd]. split.
        * intros Hex. by rewrite (Hsame Hex).
        * intros Hex _. by apply Hfresh.
      + cbn [map]. rewrite Hids. by rewrite Em. }
  destruct Hmain as [(base & Hst & Hb1 & Hb2) Hids].
  split; [exists base; split; [by apply Hlist|done]|].
  split; [done|]. by apply created_ids_sorted.
Qed.

Lemma listMigrations_in_creation_order_witness :
  let calls :=
    [ Demo.call 1711017000000 (xff, xff, xff, xff) "CREATE TABLE a (id INT)";
      Demo.call 1711017000001 (x00, x00, x00, x01) "CREATE TABLE b (id INT)" ] in
  let first := Demo.record "1711017000000_ffffffff" "CREATE TABLE a (id INT)" table in
  let second :=
    Migration.mk "1711017000001_00000001" "table_1711017000001" 1711017000001
      "CREATE TABLE b (id INT)" table None
      (generateChecksum "CREATE TABLE b (id INT)") in
  StronglySorted ticks_before (map entropy calls) /\
  StronglySorted (fun a b => Js.lt (Migration.id a) (Migration.id b) = true)
    [first; second].
Proof.
  intros calls first second.
  assert (Hticks : StronglySorted ticks_before (map entropy calls)).
  { repeat constructor; cbn; try lia. }
  split; [exact Hticks|].
  exact (proj2 (proj2
    (listMigrations_in_creation_order Demo.config calls Demo.bare
       (snd (createAll Demo.config calls Demo.bare)) [first; second] eq_refl))
    Hticks).
Defined.

(** *** The revert handler *)

(** [removeMigration] only adds to the trace. *)
Lemma removeMigration_trace this migrationId w :
  exists evs, trace (snd (removeMigration this migrationId w)) = trace w ++ evs.
Proof.
  destruct (removeMigration_cases this migrationId w)
    as [(e & -> & _)|(_ & ->)].
  { exists []. by rewrite app_nil_r. }
  match goal with |- context [Fs.unlink ?p ?w1] =>
    destruct (unlink_cases p w1) as [(c & _ & ->)|(e & _ & -> & _)] end;
    cbn [snd trace]; rewrite <- ?app_assoc; eauto.
Qed.

(** Every run of the handler either leaves the store as it was, with no
    store effect in its trace, or starts with the accepted transaction of
    the revert SQL and then runs [removeMigration]. *)
Lemma revertMigration_shapes (this : MigrationConfig) (db : DatabaseService)
    (migrationId : option string) (w : World) :
  let run := Server.revertMigration this db migrationId w in
    exists evs, trace (snd run) = trace w ++ evs /\
      ((fs (snd run) = fs w /\ Forall (fun e => store_event e = false) evs)
       \/ exists target revertSql rest,
            Server.targetMigration migrationId (stored this (fs w)) = Some target /\
            generateRevertSql target = Ok revertSql /\
            evs = transaction revertSql ++ rest /\
            fs (snd run) =
              fs (snd (removeMigration this (Migration.id target)
                         {| fs := fs w;
                            trace := trace w ++ transaction revertSql |}))).
  Proof.
    intros run. subst run. unfold Server.revertMigration.
    rewrite bind_run, getMigrations_stored. cbv beta iota.
    destruct (Nat.eqb (length (stored this (fs w))) 0).
    { exists []. rewrite app_nil_r. split; [done|]. left. by split. }
    destruct (Server.targetMigration migrationId (stored this (fs w)))
      as [target|] eqn:Htarget.
    2: { exists []. rewrite app_nil_r. split; [done|]. left. by split. }
    rewrite bind_run. unfold Server.getClient, lift.
    destruct (getClient_result db) as [client|e].
    2: { exists []. rewrite app_nil_r. split; [done|]. left. by split. }
    unfold try_finally, try_catch. rewrite bind_run.
    destruct (generateRevertSql target) as [revertSql|e] eqn:Hsql.
    2: { rewrite rollback_run. cbn [release emit fs trace snd].
         eexists. split; [by rewrite <- !app_assoc|].
         left. split; [done|]. by repeat constructor. }
    rewrite bind_run, query_run.
    destruct (client (trace w) "BEGIN") as [e|] eqn:Hbegin.
    { rewrite rollback_run. cbn [release emit fs trace snd].
      eexists. split; [by rewrite <- !app_assoc|].
      left. split; [done|]. by repeat constructor. }
    rewrite bind_run, query_run. cbn [trace fs].
    destruct (client (trace w ++ [EvQuery "BEGIN" None]) revertSql)
      as [e|] eqn:Hrevert.
    { rewrite rollback_run. cbn [release emit fs trace snd].
      eexists. split; [by rewrite <- !app_assoc|].
      left. split; [done|]. by repeat constructor. }
    rewrite bind_run, query_run. cbn [trace fs].
    destruct (client _ "COMMIT") as [e|] eqn:Hcommit.
    { rewrite rollback_run. cbn [release emit fs trace snd].
      eexists. split; [by rewrite <- !app_assoc|].
      left. split; [done|]. by repeat constructor. }
    rewrite bind_run. rewrite <- !app_assoc. cbn [app].
    change [EvQuery "BEGIN" None; EvQuery revertSql None; EvQuery "COMMIT" None]
      with (transaction revertSql).
    set (w1 := {| fs := fs w; trace := trace w ++ transaction revertSql |}).
    destruct (removeMigration_trace this (Migration.id target) w1) as [evs Hevs].
    destruct (removeMigration this (Migration.id target) w1) as [[[]|e] w2]
      eqn:Hrm; cbn [snd] in Hevs; unfold w1 in Hevs; cbn [trace] in Hevs.
    - cbn [ret release emit fs trace snd]. rewrite Hevs, <- !app_assoc.
      eexists. split; [done|]. right.
      exists target, revertSql, (evs ++ [EvRelease]).
      repeat (split; [done|]).
      change (fs w2 = fs (snd (removeMigration this (Migration.id target) w1))).
      by rewrite Hrm.
    - rewrite rollback_run. cbn [release emit fs trace snd].
      rewrite Hevs, <- !app_assoc.
      eexists. split; [done|]. right.
      eexists target, revertSql, _.
      repeat (split; [done|]).
      change (fs w2 = fs (snd (removeMigration this (Migration.id target) w1))).
      by rewrite Hrm.
  Qed.

Lemma targetMigration_nonempty migrationId migrations target :
  Server.targetMigration migrationId migrations = Some target ->
  Nat.eqb (length migrations) 0 = false.
Proof.
  unfold Server.targetMigration. destruct migrations; [|done].
  by destruct (Js.truthy migrationId).
Qed.

(** When the server rejects the revert SQL: ROLLBACK is sent, the
    connection is released, nothing of the store changes, and the handler
    throws the error of the revert SQL, or the error of ROLLBACK should the
    server reject that too. *)
Lemma revertMigration_rejected (this : MigrationConfig) (db : DatabaseService)
    (migrationId : option string) (w : World) client target revertSql err :
  getClient_result db = Ok client ->
  Server.targetMigration migrationId (stored this (fs w)) = Some target ->
  generateRevertSql target = Ok revertSql ->
  client (trace w) "BEGIN" = None ->
  client (trace w ++ [EvQuery "BEGIN" None]) revertSql = Some err ->
  let rollback :=
    client (trace w ++ [EvQuery "BEGIN" None; EvQuery revertSql (Some err)])
      "ROLLBACK" in
  Server.revertMigration this db migrationId w =
    (Throw (match rollback with None => err | Some e' => e' end),
     {| fs := fs w;
        trace := trace w ++ [EvQuery "BEGIN" None; EvQuery revertSql (Some err);
                             EvQuery "ROLLBACK" rollback; EvRelease] |}).
Proof.
  intros Hclient Htarget Hsql Hbegin Hrevert rollback. subst rollback.
  unfold Server.revertMigration.
  rewrite bind_run, getMigrations_stored. cbv beta iota.
  rewrite (targetMigration_nonempty _ _ _ Htarget), Htarget.
  rewrite bind_run. unfold Server.getClient, lift. rewrite Hclient.
  unfold try_finally, try_catch. rewrite bind_run, Hsql.
  rewrite bind_run, query_run, Hbegin.
  rewrite bind_run, query_run. cbn [trace fs]. rewrite Hrevert.
  rewrite rollback_run. cbn [release emit fs trace].
  by rewrite <- !app_assoc.
Qed.

(** A store effect in a trace that starts with a transaction comes after
    the three statements of the transaction. *)
Lemma store_event_after_transaction sql rest pre e post :
  transaction sql ++ rest = pre ++ e :: post ->
  store_event e = true ->
  exists pre', pre = transaction sql ++ pre'.
Proof.
  unfold transaction. intros Heq He.
  destruct pre as [|a [|b [|c pre']]]; cbn in Heq.
  1-3: injection Heq as; subst; discriminate.
  injection Heq as <- <- <- _. by exists pre'.
Qed.

(** C9, as stated, fails: when the server rejects the revert SQL and then
    ROLLBACK too, the error the handler throws is that of ROLLBACK, not
    that of the revert SQL, which is lost; the store is unchanged. *)
Lemma revertMigration_rollback_error_replaces :
  let locked := PgError "relation tasks is locked" in
  let gone := PgError "connection terminated" in
  let client : PoolClient :=
    fun _ statement =>
      if String.eqb statement "DROP TABLE IF EXISTS tasks" then Some locked
      else if String.eqb statement "ROLLBACK" then Some gone
      else None in
  let w := Demo.store [Demo.tasks] [Migration.id Demo.tasks] in
  let run := Server.revertMigration Demo.config (Demo.database client) None w in
  generateRevertSql Demo.tasks = Ok "DROP TABLE IF EXISTS tasks" /\
  trace (snd run) =
    [EvQuery "BEGIN" None;
     EvQuery "DROP TABLE IF EXISTS tasks" (Some locked);
     EvQuery "ROLLBACK" (Some gone);
     EvRelease] /\
  fs (snd run) = fs w /\
  fst run = Throw gone /\
  fst run <> Throw locked.
Proof.
  intros locked gone client w run. split; [reflexivity|].
  subst run.
  rewrite (revertMigration_rejected Demo.config (Demo.database client) None w
             client Demo.tasks "DROP TABLE IF EXISTS tasks" locked)
    by reflexivity.
  cbn [fst snd fs trace].
  change (client _ "ROLLBACK") with (Some gone).
  split; [reflexivity|]. split; [reflexivity|]. split; [reflexivity|].
  discriminate.
Qed.

(** C9, amended. In every run of the revert handler a change of the store comes
    only after BEGIN, the synthesized revert SQL of the target and COMMIT
    have been accepted, in that order: every store effect in the trace of
    the run is preceded by that accepted transaction, and a run that leaves
    the files changed has it. Whenever the server rejects the revert SQL,
    ROLLBACK is sent, the connection released, the store (index and SQL
    files) left unchanged, and the handler throws the error of the revert
    SQL (the error of ROLLBACK, should the server reject ROLLBACK too). *)
Theorem revertMigration_removes_only_after_commit
    (this : MigrationConfig) (db : DatabaseService)
    (migrationId : option string) (w : World) :
  let run := Server.revertMigration this db migrationId w in
  let committed evs :=
    exists target revertSql rest,
      Server.targetMigration migrationId (stored this (fs w)) = Some target /\
      generateRevertSql target = Ok revertSql /\
      evs = transaction revertSql ++ rest in
  (exists evs,
     trace (snd run) = trace w ++ evs /\
     (forall pre e post,
        evs = pre ++ e :: post -> store_event e = true -> committed pre) /\
     (fs (snd run) <> fs w -> committed evs)) /\
  (forall client target revertSql err,
     getClient_result db = Ok client ->
     Server.targetMigration migrationId (stored this (fs w)) = Some target ->
     generateRevertSql target = Ok revertSql ->
     client (trace w) "BEGIN" = None ->
     client (trace w ++ [EvQuery "BEGIN" None]) revertSql = Some err ->
     let rollback :=
       client (trace w ++ [EvQuery "BEGIN" None; EvQuery revertSql (Some err)])
         "ROLLBACK" in
     fs (snd run) = fs w /\
     trace (snd run) =
       trace w ++ [EvQuery "BEGIN" None; EvQuery revertSql (Some err);
                   EvQuery "ROLLBACK" rollback; EvRelease] /\
     fst run = Throw (match rollback with None => err | Some e' => e' end) /\
     (rollback = None -> fst run = Throw err)).
Proof.
  intros run committed. split.
  - destruct (revertMigration_shapes this db migrationId w)
      as (evs & Htrace & Hshape).
    exists evs. split; [exact Htrace|].
    destruct Hshape as [[Hfs Hquiet]|(target & revertSql & rest & Ht & Hs & -> & _)].
    + split; [|done]. intros pre e post -> He.
      apply Forall_app in Hquiet as [_ Hquiet].
      inversion Hquiet as [|? ? He' _]; subst. congruence.
    + split.
      * intros pre e post Heq He.
        destruct (store_event_after_transaction _ _ _ _ _ Heq He) as [pre' ->].
        by exists target, revertSql, pre'.
      * intros _. by exists target, revertSql, rest.
  - intros client target revertSql err Hclient Htarget Hsql Hbegin Hrevert rollback.
    subst run.
    rewrite (revertMigration_rejected this db migrationId w client target
               revertSql err Hclient Htarget Hsql Hbegin Hrevert).
    cbn [fst snd fs trace]. fold rollback.
    repeat (split; [done|]). by intros ->.
Qed.

Lemma revertMigration_removes_only_after_commit_witness :
  let busy := PgError "cannot drop table tasks" in
  let db := Demo.database (rejecting "DROP TABLE IF EXISTS tasks" busy) in
  let w := Demo.store [Demo.tasks] [Migration.id Demo.tasks] in
  let run := Server.revertMigration Demo.config db None w in
  generateRevertSql Demo.tasks = Ok "DROP TABLE IF EXISTS tasks" /\
  fs (snd run) = fs w /\
  fst run = Throw busy.
Proof.
  intros busy db w run. split; [reflexivity|].
  destruct (proj2 (revertMigration_removes_only_after_commit
                     Demo.config db None w)
              (rejecting "DROP TABLE IF EXISTS tasks" busy) Demo.tasks
              "DROP TABLE IF EXISTS tasks" busy
              eq_refl eq_refl eq_refl eq_refl eq_refl)
    as (Hfs & _ & _ & Hthrow).
  split; [exact Hfs|]. exact (Hthrow eq_refl).
Defined.

(** A revert that goes through: the transaction, then the index rewritten
    and the SQL file unlinked, then the release. *)
Example revertMigration_accepted :
  let w := Demo.store [Demo.tasks] [Migration.id Demo.tasks] in
  let run := Server.revertMigration Demo.config (Demo.database accepting) None w in
  fst run = Ok (MigrationReverted Demo.tasks "DROP TABLE IF EXISTS tasks") /\
  trace (snd run) =
    transaction "DROP TABLE IF EXISTS tasks"
    ++ [EvWriteFile (metadataFile Demo.config) (Json {| migrations := [] |});
        EvUnlink (sqlFile Demo.config (Migration.id Demo.tasks));
        EvRelease] /\
  stored Demo.config (fs (snd run)) = [] /\
  file_at (fs (snd run)) (sqlFile Demo.config (Migration.id Demo.tasks)) = None.
Proof. vm_compute. repeat split. Qed.

(** *** The loop of "applyMigrations" *)

Lemma applyMigration_accepting migration w :
  applyMigration accepting migration w =
    (Ok tt, {| fs := fs w;
               trace := trace w ++ transaction (Migration.sql migration) |}).
Proof.
  unfold applyMigration, try_catch, bind, query, accepting, transaction.
  cbn [fs trace]. by rewrite <- !app_assoc.
Qed.

(** With a server that accepts everything the loop runs one transaction per
    pending record, in the order of the index. *)
Lemma applyLoop_accepting fromId migrations : forall shouldApply w,
  Server.applyLoop accepting fromId shouldApply migrations w =
    (Ok tt,
     {| fs := fs w;
        trace := trace w
                 ++ concat (map (fun m => transaction (Migration.sql m))
                              (pending fromId shouldApply migrations)) |}).
Proof.
  induction migrations as [|m rest IH]; intros shouldApply w.
  - cbn. rewrite app_nil_r. by destruct w.
  - cbn [Server.applyLoop pending].
    destruct (Server.id_is m fromId); [apply IH|].
    rewrite bind_run. destruct shouldApply.
    + rewrite applyMigration_accepting, IH. cbn [fs trace map concat].
      by rewrite <- !app_assoc.
    + unfold ret. apply IH.
Qed.

Lemma id_is_Some m i :
  Server.id_is m (Some i) = true <-> Migration.id m = i.
Proof. unfold Server.id_is, Js.strict_eq. apply String.eqb_eq. Qed.

Lemma pending_none_matching i : forall migrations,
  Forall (fun m => Migration.id m <> i) migrations ->
  pending (Some i) true migrations = migrations /\
  pending (Some i) false migrations = [].
Proof.
  induction 1 as [|m rest Hm _ [IH1 IH2]]; [done|].
  cbn [pending].
  destruct (Server.id_is m (Some i)) eqn:E.
  - by apply id_is_Some in E.
  - by rewrite IH1, IH2.
Qed.

(** What the handler applies: for a [fromId] that is the id of exactly one
    record, the records strictly after that record; the record itself is
    not applied. *)
Lemma pending_from_is_strictly_after i before m after :
  Migration.id m = i ->
  Forall (fun x => Migration.id x <> i) before ->
  Forall (fun x => Migration.id x <> i) after ->
  pending (Some i) false (before ++ m :: after) = after.
Proof.
  intros Hm Hbefore Hafter.
  induction Hbefore as [|x before Hx _ IH]; cbn [app pending].
  - apply id_is_Some in Hm. rewrite Hm.
    by apply pending_none_matching.
  - destruct (Server.id_is x (Some i)) eqn:E; [|done].
    by apply id_is_Some in E.
Qed.

(** The handler with a server that accepts everything: one transaction per
    pending record, then the release. *)
Lemma applyMigrations_accepting this fromId w :
  Server.applyMigrations this {| getClient_result := Ok accepting |} fromId w =
    (Ok MigrationsApplied,
     {| fs := fs w;
        trace := trace w
                 ++ concat (map (fun m => transaction (Migration.sql m))
                              (pending fromId (negb (Js.truthy fromId))
                                 (stored this (fs w))))
                 ++ [EvRelease] |}).
Proof.
  unfold Server.applyMigrations.
  rewrite bind_run, getMigrations_stored. cbv beta iota.
  rewrite bind_run. unfold Server.getClient, lift. cbn [getClient_result].
  unfold try_finally. rewrite bind_run, applyLoop_accepting.
  unfold ret, release, emit. cbn [fs trace]. by rewrite <- app_assoc.
Qed.

(** C1, at the failing input. With three records in the index and
    [fromId] the id of the second, the handler applies the third record
    alone: the record whose id is [fromId] switches the loop on and is then
    skipped by the [continue], where the claim has it applied first. *)
Theorem applyMigrations_skips_the_record_of_fromId :
  let w := Demo.store [Demo.tasks; Demo.users; Demo.idx] [] in
  let run :=
    Server.applyMigrations Demo.config (Demo.database accepting)
      (Some (Migration.id Demo.users)) w in
  fst run = Ok MigrationsApplied /\
  pending (Some (Migration.id Demo.users)) false
    [Demo.tasks; Demo.users; Demo.idx] = [Demo.idx] /\
  trace (snd run) = transaction (Migration.sql Demo.idx) ++ [EvRelease] /\
  trace (snd run) <>
    transaction (Migration.sql Demo.users)
    ++ transaction (Migration.sql Demo.idx) ++ [EvRelease].
Proof. vm_compute. repeat split. discriminate. Qed.

(** *** Revert synthesis *)

Lemma split_field sep a b :
  contains sep a = false ->
  Js.split sep (a +:+ String sep b) = a :: Js.split sep b.
Proof.
  induction a as [|c a IH].
  - intros _. change (Js.split sep (String sep b) = "" :: Js.split sep b).
    cbn. by rewrite Ascii.eqb_refl.
  - cbn [contains]. destruct (Ascii.eqb c sep) eqn:E; [done|]. cbn. intros H.
    change (Js.split sep (String c (a +:+ String sep b))
            = String c a :: Js.split sep b).
    cbn. by rewrite E, IH.
Qed.

(** The third piece of a statement whose first three pieces are separated
    by single spaces. *)
Lemma split_third k1 k2 name rest :
  contains " " k1 = false -> contains " " k2 = false ->
  contains " " name = false ->
  Js.split " " (k1 +:+ String " " (k2 +:+ String " " (name +:+ String " " rest)))
    !! 2%nat = Some name.
Proof. intros H1 H2 H3. by rewrite !split_field. Qed.

(** On the SQL of the builder the table branch finds the table name,
    whenever that name holds no space. *)
Lemma generateRevertSql_of_createTable params id name timestamp description checksum :
  contains " " (CreateTableParams.tableName params) = false ->
  generateRevertSql
    (Migration.mk id name timestamp (SchemaService.createTable params) table
       description checksum)
  = Ok ("DROP TABLE IF EXISTS " +:+ CreateTableParams.tableName params).
Proof.
  intros Hname. unfold generateRevertSql, SchemaService.createTable.
  cbn [Migration.type Migration.sql].
  match goal with |- context [Js.split " " ("CREATE TABLE " +:+ ?n +:+ " (" +:+ ?r)] =>
    change ("CREATE TABLE " +:+ n +:+ " (" +:+ r)
      with ("CREATE" +:+ String " " ("TABLE" +:+ String " " (n +:+ String " " ("(" +:+ r))))
  end.
  by rewrite split_third.
Qed.

(** The branches that match a pattern answer the empty string when the
    pattern does not match. *)
Lemma generateRevertSql_no_match id name timestamp sql description checksum :
  (Regex.exec Regex.function_re sql = None ->
   generateRevertSql
     (Migration.mk id name timestamp sql function description checksum) = Ok "") /\
  (Regex.exec Regex.trigger_re sql = None ->
   generateRevertSql
     (Migration.mk id name timestamp sql trigger description checksum) = Ok "") /\
  (Regex.exec Regex.index_re sql = None ->
   generateRevertSql
     (Migration.mk id name timestamp sql index description checksum) = Ok "").
Proof.
  unfold generateRevertSql, match_group. cbn [Migration.type Migration.sql].
  repeat split; by intros ->.
Qed.

(** The patterns on statements in the shape the builders emit: several
    lines, and two spaces where an optional word is left out. *)
Example function_re_multiline :
  generateRevertSql
    (Demo.record "f"
       (newline +:+ "      CREATE OR REPLACE FUNCTION add_one(x int)"
        +:+ newline +:+ "      RETURNS int") function)
  = Ok "DROP FUNCTION IF EXISTS add_one".
Proof. vm_compute. reflexivity. Qed.

Example function_re_case_and_space :
  generateRevertSql
    (Demo.record "f" ("create   function" +:+ newline +:+ "f()") function)
  = Ok "DROP FUNCTION IF EXISTS f".
Proof. vm_compute. reflexivity. Qed.

Example index_re_two_spaces :
  generateRevertSql
    (Demo.record "i"
       (newline +:+ "      CREATE  INDEX users_id" +:+ newline
        +:+ "      ON users  (id)") index)
  = Ok "DROP INDEX IF EXISTS users_id".
Proof. vm_compute. reflexivity. Qed.

Example trigger_re_one_line :
  generateRevertSql
    (Demo.record "t"
       "CREATE TRIGGER audit BEFORE INSERT ON users FOR EACH ROW" trigger)
  = Ok "DROP TRIGGER IF EXISTS audit ON users".
Proof. vm_compute. reflexivity. Qed.

(** C4. The revert of the record whose SQL is
    "CREATE TABLE tasks (id SERIAL PRIMARY KEY)" and whose kind is table is
    exactly "DROP TABLE IF EXISTS tasks"; for every record of kind alter the
    synthesis throws, and the error is of the class UnsupportedKind. *)
Theorem generateRevertSql_tasks_and_alter :
  (forall id name timestamp description checksum,
     generateRevertSql
       (Migration.mk id name timestamp
          "CREATE TABLE tasks (id SERIAL PRIMARY KEY)" table
          description checksum)
     = Ok "DROP TABLE IF EXISTS tasks") /\
  (forall id name timestamp sql description checksum,
     exists e,
       generateRevertSql
         (Migration.mk id name timestamp sql alter description checksum)
       = Throw e /\ UnsupportedKind e = true).
Proof.
  split.
  - intros. reflexivity.
  - intros. eexists. split; reflexivity.
Qed.

(** C5, at the failing inputs. For a CREATE TABLE statement with two
    spaces after CREATE the table branch names the keyword TABLE, and with a
    line break after TABLE it names the token after the table name: the
    branch takes the third piece between single spaces, where the claim has
    it find the name whatever the white space; the function branch of the
    same switch does find the name on such input. *)
Theorem generateRevertSql_table_splits_on_single_spaces :
  generateRevertSql
    (Demo.record "t" "CREATE  TABLE tasks (id SERIAL PRIMARY KEY)" table)
  = Ok "DROP TABLE IF EXISTS TABLE" /\
  generateRevertSql
    (Demo.record "t" ("CREATE TABLE" +:+ newline +:+ "tasks (id SERIAL)") table)
  = Ok "DROP TABLE IF EXISTS (id" /\
  generateRevertSql
    (Demo.record "f"
       ("CREATE  FUNCTION" +:+ newline +:+ "tasks (id SERIAL)") function)
  = Ok "DROP FUNCTION IF EXISTS tasks".
Proof. vm_compute. repeat split. Qed.

(** C6, at the failing input. For a record of kind table whose SQL has
    fewer than three pieces between single spaces there is no name to
    extract, and the synthesized statement is
    "DROP TABLE IF EXISTS undefined", where the claim has the empty
    string. *)
Theorem generateRevertSql_table_without_name :
  Js.split " " "CREATE TABLE" !! 2%nat = None /\
  generateRevertSql (Demo.record "t" "CREATE TABLE" table)
  = Ok "DROP TABLE IF EXISTS undefined".
Proof. vm_compute. repeat split. Qed.


(** * Further properties of the store, the handlers and the builders *)

(** What [json_start] says of some texts. *)
Example json_start_samples :
  json_start "{}" = true /\ json_start "  [1]" = true /\
  json_start "-- Migration: x" = false /\ json_start "" = false /\
  json_start "-1" = true /\ json_start "hello" = false /\
  json_start "null" = true.
Proof. vm_compute. repeat split. Qed.

(** *** The store *)

(** The record of a call, as [createMigration] builds it. *)
Lemma createMigration_world this e type sql description w m w' :
  createMigration this e type sql description w = (Ok m, w') ->
  exists w0 iso d,
    ensureMigrationsDir this w = (Ok tt, w0) /\
    JsDate.toISOString (now_timestamp e) = Some iso /\
    file_at (fs w0) (metadataFile this) = Some (Json d) /\
    sqlFile this (Migration.id m) <> metadataFile this /\
    Fs.is_dir (fs w0) (sqlFile this (Migration.id m)) = false /\
    w' = {| fs := <[metadataFile this :=
                      File (Json {| migrations := migrations d ++ [m] |})]>
                    (<[sqlFile this (Migration.id m) :=
                         File (Text (migrationContent m iso))]> (fs w0));
            trace := trace w0
                     ++ [EvWriteFile (sqlFile this (Migration.id m))
                           (Text (migrationContent m iso));
                         EvWriteFile (metadataFile this)
                           (Json {| migrations := migrations d ++ [m] |})] |}.
Proof.
  intros Hrun. pose proof Hrun as (Em & _ & _)%createMigration_Ok.
  revert Hrun. unfold createMigration. rewrite bind_run.
  destruct (ensureMigrationsDir this w) as [[[]|e0] w0] eqn:Hens; [|done].
  rewrite bind_run. unfold toISOString. cbn [Migration.timestamp].
  destruct (JsDate.toISOString (now_timestamp e)) as [iso|] eqn:Hiso; [|done].
  unfold ret at 1. cbv beta iota. rewrite bind_run.
  rewrite <- Em. fold (sqlFile this (Migration.id m)).
  destruct (Fs.writeFile (sqlFile this (Migration.id m))
              (Text (migrationContent m iso)) w0) as [[[]|e1] w1] eqn:Hw1; [|done].
  apply writeFile_Ok in Hw1 as [Hnd ->].
  rewrite bind_run.
  match goal with |- context [Fs.readFile ?p ?w2] =>
    destruct (readFile_cases p w2) as [(c & Hc & ->)|(e2 & _ & -> & _)];
      [|done] end.
  destruct c as [s|d]; rewrite bind_run; [done|].
  change (JSON_parse (Json d) ?w) with (Ok d, w). cbv beta iota.
  rewrite bind_run, (writeFile_over _ _ _ _ Hc). unfold ret.
  intros [= <-]. cbn [fs trace] in *.
  assert (Hne : sqlFile this (Migration.id m) <> metadataFile this).
  { intros E. rewrite <- E in Hc.
    rewrite file_at_insert_eq in Hc; [done|].
    intros E'. by rewrite E' in Hnd. }
  rewrite file_at_insert_ne in Hc by done.
  exists w0, iso, d. repeat (split; [done|]).
  by rewrite <- app_assoc.
Qed.

(** X1. On a legible index [getMigrations] never throws and changes
    nothing: it answers the records of a written index, and the empty list
    when the index file is missing, is a directory, or holds a text that
    [JSON.parse] rejects. *)
Theorem getMigrations_reads_without_failing (this : MigrationConfig) (w : World) :
  legible this (fs w) = true ->
  exists ms,
    getMigrations this w = (Ok ms, w) /\
    (fs w !! metadataFile this = None -> ms = []) /\
    (fs w !! metadataFile this = Some Dir -> ms = []) /\
    (forall s, fs w !! metadataFile this = Some (File (Text s)) ->
       metadataFile this <> [] -> json_start s = false /\ ms = []) /\
    (forall d, metadataFile this <> [] ->
       fs w !! metadataFile this = Some (File (Json d)) -> ms = migrations d).
Proof.
  intros Hlegible.
  exists (stored this (fs w)). split; [apply getMigrations_stored|].
  unfold legible in Hlegible. unfold stored. unfold file_at in *.
  destruct (Fs.is_dir (fs w) (metadataFile this)) eqn:Hd.
  - split; [done|]. split; [done|]. split.
    + intros s Hl Hp. destruct (metadataFile this) as [|a p]; [done|].
      cbn in Hd. by rewrite Hl in Hd.
    + intros d Hp Hl.
      destruct (metadataFile this) as [|a p]; [done|]. cbn in Hd.
      by rewrite Hl in Hd.
  - split; [by intros ->|]. split; [by intros ->|]. split.
    + intros s Hl _. rewrite Hl in Hlegible |- *.
      split; [by apply negb_true_iff|done].
    + by intros d _ ->.
Qed.

Lemma getMigrations_reads_without_failing_witness :
  exists ms,
    getMigrations Demo.config (Demo.store [Demo.tasks; Demo.users] []) =
      (Ok ms, Demo.store [Demo.tasks; Demo.users] []) /\
    ms = [Demo.tasks; Demo.users].
Proof.
  destruct (getMigrations_reads_without_failing Demo.config
              (Demo.store [Demo.tasks; Demo.users] []) eq_refl)
    as (ms & Hrun & _ & _ & _ & Hjson).
  exists ms. split; [exact Hrun|].
  apply (Hjson {| migrations := [Demo.tasks; Demo.users] |}); [discriminate|].
  reflexivity.
Defined.

Lemma exists_stored_after_ensure this w w0 :
  ensureMigrationsDir this w = (Ok tt, w0) ->
  (Fs.exists_ (fs w) (migrationsDir this) = true -> w0 = w) /\
  (Fs.exists_ (fs w) (migrationsDir this) = false -> stored this (fs w0) = []).
Proof. intros H. by apply ensureMigrationsDir_Ok in H as (_ & ? & ?). Qed.

(** X2. A record written by [createMigration] is read back by
    [getMigrations] field for field, as the last record, after the records
    that were there; and the SQL file named by its id holds the header and
    the SQL text. *)
Theorem createMigration_is_read_back
    (this : MigrationConfig) (e : Entropy) (type : MigrationType)
    (sql : string) (description : option string) (w w' : World)
    (m : Migration.t) :
  createMigration this e type sql description w = (Ok m, w') ->
  (exists before,
     getMigrations this w' = (Ok (before ++ [m]), w') /\
     (Fs.exists_ (fs w) (migrationsDir this) = true ->
      getMigrations this w = (Ok before, w)) /\
     (Fs.exists_ (fs w) (migrationsDir this) = false -> before = [])) /\
  Migration.id m = generateMigrationId e /\
  Migration.timestamp m = now_timestamp e /\
  Migration.sql m = sql /\
  Migration.type m = type /\
  Migration.description m = description /\
  exists iso,
    JsDate.toISOString (now_timestamp e) = Some iso /\
    fs w' !! sqlFile this (generateMigrationId e)
      = Some (File (Text (migrationContent m iso))).
Proof.
  intros Hrun.
  pose proof Hrun as (Em & _ & Hst)%createMigration_Ok.
  pose proof Hrun as (w0 & iso & d & Hens & Hiso & Hd & Hne & _ & Hw')%createMigration_world.
  rewrite Hens in Hst. cbn [snd] in Hst.
  apply exists_stored_after_ensure in Hens as [Hsame Hfresh].
  split.
  - exists (stored this (fs w0)). split.
    + by rewrite getMigrations_stored, Hst.
    + split.
      * intros Hex. rewrite (Hsame Hex). apply getMigrations_stored.
      * apply Hfresh.
  - rewrite Em at 1 2 3 4 5. cbn. do 5 (split; [done|]).
    exists iso. split; [done|].
    replace (generateMigrationId e) with (Migration.id m) by (by rewrite Em).
    rewrite Hw'. cbn [fs]. rewrite lookup_insert_ne by done.
    by rewrite lookup_insert_eq.
Qed.

Lemma createMigration_is_read_back_witness :
  let e := Demo.entropy_at 1711017000000 (xff, xff, xff, xff) in
  let run := createMigration Demo.config e table "CREATE TABLE a (id INT)" None Demo.bare in
  let m := Demo.record "1711017000000_ffffffff" "CREATE TABLE a (id INT)" table in
  fst run = Ok m /\ getMigrations Demo.config (snd run) = (Ok [m], snd run).
Proof.
  intros e run m. split; [reflexivity|].
  destruct (createMigration_is_read_back Demo.config e table
              "CREATE TABLE a (id INT)" None Demo.bare (snd run) m eq_refl)
    as [(before & Hread & _ & Hfresh) _].
  rewrite (Hfresh eq_refl) in Hread. exact Hread.
Defined.

Lemma parent_join dir file : Fs.parent (Fs.join dir file) = dir.
Proof. unfold Fs.parent, Fs.join. apply removelast_last. Qed.

Lemma join_not_nil dir file : Fs.join dir file <> [].
Proof. unfold Fs.join. by destruct dir. Qed.

(** X3. The two writes of [createMigration] are not atomic: when the
    migrations directory exists and the index file cannot be read, the call
    throws after it has written the SQL file of the new id, which stays
    behind without index entry. *)
Theorem createMigration_without_index_leaves_the_sql_file
    (this : MigrationConfig) (e : Entropy) (type : MigrationType)
    (sql : string) (description : option string) (w : World) (iso : string) :
  let m :=
    {| Migration.id := generateMigrationId e;
       Migration.name :=
         MigrationType_toString type +:+ "_" +:+ Js.toString (now_name e);
       Migration.timestamp := now_timestamp e;
       Migration.sql := sql;
       Migration.type := type;
       Migration.description := description;
       Migration.checksum := generateChecksum sql |} in
  let p := sqlFile this (generateMigrationId e) in
  Fs.is_dir (fs w) (migrationsDir this) = true ->
  file_at (fs w) (metadataFile this) = None ->
  fs w !! p = None ->
  p <> metadataFile this ->
  JsDate.toISOString (now_timestamp e) = Some iso ->
  exists err,
    createMigration this e type sql description w =
      (Throw err,
       {| fs := <[p := File (Text (migrationContent m iso))]> (fs w);
          trace := trace w ++ [EvWriteFile p (Text (migrationContent m iso))] |}) /\
    NotFound err = false.
Proof.
  intros m p Hdir Hidx Hp Hne Hiso.
  unfold createMigration. rewrite bind_run.
  rewrite (ensureMigrationsDir_skip _ _ (is_dir_exists _ _ Hdir)).
  rewrite bind_run. unfold toISOString. cbn [Migration.timestamp].
  rewrite Hiso. unfold ret at 1. cbv beta iota. rewrite bind_run.
  fold m. fold (sqlFile this (Migration.id m)).
  change (sqlFile this (Migration.id m)) with p.
  assert (Hwrite : Fs.writeFile p (Text (migrationContent m iso)) w =
            (Ok tt, {| fs := <[p := File (Text (migrationContent m iso))]> (fs w);
                       trace := trace w ++ [EvWriteFile p (Text (migrationContent m iso))] |})).
  { unfold Fs.writeFile, Fs.get_fs, Fs.set_fs, bind, emit, throw.
    assert (Hnd : Fs.is_dir (fs w) p = false).
    { unfold Fs.is_dir. rewrite Hp. subst p. unfold sqlFile, Fs.join.
      by destruct (migrationsDir this). }
    rewrite Hnd, Hp. subst p. unfold sqlFile at 1.
    by rewrite parent_join, Hdir. }
  rewrite Hwrite, bind_run.
  match goal with |- context [Fs.readFile ?q ?w2] =>
    destruct (readFile_cases q w2) as [(c & Hc & _)|(e2 & _ & -> & He2)] end.
  - cbn [fs] in Hc. rewrite file_at_insert_ne in Hc by done. congruence.
  - by exists e2.
Qed.

Lemma createMigration_without_index_leaves_the_sql_file_witness :
  let e := Demo.entropy_at 1711017000000 (xff, xff, xff, xff) in
  let run := createMigration Demo.config e table "CREATE TABLE a (id INT)" None Demo.no_index in
  exists err,
    fst run = Throw err /\
    Fs.exists_ (fs (snd run)) (sqlFile Demo.config "1711017000000_ffffffff") = true /\
    getMigrations Demo.config (snd run) = (Ok [], snd run).
Proof.
  intros e run.
  destruct (createMigration_without_index_leaves_the_sql_file Demo.config e
              table "CREATE TABLE a (id INT)" None Demo.no_index
              "2024-03-21T10:30:00.000Z" eq_refl eq_refl eq_refl
              ltac:(discriminate) eq_refl) as (err & Hrun & _).
  exists err. subst run. rewrite Hrun. repeat split.
Defined.

(** X4. On a fresh installation, where the working directory and its
    ancestors are directories and hold neither a migrations directory nor
    an index file, [ensureMigrationsDir] returns normally, having created
    the directory and an index without records, and nothing else. *)
Theorem ensureMigrationsDir_initializes_a_fresh_store
    (workingDir : path) (w : World) :
  let this := getMigrationConfig workingDir in
  (forall pre suf, workingDir = pre ++ suf -> pre <> [] ->
     fs w !! pre = Some Dir) ->
  fs w !! migrationsDir this = None ->
  fs w !! metadataFile this = None ->
  exists w',
    ensureMigrationsDir this w = (Ok tt, w') /\
    fs w' !! migrationsDir this = Some Dir /\
    getMigrations this w' = (Ok [], w') /\
    (forall p, p <> migrationsDir this -> p <> metadataFile this ->
       fs w' !! p = fs w !! p) /\
    trace w' = trace w ++ [EvMkdir (migrationsDir this);
                           EvWriteFile (metadataFile this)
                             (Json {| migrations := [] |})].
Proof.
  intros this Hdirs Hdir Hidx.
  eexists. split; [by apply ensureMigrationsDir_fresh|].
  cbn [fs trace].
  assert (Hne : metadataFile this <> migrationsDir this).
  { cbn. intros H%app_inv_head. discriminate. }
  split; [by rewrite lookup_insert_ne, lookup_insert_eq|].
  split.
  - rewrite getMigrations_stored. cbn [fs].
    rewrite stored_insert_index; [done|]. cbn. by destruct workingDir.
  - split; [|done]. intros p Hp1 Hp2.
    by rewrite !lookup_insert_ne.
Qed.

Lemma ensureMigrationsDir_initializes_a_fresh_store_witness :
  exists w',
    ensureMigrationsDir Demo.config Demo.bare = (Ok tt, w') /\
    getMigrations Demo.config w' = (Ok [], w').
Proof.
  destruct (ensureMigrationsDir_initializes_a_fresh_store Demo.workingDir Demo.bare)
    as (w' & Hrun & _ & Hread & _).
  - intros pre suf Heq Hne.
    destruct pre as [|a [|b pre]]; [done| |by destruct pre].
    injection Heq as <- _. reflexivity.
  - reflexivity.
  - reflexivity.
  - exists w'. by split.
Defined.

Lemma filter_fresh_snoc (i : string) (before : list Migration.t) (m : Migration.t) :
  Migration.id m = i ->
  Forall (fun x => Migration.id x <> i) before ->
  filter (fun x => Migration.id x <> i) (before ++ [m]) = before.
Proof.
  intros Hm Hall. rewrite filter_app.
  rewrite (filter_cons_False _ m) by (by intros H). rewrite filter_nil, app_nil_r.
  induction Hall as [|x l Hx _ IH]; [done|].
  by rewrite filter_cons_True, IH.
Qed.

(** X5. Creating a migration and then removing it by its id restores the
    index: on an initialized store whose index holds no record of the new
    id, [removeMigration] of the record just created returns normally, the
    index is again what it was, and the SQL file of the id is gone. *)
Theorem createMigration_then_removeMigration
    (workingDir : path) (e : Entropy) (type : MigrationType) (sql : string)
    (description : option string) (w w' : World) (m : Migration.t)
    (before : list Migration.t) :
  let this := getMigrationConfig workingDir in
  Fs.exists_ (fs w) (migrationsDir this) = true ->
  getMigrations this w = (Ok before, w) ->
  Forall (fun x => Migration.id x <> generateMigrationId e) before ->
  createMigration this e type sql description w = (Ok m, w') ->
  exists w'',
    removeMigration this (Migration.id m) w' = (Ok tt, w'') /\
    getMigrations this w'' = (Ok before, w'') /\
    fs w'' !! sqlFile this (Migration.id m) = None.
Proof.
  intros this Hex Hbefore Hfresh Hrun.
  rewrite getMigrations_stored in Hbefore. injection Hbefore as Hbefore.
  pose proof Hrun as (Em & _ & Hst)%createMigration_Ok.
  pose proof Hrun as (w0 & iso & d & Hens & _ & Hd & Hne & _ & Hw')%createMigration_world.
  rewrite (ensureMigrationsDir_skip _ _ Hex) in Hens, Hst.
  injection Hens as <-. cbn [snd] in Hst. rewrite Hbefore in Hst.
  assert (Hid : Migration.id m = generateMigrationId e) by (by rewrite Em).
  destruct (removeMigration_cases this (Migration.id m) w')
    as [(err & _ & Hs & _)|(_ & Hrm)].
  { rewrite Hst in Hs. by destruct before. }
  rewrite Hrm. clear Hrm.
  rewrite Hst, (filter_fresh_snoc _ _ _ eq_refl) by (by rewrite Hid).
  match goal with |- context [Fs.unlink ?p ?w1] =>
    destruct (unlink_cases p w1) as [(c & _ & ->)|(err & Hc & _)] end.
  - eexists. split; [done|]. cbn [fs].
    rewrite getMigrations_stored. cbn [fs].
    split; [|by rewrite lookup_delete_eq].
    rewrite stored_delete_ne by done.
    rewrite stored_insert_index; [done|]. by eapply file_at_not_nil.
  - exfalso. cbn [fs] in Hc. rewrite Hw' in Hc. cbn [fs] in Hc.
    rewrite !file_at_insert_ne in Hc by done.
    rewrite file_at_insert_eq in Hc; [done|]. apply join_not_nil.
Qed.

Lemma createMigration_then_removeMigration_witness :
  let e := Demo.entropy_at 1711017000300 (x00, x00, x00, x03) in
  let w := Demo.store [Demo.tasks] [Migration.id Demo.tasks] in
  let run := createMigration Demo.config e index "CREATE INDEX i ON tasks (id)" None w in
  exists w'',
    removeMigration Demo.config "1711017000300_00000003" (snd run) = (Ok tt, w'') /\
    getMigrations Demo.config w'' = (Ok [Demo.tasks], w'').
Proof.
  intros e w run.
  destruct (createMigration_then_removeMigration Demo.workingDir e index
              "CREATE INDEX i ON tasks (id)" None w (snd run)
              (Migration.mk "1711017000300_00000003" "index_1711017000300"
                 1711017000300 "CREATE INDEX i ON tasks (id)" index None
                 (generateChecksum "CREATE INDEX i ON tasks (id)"))
              [Demo.tasks] eq_refl eq_refl)
    as (w'' & Hrm & Hread & _).
  - repeat constructor. discriminate.
  - reflexivity.
  - exists w''. by split.
Defined.

(** *** Applying migrations *)

(** X6. [applyMigration] is one transaction and touches no file: either
    BEGIN, the SQL of the record and COMMIT are accepted in that order and
    the call returns normally, or the first statement the server rejects is
    followed by ROLLBACK and the call throws the error of the rejected
    statement (that of ROLLBACK, should ROLLBACK be rejected too). *)
Theorem applyMigration_is_one_transaction
    (client : PoolClient) (migration : Migration.t) (w : World) :
  let sql := Migration.sql migration in
  let run := applyMigration client migration w in
  fs (snd run) = fs w /\
  ((fst run = Ok tt /\ trace (snd run) = trace w ++ transaction sql)
   \/ exists accepted statement err,
        (accepted = [] /\ statement = "BEGIN"
         \/ accepted = [EvQuery "BEGIN" None] /\ statement = sql
         \/ accepted = [EvQuery "BEGIN" None; EvQuery sql None]
            /\ statement = "COMMIT") /\
        client (trace w ++ accepted) statement = Some err /\
        let rollback :=
          client (trace w ++ accepted ++ [EvQuery statement (Some err)])
            "ROLLBACK" in
        trace (snd run) =
          trace w ++ accepted
          ++ [EvQuery statement (Some err); EvQuery "ROLLBACK" rollback] /\
        fst run = Throw (match rollback with None => err | Some e' => e' end)).
Proof.
  intros sql run. split; [apply applyMigration_fs|].
  subst run. unfold applyMigration, try_catch. rewrite bind_run, query_run.
  destruct (client (trace w) "BEGIN") as [err|] eqn:H1.
  { right. exists [], "BEGIN", err. rewrite app_nil_r.
    split; [by left|]. split; [done|]. rewrite rollback_run.
    cbn [fst snd fs trace app]. by rewrite <- app_assoc. }
  rewrite bind_run, query_run. cbn [fs trace]. fold sql.
  destruct (client (trace w ++ [EvQuery "BEGIN" None]) sql) as [err|] eqn:H2.
  { right. exists [EvQuery "BEGIN" None], sql, err.
    split; [right; by left|]. split; [done|]. rewrite rollback_run.
    cbn [fst snd fs trace app]. by rewrite <- !app_assoc. }
  rewrite query_run. cbn [fs trace].
  destruct (client ((trace w ++ [EvQuery "BEGIN" None]) ++ [EvQuery sql None])
              "COMMIT") as [err|] eqn:H3.
  - right. exists [EvQuery "BEGIN" None; EvQuery sql None], "COMMIT", err.
    split; [right; by right|]. rewrite <- app_assoc in H3. split; [done|].
    rewrite rollback_run. cbn [fst snd fs trace app]. by rewrite <- !app_assoc.
  - left. cbn [fst snd trace]. split; [done|]. by rewrite <- !app_assoc.
Qed.

(** Records of other ids leave a loop that is still off as it is. *)
Lemma applyLoop_off client i : forall ms w,
  Forall (fun m => Migration.id m <> i) ms ->
  Server.applyLoop client (Some i) false ms w = (Ok tt, w).
Proof.
  induction ms as [|m rest IH]; intros w Hall; [done|].
  inversion Hall as [|? ? Hm Hrest]; subst. cbn [Server.applyLoop].
  destruct (Server.id_is m (Some i)) eqn:E; [by apply id_is_Some in E|].
  rewrite bind_run. unfold ret. by apply IH.
Qed.

(** X7. "applyMigrations" with a [fromId] that is the id of no record of
    a legible index is a silent no-op: no statement is sent to the server,
    the connection is released, and the handler answers that the
    migrations were applied. *)
Theorem applyMigrations_unknown_fromId_applies_nothing
    (this : MigrationConfig) (db : DatabaseService) (client : PoolClient)
    (i : string) (w : World) (migrations : list Migration.t) :
  legible this (fs w) = true ->
  getClient_result db = Ok client ->
  i <> "" ->
  getMigrations this w = (Ok migrations, w) ->
  Forall (fun m => Migration.id m <> i) migrations ->
  Server.applyMigrations this db (Some i) w =
    (Ok MigrationsApplied, {| fs := fs w; trace := trace w ++ [EvRelease] |}).
Proof.
  intros _ Hclient Hi Hread Hall. unfold Server.applyMigrations.
  rewrite bind_run, Hread, bind_run. unfold Server.getClient, lift.
  rewrite Hclient. unfold try_finally. rewrite bind_run.
  assert (Htruthy : Js.truthy (Some i) = true) by (by destruct i).
  rewrite Htruthy. cbn [negb]. by rewrite applyLoop_off.
Qed.

Lemma applyMigrations_unknown_fromId_applies_nothing_witness :
  Server.applyMigrations Demo.config (Demo.database accepting)
    (Some "1700000000000_deadbeef") (Demo.store [Demo.tasks; Demo.users] []) =
    (Ok MigrationsApplied,
     {| fs := fs (Demo.store [Demo.tasks; Demo.users] []);
        trace := [EvRelease] |}).
Proof.
  apply (applyMigrations_unknown_fromId_applies_nothing Demo.config
           (Demo.database accepting) accepting "1700000000000_deadbeef"
           (Demo.store [Demo.tasks; Demo.users] []) [Demo.tasks; Demo.users]).
  - reflexivity.
  - reflexivity.
  - discriminate.
  - reflexivity.
  - repeat constructor; discriminate.
Defined.

Lemma pending_all : forall ms, pending None true ms = ms.
Proof. induction ms as [|m rest IH]; [done|]. cbn. by rewrite IH. Qed.

(** X8. "applyMigrations" without [fromId], on a legible index and a
    server that accepts every statement, runs one transaction for every
    record of the index, in the order of the index, and then releases the
    connection; no file changes. *)
Theorem applyMigrations_without_fromId_applies_all
    (this : MigrationConfig) (w : World) :
  legible this (fs w) = true ->
  exists migrations,
    getMigrations this w = (Ok migrations, w) /\
    Server.applyMigrations this {| getClient_result := Ok accepting |} None w =
      (Ok MigrationsApplied,
       {| fs := fs w;
          trace := trace w
                   ++ concat (map (fun m => transaction (Migration.sql m)) migrations)
                   ++ [EvRelease] |}).
Proof.
  intros _.
  exists (stored this (fs w)). split; [apply getMigrations_stored|].
  rewrite applyMigrations_accepting. cbn [Js.truthy negb].
  by rewrite pending_all.
Qed.

Lemma applyMigrations_without_fromId_applies_all_witness :
  exists migrations,
    getMigrations Demo.config (Demo.store [Demo.tasks; Demo.users] []) =
      (Ok migrations, Demo.store [Demo.tasks; Demo.users] []) /\
    Server.applyMigrations Demo.config {| getClient_result := Ok accepting |}
      None (Demo.store [Demo.tasks; Demo.users] []) =
      (Ok MigrationsApplied,
       {| fs := fs (Demo.store [Demo.tasks; Demo.users] []);
          trace := trace (Demo.store [Demo.tasks; Demo.users] [])
                   ++ concat (map (fun m => transaction (Migration.sql m))
                                migrations)
                   ++ [EvRelease] |}).
Proof.
  apply (applyMigrations_without_fromId_applies_all Demo.config
           (Demo.store [Demo.tasks; Demo.users] [])).
  reflexivity.
Defined.

(** Whatever the server answers, [applyMigration] sends statements only. *)
Lemma applyMigration_sends_statements client migration w :
  exists evs,
    trace (snd (applyMigration client migration w)) = trace w ++ evs /\
    Forall (fun ev => store_event ev = false /\ ev <> EvRelease) evs.
Proof.
  unfold applyMigration, try_catch. rewrite bind_run, query_run.
  destruct (client (trace w) "BEGIN") as [err|].
  { rewrite rollback_run. cbn [fst snd fs trace]. eexists.
    rewrite <- app_assoc. split; [done|]. by repeat constructor. }
  rewrite bind_run, query_run. cbn [fs trace].
  destruct (client _ (Migration.sql migration)) as [err|].
  { rewrite rollback_run. cbn [fst snd fs trace]. eexists.
    rewrite <- !app_assoc. split; [done|]. by repeat constructor. }
  rewrite query_run. cbn [fs trace].
  destruct (client _ "COMMIT") as [err|].
  - rewrite rollback_run. cbn [fst snd fs trace]. eexists.
    rewrite <- !app_assoc. split; [done|]. by repeat constructor.
  - cbn [fst snd fs trace]. eexists.
    rewrite <- !app_assoc. split; [done|]. by repeat constructor.
Qed.

(** So does the loop of "applyMigrations". *)
Lemma applyLoop_sends_statements client fromId : forall ms shouldApply w,
  exists evs,
    fs (snd (Server.applyLoop client fromId shouldApply ms w)) = fs w /\
    trace (snd (Server.applyLoop client fromId shouldApply ms w))
      = trace w ++ evs /\
    Forall (fun ev => store_event ev = false /\ ev <> EvRelease) evs.
Proof.
  induction ms as [|m rest IH]; intros shouldApply w.
  - exists []. cbn. by rewrite app_nil_r.
  - cbn [Server.applyLoop].
    destruct (Server.id_is m fromId); [apply IH|].
    rewrite bind_run. destruct shouldApply; [|apply IH].
    pose proof (applyMigration_fs client m w) as Hfs.
    destruct (applyMigration_sends_statements client m w) as (evs & Htr & Hall).
    destruct (applyMigration client m w) as [[[]|err] w1]; cbn [fst snd] in *.
    + destruct (IH true w1) as (evs' & Hfs' & Htr' & Hall').
      exists (evs ++ evs').
      rewrite Hfs', Htr', Htr, Hfs, <- app_assoc. repeat split; try done.
      by apply Forall_app.
    + by exists evs.
Qed.

(** X10. "applyMigrations" never changes the migration store: whatever
    the server answers, the files are as they were; once a connection was
    obtained the handler sends statements only and ends by releasing the
    connection, exactly once; and when no connection can be obtained it
    throws without any effect. *)
Theorem applyMigrations_only_queries_and_releases
    (this : MigrationConfig) (db : DatabaseService)
    (fromId : option string) (w : World) :
  let run := Server.applyMigrations this db fromId w in
  fs (snd run) = fs w /\
  (forall client, getClient_result db = Ok client ->
     exists evs,
       trace (snd run) = trace w ++ evs ++ [EvRelease] /\
       Forall (fun ev => store_event ev = false /\ ev <> EvRelease) evs) /\
  (forall err, getClient_result db = Throw err -> run = (Throw err, w)).
Proof.
  intros run. subst run. unfold Server.applyMigrations.
  rewrite bind_run, getMigrations_stored. cbv beta iota.
  rewrite bind_run. unfold Server.getClient, lift.
  destruct (getClient_result db) as [client|err].
  - unfold try_finally. rewrite bind_run.
    destruct (applyLoop_sends_statements client fromId (stored this (fs w))
                (negb (Js.truthy fromId)) w) as (evs & Hfs & Htr & Hall).
    destruct (Server.applyLoop client fromId _ _ w) as [[[]|err] w1];
      cbn [fst snd ret release emit fs trace] in *.
    all: split; [done|]; split; [|done].
    all: intros ? [= <-]; exists evs; by rewrite Htr, <- app_assoc.
  - split; [done|]. split; [done|]. by intros ? [= <-].
Qed.



(** *** Reverting a migration *)

(** Once a target is selected, a connection obtained and the revert
    statement committed, the outcome is that of [removeMigration]. *)
Lemma revertMigration_committed (this : MigrationConfig) (db : DatabaseService)
    (migrationId : option string) (w : World) client target revertSql :
  getClient_result db = Ok client ->
  Server.targetMigration migrationId (stored this (fs w)) = Some target ->
  generateRevertSql target = Ok revertSql ->
  client (trace w) "BEGIN" = None ->
  client (trace w ++ [EvQuery "BEGIN" None]) revertSql = None ->
  client (trace w ++ [EvQuery "BEGIN" None; EvQuery revertSql None]) "COMMIT"
    = None ->
  let w1 := {| fs := fs w; trace := trace w ++ transaction revertSql |} in
  Server.revertMigration this db migrationId w =
    match removeMigration this (Migration.id target) w1 with
    | (Ok _, w2) =>
        (Ok (MigrationReverted target revertSql),
         {| fs := fs w2; trace := trace w2 ++ [EvRelease] |})
    | (Throw e, w2) =>
        let rollback := client (trace w2) "ROLLBACK" in
        (Throw (match rollback with None => e | Some e' => e' end),
         {| fs := fs w2;
            trace := trace w2 ++ [EvQuery "ROLLBACK" rollback; EvRelease] |})
    end.
Proof.
  intros Hclient Htarget Hsql Hbegin Hrevert Hcommit w1.
  unfold Server.revertMigration.
  rewrite bind_run, getMigrations_stored. cbv beta iota.
  rewrite (targetMigration_nonempty _ _ _ Htarget), Htarget.
  rewrite bind_run. unfold Server.getClient, lift. rewrite Hclient.
  unfold try_finally, try_catch. rewrite bind_run, Hsql.
  rewrite bind_run, query_run, Hbegin.
  rewrite bind_run, query_run. cbn [fs trace]. rewrite Hrevert.
  rewrite bind_run, query_run. cbn [fs trace].
  rewrite <- app_assoc. cbn [app]. rewrite Hcommit.
  rewrite bind_run. cbn [fs trace]. rewrite <- app_assoc. cbn [app].
  fold (transaction revertSql). fold w1.
  destruct (removeMigration this (Migration.id target) w1) as [[[]|e] w2].
  - done.
  - rewrite rollback_run. cbn [release emit fs trace].
    by rewrite <- app_assoc.
Qed.

(** A normal return of "revertMigration" went through every step. *)
Lemma revertMigration_Ok_inv (this : MigrationConfig) (db : DatabaseService)
    (migrationId : option string) (w : World) response w' :
  Server.revertMigration this db migrationId w = (Ok response, w') ->
  exists target revertSql w2,
    response = MigrationReverted target revertSql /\
    Server.targetMigration migrationId (stored this (fs w)) = Some target /\
    generateRevertSql target = Ok revertSql /\
    removeMigration this (Migration.id target)
      {| fs := fs w; trace := trace w ++ transaction revertSql |} = (Ok tt, w2) /\
    w' = {| fs := fs w2; trace := trace w2 ++ [EvRelease] |}.
Proof.
  unfold Server.revertMigration.
  rewrite bind_run, getMigrations_stored. cbv beta iota.
  destruct (Nat.eqb (length (stored this (fs w))) 0); [done|].
  destruct (Server.targetMigration migrationId (stored this (fs w)))
    as [target|] eqn:Htarget; [|done].
  rewrite bind_run. unfold Server.getClient, lift.
  destruct (getClient_result db) as [client|e]; [|done].
  unfold try_finally, try_catch. rewrite bind_run.
  destruct (generateRevertSql target) as [revertSql|e] eqn:Hsql.
  2: { rewrite rollback_run. cbn [release emit fs trace]. done. }
  rewrite bind_run, query_run.
  destruct (client (trace w) "BEGIN") as [e|].
  { rewrite rollback_run. cbn [release emit fs trace]. done. }
  rewrite bind_run, query_run. cbn [fs trace].
  destruct (client (trace w ++ [EvQuery "BEGIN" None]) revertSql) as [e|].
  { rewrite rollback_run. cbn [release emit fs trace]. done. }
  rewrite bind_run, query_run. cbn [fs trace].
  destruct (client _ "COMMIT") as [e|].
  { rewrite rollback_run. cbn [release emit fs trace]. done. }
  rewrite bind_run. cbn [fs trace]. rewrite <- !app_assoc. cbn [app].
  fold (transaction revertSql).
  destruct (removeMigration this (Migration.id target) _) as [[[]|e] w2] eqn:Hrm.
  - cbn [ret release emit fs trace]. intros [= <- <-].
    by exists target, revertSql, w2.
  - rewrite rollback_run. cbn [release emit fs trace]. done.
Qed.

(** X11. When "revertMigration" returns normally on an index whose ids
    hold no path separator, the answer names the selected record and its
    revert statement, the statement was committed in one transaction,
    then the index was rewritten without the record, then its SQL file
    was deleted, then the connection was released; the index afterwards
    holds the other records, in their order. *)
Theorem revertMigration_returns_after_removing
    (workingDir : path) (db : DatabaseService)
    (migrationId : option string) (w : World) (response : Response) (w' : World) :
  let this := getMigrationConfig workingDir in
  Forall (fun m => contains "/" (Migration.id m) = false) (stored this (fs w)) ->
  Server.revertMigration this db migrationId w = (Ok response, w') ->
  exists target revertSql,
    response = MigrationReverted target revertSql /\
    Server.targetMigration migrationId (stored this (fs w)) = Some target /\
    generateRevertSql target = Ok revertSql /\
    let kept :=
      filter (fun m => Migration.id m <> Migration.id target)
        (stored this (fs w)) in
    trace w' =
      trace w ++ transaction revertSql
      ++ [EvWriteFile (metadataFile this) (Json {| migrations := kept |});
          EvUnlink (sqlFile this (Migration.id target));
          EvRelease] /\
    stored this (fs w') = kept /\
    file_at (fs w') (sqlFile this (Migration.id target)) = None.
Proof.
  intros this _ Hrun.
  destruct (revertMigration_Ok_inv _ _ _ _ _ _ Hrun)
    as (target & revertSql & w2 & -> & Htarget & Hsql & Hrm & ->).
  exists target, revertSql. do 3 (split; [done|]). intros kept.
  set (w1 := {| fs := fs w; trace := trace w ++ transaction revertSql |}) in *.
  pose proof (deployed_paths_distinct workingDir (Migration.id target)) as Hne.
  fold this in Hne. cbv zeta in Hne.
  destruct (removeMigration_cases this (Migration.id target) w1)
    as [(e & He & _)|[[d Hd] Heq]]; [congruence|].
  cbv zeta in Heq. rewrite Hrm in Heq. symmetry in Heq.
  match type of Heq with Fs.unlink ?p ?w0 = _ =>
    destruct (unlink_cases p w0) as [(c & Hc & Hun)|(e & _ & Hun & _)];
      [|congruence]
  end.
  rewrite Heq in Hun. injection Hun as ->. cbn [fs trace w1].
  split; [by rewrite <- !app_assoc|]. split.
  - rewrite stored_delete_ne by done.
    apply stored_insert_index. by apply file_at_not_nil in Hd.
  - apply file_at_delete_eq.
Qed.

Lemma revertMigration_returns_after_removing_witness :
  let this := getMigrationConfig Demo.workingDir in
  let w := Demo.store [Demo.tasks; Demo.users] [Migration.id Demo.users] in
  exists target revertSql,
    MigrationReverted Demo.users "DROP TABLE IF EXISTS users"
      = MigrationReverted target revertSql /\
    Server.targetMigration None (stored this (fs w)) = Some target /\
    generateRevertSql target = Ok revertSql /\
    let kept :=
      filter (fun m => Migration.id m <> Migration.id target)
        (stored this (fs w)) in
    trace (snd (Server.revertMigration this (Demo.database accepting) None w)) =
      trace w ++ transaction revertSql
      ++ [EvWriteFile (metadataFile this) (Json {| migrations := kept |});
          EvUnlink (sqlFile this (Migration.id target));
          EvRelease] /\
    stored this (fs (snd (Server.revertMigration this (Demo.database accepting)
                            None w))) = kept /\
    file_at (fs (snd (Server.revertMigration this (Demo.database accepting)
                        None w)))
      (sqlFile this (Migration.id target)) = None.
Proof.
  intros this w.
  apply (revertMigration_returns_after_removing Demo.workingDir
           (Demo.database accepting) None w).
  - repeat constructor.
  - vm_compute. reflexivity.
Defined.

(** X12. On a legible index "revertMigration" refuses without any effect
    when there is nothing to revert: with no record in the index (a
    written index that is empty, a missing index file, a directory at its
    path, a text that [JSON.parse] rejects) it throws "No migrations to
    revert", whatever id is asked for; with a non-empty index and an id of
    no record it throws "Migration not found".  In both cases no
    connection is requested and the world is left as it was. *)
Theorem revertMigration_refuses_without_effect
    (this : MigrationConfig) (db : DatabaseService) (w : World) :
  legible this (fs w) = true ->
  (stored this (fs w) = [] ->
   forall migrationId,
     Server.revertMigration this db migrationId w =
       (Throw (JsError "No migrations to revert"), w)) /\
  (forall i,
     i <> "" ->
     stored this (fs w) <> [] ->
     Forall (fun m => Migration.id m <> i) (stored this (fs w)) ->
     Server.revertMigration this db (Some i) w =
       (Throw (JsError "Migration not found"), w)).
Proof.
  intros _. split.
  - intros Hempty migrationId. unfold Server.revertMigration.
    rewrite bind_run, getMigrations_stored. cbv beta iota.
    by rewrite Hempty.
  - intros i Hi Hsome Hall. unfold Server.revertMigration.
    rewrite bind_run, getMigrations_stored. cbv beta iota.
    destruct (stored this (fs w)) as [|m0 ms] eqn:Hst; [done|].
    cbn [length Nat.eqb]. unfold Server.targetMigration.
    assert (Htruthy : Js.truthy (Some i) = true) by (by destruct i).
    rewrite Htruthy.
    assert (Hfind : find (fun m => Server.id_is m (Some i)) (m0 :: ms) = None).
    { clear Hst Hsome. induction Hall as [|x l Hx _ IH]; [done|].
      cbn [find]. destruct (Server.id_is x (Some i)) eqn:E; [|done].
      by apply id_is_Some in E. }
    by rewrite Hfind.
Qed.

Lemma revertMigration_refuses_without_effect_witness :
  Server.revertMigration Demo.config (Demo.database accepting) None Demo.bare
    = (Throw (JsError "No migrations to revert"), Demo.bare) /\
  Server.revertMigration Demo.config (Demo.database accepting)
    (Some "1700000000000_deadbeef") (Demo.store [Demo.tasks] [])
    = (Throw (JsError "Migration not found"), Demo.store [Demo.tasks] []).
Proof.
  split.
  - apply (proj1 (revertMigration_refuses_without_effect Demo.config
                    (Demo.database accepting) Demo.bare eq_refl)).
    reflexivity.
  - apply (proj2 (revertMigration_refuses_without_effect Demo.config
                    (Demo.database accepting) (Demo.store [Demo.tasks] [])
                    eq_refl)).
    + discriminate.
    + discriminate.
    + repeat constructor. discriminate.
Defined.

(** X13. An "alter" migration cannot be reverted, and the attempt changes
    nothing: the handler sends ROLLBACK although it has not sent BEGIN,
    releases the connection and throws "Revert not implemented for
    migration type: alter" (the error of ROLLBACK, should the server reject
    it); the index and the files are as before. *)
Theorem revertMigration_of_alter_is_refused
    (this : MigrationConfig) (db : DatabaseService) (client : PoolClient)
    (migrationId : option string) (w : World) (target : Migration.t) :
  getClient_result db = Ok client ->
  Server.targetMigration migrationId (stored this (fs w)) = Some target ->
  Migration.type target = alter ->
  let rollback := client (trace w) "ROLLBACK" in
  let e := JsError "Revert not implemented for migration type: alter" in
  UnsupportedKind e = true /\
  Server.revertMigration this db migrationId w =
    (Throw (match rollback with None => e | Some e' => e' end),
     {| fs := fs w;
        trace := trace w ++ [EvQuery "ROLLBACK" rollback; EvRelease] |}).
Proof.
  intros Hclient Htarget Htype rollback e. split; [done|].
  unfold Server.revertMigration.
  rewrite bind_run, getMigrations_stored. cbv beta iota.
  rewrite (targetMigration_nonempty _ _ _ Htarget), Htarget.
  rewrite bind_run. unfold Server.getClient, lift. rewrite Hclient.
  unfold try_finally, try_catch. rewrite bind_run.
  assert (Hsql : generateRevertSql target = Throw e).
  { unfold generateRevertSql. by rewrite Htype. }
  rewrite Hsql, rollback_run. cbn [release emit fs trace].
  by rewrite <- app_assoc.
Qed.

Lemma revertMigration_of_alter_is_refused_witness :
  let m := Demo.record "1711017000400_00000004"
             "ALTER TABLE users ADD COLUMN email TEXT" alter in
  let w := Demo.store [Demo.users; m] [Migration.id Demo.users; Migration.id m] in
  let e := JsError "Revert not implemented for migration type: alter" in
  UnsupportedKind e = true /\
  Server.revertMigration Demo.config (Demo.database accepting) None w =
    (Throw e, {| fs := fs w; trace := trace w ++ [EvQuery "ROLLBACK" None; EvRelease] |}).
Proof.
  intros m w e.
  apply (revertMigration_of_alter_is_refused Demo.config
           (Demo.database accepting) accepting None w m); reflexivity.
Defined.





(** *** The schema tools *)

(** What a schema tool does once the record is written and a connection
    obtained. *)
Lemma try_finally_applyMigration {R} (client : PoolClient) (m : Migration.t)
    (answer : R) (w1 : World) :
  try_finally (let! _ := applyMigration client m in ret answer) release w1 =
    match applyMigration client m w1 with
    | (Ok _, w2) => (Ok answer, {| fs := fs w2; trace := trace w2 ++ [EvRelease] |})
    | (Throw err, w2) =>
        (Throw err, {| fs := fs w2; trace := trace w2 ++ [EvRelease] |})
    end.
Proof.
  unfold try_finally. rewrite bind_run.
  by destruct (applyMigration client m w1) as [[[]|err] w2].
Qed.

(** A rejected statement makes [applyMigration] throw after ROLLBACK. *)
Lemma applyMigration_rejected client m w err :
  client (trace w) "BEGIN" = None ->
  client (trace w ++ [EvQuery "BEGIN" None]) (Migration.sql m) = Some err ->
  let rollback :=
    client (trace w ++ [EvQuery "BEGIN" None; EvQuery (Migration.sql m) (Some err)])
      "ROLLBACK" in
  applyMigration client m w =
    (Throw (match rollback with None => err | Some e' => e' end),
     {| fs := fs w;
        trace := trace w ++ [EvQuery "BEGIN" None;
                             EvQuery (Migration.sql m) (Some err);
                             EvQuery "ROLLBACK" rollback] |}).
Proof.
  intros Hbegin Hsql rollback.
  unfold applyMigration, try_catch. rewrite bind_run, query_run, Hbegin.
  rewrite bind_run, query_run. cbn [fs trace]. rewrite Hsql.
  rewrite rollback_run. cbn [fs trace]. subst rollback.
  by rewrite <- !app_assoc.
Qed.

(** X15. A table the server refuses stays recorded: when the server
    rejects the CREATE TABLE statement, "createTable" rolls back, releases
    the connection and throws the error of the server, but the migration
    it wrote beforehand remains the last record of the index and its SQL
    file remains in the migrations directory. *)
Theorem createTable_rejected_leaves_the_record
    (this : MigrationConfig) (db : DatabaseService) (client : PoolClient)
    (e : Entropy) (args : CreateTableParams.t) (w w1 : World)
    (m : Migration.t) (err : Error) :
  let sql := SchemaService.createTable args in
  createMigration this e table sql
    (Some ("Create table " +:+ CreateTableParams.tableName args)) w = (Ok m, w1) ->
  getClient_result db = Ok client ->
  client (trace w1) "BEGIN" = None ->
  client (trace w1 ++ [EvQuery "BEGIN" None]) sql = Some err ->
  let rollback :=
    client (trace w1 ++ [EvQuery "BEGIN" None; EvQuery sql (Some err)])
      "ROLLBACK" in
  let run := Server.createTable this db e args w in
  fst run = Throw (match rollback with None => err | Some e' => e' end) /\
  trace (snd run) =
    trace w1 ++ [EvQuery "BEGIN" None; EvQuery sql (Some err);
                 EvQuery "ROLLBACK" rollback; EvRelease] /\
  last (stored this (fs (snd run))) = Some m /\
  exists text, file_at (fs (snd run)) (sqlFile this (Migration.id m)) = Some (Text text).
Proof.
  intros sql Hcreate Hclient Hbegin Hsql rollback run.
  pose proof Hcreate as (Em & _ & Hst)%createMigration_Ok.
  pose proof Hcreate
    as (w0 & iso & d & _ & _ & _ & Hne & _ & Hw1)%createMigration_world.
  assert (Hm : Migration.sql m = sql) by (by rewrite Em).
  subst run. unfold Server.createTable. fold sql.
  rewrite bind_run, Hcreate, bind_run. unfold Server.getClient, lift.
  rewrite Hclient, try_finally_applyMigration.
  rewrite (applyMigration_rejected client m w1 err) by (by rewrite ?Hm).
  rewrite Hm. fold rollback. cbn [fst snd fs trace].
  split; [done|]. split; [by rewrite <- app_assoc|]. split.
  - rewrite Hst. apply last_snoc.
  - exists (migrationContent m iso). rewrite Hw1. cbn [fs].
    rewrite file_at_insert_ne by done.
    apply file_at_insert_eq, join_not_nil.
Qed.

Lemma createTable_rejected_leaves_the_record_witness :
  let e := Demo.entropy_at 1711017000300 (x00, x00, x00, x03) in
  let args := CreateTableParams.mk "users"
                [ColumnDefinition.mk "id" "SERIAL" None] None in
  let err := PgError "relation users already exists" in
  let client := rejecting "CREATE TABLE users (id SERIAL)" err in
  let run := Server.createTable Demo.config (Demo.database client) e args
               (Demo.store [Demo.users] [Migration.id Demo.users]) in
  fst run = Throw err /\
  last (stored Demo.config (fs (snd run))) =
    Some (Migration.mk "1711017000300_00000003" "table_1711017000300"
            1711017000300 "CREATE TABLE users (id SERIAL)" table
            (Some "Create table users")
            (generateChecksum "CREATE TABLE users (id SERIAL)")).
Proof.
  intros e args err client run.
  destruct (createTable_rejected_leaves_the_record Demo.config
              (Demo.database client) client e args
              (Demo.store [Demo.users] [Migration.id Demo.users])
              (snd (createMigration Demo.config e table
                      (SchemaService.createTable args)
                      (Some "Create table users")
                      (Demo.store [Demo.users] [Migration.id Demo.users])))
              (Migration.mk "1711017000300_00000003" "table_1711017000300"
                 1711017000300 "CREATE TABLE users (id SERIAL)" table
                 (Some "Create table users")
                 (generateChecksum "CREATE TABLE users (id SERIAL)"))
              err eq_refl eq_refl eq_refl eq_refl)
    as (Hthrow & _ & Hlast & _).
  by split.
Defined.

Lemma filter_snoc_self (before : list Migration.t) (m : Migration.t) :
  filter (fun x => Migration.id x <> Migration.id m) (before ++ [m])
  = filter (fun x => Migration.id x <> Migration.id m) before.
Proof.
  rewrite filter_app, (filter_cons_False _ m) by (by intros H).
  by rewrite filter_nil, app_nil_r.
Qed.

(** The latest record created in the deployed store is what a revert
    without id selects and removes, on a server that accepts everything;
    the earlier records of the same id, if any, leave the index with it. *)
Lemma revertMigration_after_createMigration
    (workingDir : path) (e : Entropy) (type : MigrationType) (sql : string)
    (description : option string) (w w1 w2 : World) (m : Migration.t)
    (revertSql : string) :
  let this := getMigrationConfig workingDir in
  let before := stored this (fs (snd (ensureMigrationsDir this w))) in
  let kept :=
    filter (fun x => Migration.id x <> generateMigrationId e) before in
  createMigration this e type sql description w = (Ok m, w1) ->
  generateRevertSql m = Ok revertSql ->
  fs w2 = fs w1 ->
  let index' := Json {| migrations := kept |} in
  Server.revertMigration this {| getClient_result := Ok accepting |} None w2 =
    (Ok (MigrationReverted m revertSql),
     {| fs := delete (sqlFile this (Migration.id m))
                (<[metadataFile this := File index']> (fs w1));
        trace := trace w2 ++ transaction revertSql
                 ++ [EvWriteFile (metadataFile this) index';
                     EvUnlink (sqlFile this (Migration.id m));
                     EvRelease] |}).
Proof.
  intros this before kept Hcreate Hsql Hfs index'.
  pose proof Hcreate as (Em & _ & Hst)%createMigration_Ok.
  pose proof Hcreate
    as (w0 & iso & d & _ & _ & Hd & Hne & _ & Hw1)%createMigration_world.
  fold before in Hst.
  assert (Hid : Migration.id m = generateMigrationId e) by (by rewrite Em).
  assert (Htarget : Server.targetMigration None (stored this (fs w2)) = Some m).
  { rewrite Hfs, Hst. unfold Server.targetMigration. cbn [Js.truthy].
    apply last_snoc. }
  rewrite (revertMigration_committed this _ None w2 accepting m revertSql)
    by done.
  cbv zeta.
  set (w3 := {| fs := fs w2; trace := trace w2 ++ transaction revertSql |}).
  destruct (removeMigration_cases this (Migration.id m) w3)
    as [(err & _ & Hs & _)|(_ & Hrm)].
  { cbn [w3 fs] in Hs. rewrite Hfs, Hst in Hs. by destruct before. }
  rewrite Hrm. clear Hrm. cbn [w3 fs trace]. rewrite Hfs, Hst.
  rewrite filter_snoc_self, Hid. fold kept. fold index'.
  match goal with |- context [Fs.unlink ?p ?w4] =>
    destruct (unlink_cases p w4) as [(c & _ & ->)|(err & Hc & _)] end.
  - cbn [fs trace]. by rewrite <- !app_assoc.
  - exfalso. cbn [fs] in Hc. rewrite Hw1 in Hc. cbn [fs] in Hc.
    rewrite <- ?Hid in Hc.
    rewrite !file_at_insert_ne in Hc by done.
    rewrite file_at_insert_eq in Hc; [done|]. apply join_not_nil.
Qed.

(** What the store is after the revert of the record just created. *)
Lemma reverted_store (workingDir : path) (e : Entropy) (type : MigrationType)
    (sql : string) (description : option string) (w w1 : World) (m : Migration.t) :
  let this := getMigrationConfig workingDir in
  let before := stored this (fs (snd (ensureMigrationsDir this w))) in
  let kept :=
    filter (fun x => Migration.id x <> generateMigrationId e) before in
  createMigration this e type sql description w = (Ok m, w1) ->
  let files :=
    delete (sqlFile this (Migration.id m))
      (<[metadataFile this := File (Json {| migrations := kept |})]> (fs w1)) in
  Migration.id m = generateMigrationId e /\
  stored this files = kept /\
  file_at files (sqlFile this (Migration.id m)) = None /\
  (Forall (fun x => Migration.id x <> generateMigrationId e) before ->
   kept = before).
Proof.
  intros this before kept Hcreate files.
  pose proof Hcreate as (Em & _ & _)%createMigration_Ok.
  pose proof Hcreate
    as (w0 & iso & d & _ & _ & Hd & Hne & _ & _)%createMigration_world.
  split; [by rewrite Em|]. split; [|split].
  - subst files. rewrite stored_delete_ne by done. apply stored_insert_index.
    by apply file_at_not_nil in Hd.
  - apply file_at_delete_eq.
  - intros Hall. subst kept.
    induction Hall as [|x l Hx _ IH]; [done|].
    by rewrite filter_cons_True, IH.
Qed.

(** A normal return of "createTable" has written the record. *)
Lemma createTable_Ok_inv this db e args w response w' :
  Server.createTable this db e args w = (Ok response, w') ->
  exists m w1,
    createMigration this e table (SchemaService.createTable args)
      (Some ("Create table " +:+ CreateTableParams.tableName args)) w
      = (Ok m, w1) /\
    fs w' = fs w1 /\
    response = TableCreated (SchemaService.createTable args)
                 (Migration.id m) (Migration.name m).
Proof.
  unfold Server.createTable. rewrite bind_run.
  destruct (createMigration this e table _ _ w) as [[m|err] w1]; [|done].
  rewrite bind_run. unfold Server.getClient, lift.
  destruct (getClient_result db) as [client|err]; [|done].
  rewrite try_finally_applyMigration.
  pose proof (applyMigration_fs client m w1) as Hfs.
  destruct (applyMigration client m w1) as [[[]|err] w2]; [|done].
  intros [= <- <-]. by exists m, w1.
Qed.

(** X16. Creating a table and reverting it is a round trip: after
    "createTable" has returned for a table name without space, a
    "revertMigration" without id on a server that accepts every statement
    selects the record of that call, commits DROP TABLE IF EXISTS for the
    table name, and leaves the index with the records it held before the
    table was created, less those that had the id of the call, and
    without the SQL file of the call.  When no earlier record has that id
    (ids coincide only for equal clock readings and random bytes) the
    index is as it was before the table was created. *)
Theorem createTable_then_revertMigration
    (workingDir : path) (db : DatabaseService) (e : Entropy)
    (args : CreateTableParams.t) (w w' : World) (response : Response) :
  let this := getMigrationConfig workingDir in
  let before := stored this (fs (snd (ensureMigrationsDir this w))) in
  let kept :=
    filter (fun x => Migration.id x <> generateMigrationId e) before in
  let revertSql := "DROP TABLE IF EXISTS " +:+ CreateTableParams.tableName args in
  contains " " (CreateTableParams.tableName args) = false ->
  Server.createTable this db e args w = (Ok response, w') ->
  exists m w'',
    Server.revertMigration this {| getClient_result := Ok accepting |} None w'
      = (Ok (MigrationReverted m revertSql), w'') /\
    response = TableCreated (SchemaService.createTable args)
                 (Migration.id m) (Migration.name m) /\
    Migration.id m = generateMigrationId e /\
    trace w'' =
      trace w' ++ transaction revertSql
      ++ [EvWriteFile (metadataFile this) (Json {| migrations := kept |});
          EvUnlink (sqlFile this (Migration.id m));
          EvRelease] /\
    stored this (fs w'') = kept /\
    file_at (fs w'') (sqlFile this (Migration.id m)) = None /\
    (Forall (fun x => Migration.id x <> generateMigrationId e) before ->
     stored this (fs w'') = before).
Proof.
  intros this before kept revertSql Hname Hrun.
  apply createTable_Ok_inv in Hrun as (m & w1 & Hcreate & Hfs & ->).
  pose proof Hcreate as (Em & _ & _)%createMigration_Ok.
  assert (Hsql : generateRevertSql m = Ok revertSql).
  { rewrite Em. by apply generateRevertSql_of_createTable. }
  destruct (reverted_store workingDir e _ _ _ w w1 m Hcreate)
    as (Hid & Hst & Hfile & Hfresh).
  exists m. eexists. split.
  { by eapply (revertMigration_after_createMigration workingDir e table). }
  cbn [fs trace]. subst kept before this. do 5 (split; [done|]).
  intros Hall. rewrite Hst. by apply Hfresh.
Qed.

Lemma createTable_then_revertMigration_witness :
  let e := Demo.entropy_at 1711017000300 (x00, x00, x00, x03) in
  let args := CreateTableParams.mk "notes"
                [ColumnDefinition.mk "id" "SERIAL" None] None in
  let w := Demo.store [Demo.users] [Migration.id Demo.users] in
  let w' := snd (Server.createTable Demo.config (Demo.database accepting) e args w) in
  exists m w'',
    Server.revertMigration Demo.config (Demo.database accepting) None w'
      = (Ok (MigrationReverted m "DROP TABLE IF EXISTS notes"), w'') /\
    stored Demo.config (fs w'') = [Demo.users].
Proof.
  intros e args w w'.
  destruct (createTable_then_revertMigration Demo.workingDir
              (Demo.database accepting) e args w w'
              (TableCreated "CREATE TABLE notes (id SERIAL)"
                 "1711017000300_00000003" "table_1711017000300"))
    as (m & w'' & Hrevert & _ & _ & _ & Hstored & _).
  - reflexivity.
  - reflexivity.
  - exists m, w''. by split.
Defined.



(** *** [PostgresService]: the tools "query" and "execute" *)

Lemma client_query_run {Row} (results : Results Row) client sql w :
  PostgresService.client_query results client sql w =
    (match client (trace w) sql with
     | None => Ok (results (trace w) sql)
     | Some e => Throw e
     end,
     {| fs := fs w; trace := trace w ++ [EvQuery sql (client (trace w) sql)] |}).
Proof. done. Qed.

(** X17. [execute] runs the statement in one transaction and always gives
    the connection back: either BEGIN, the statement and COMMIT are
    accepted and the call returns the command, row count and rows the
    server sent for the statement, or the first rejected statement is
    followed by ROLLBACK and its error is thrown (that of ROLLBACK, should
    ROLLBACK be rejected); in both cases the trace ends with the release of
    the connection, and no file changes.  Without connection nothing
    happens. *)
Theorem execute_is_one_transaction_and_releases
    {Row : Type} (pool : DatabaseService) (results : Results Row)
    (sql : string) (w : World) :
  let run := PostgresService.execute pool results sql w in
  (forall err, getClient_result pool = Throw err -> run = (Throw err, w)) /\
  (forall client, getClient_result pool = Ok client ->
     fs (snd run) = fs w /\
     ((exists result,
         result = results (trace w ++ [EvQuery "BEGIN" None]) sql /\
         fst run = Ok {| command := command result;
                         rowCount := rowCount result;
                         rows := rows result |} /\
         trace (snd run) = trace w ++ transaction sql ++ [EvRelease])
      \/ exists accepted statement err,
           (accepted = [] /\ statement = "BEGIN"
            \/ accepted = [EvQuery "BEGIN" None] /\ statement = sql
            \/ accepted = [EvQuery "BEGIN" None; EvQuery sql None]
               /\ statement = "COMMIT") /\
           client (trace w ++ accepted) statement = Some err /\
           let rollback :=
             client (trace w ++ accepted ++ [EvQuery statement (Some err)])
               "ROLLBACK" in
           trace (snd run) =
             trace w ++ accepted
             ++ [EvQuery statement (Some err); EvQuery "ROLLBACK" rollback;
                 EvRelease] /\
           fst run =
             Throw (match rollback with None => err | Some e' => e' end))).
Proof.
  intros run. subst run. unfold PostgresService.execute, PostgresService.connect.
  rewrite bind_run. unfold lift. split.
  { by intros err ->. }
  intros client ->. unfold try_finally, try_catch.
  rewrite bind_run, query_run.
  destruct (client (trace w) "BEGIN") as [err|] eqn:H1.
  { rewrite rollback_run. cbn [release emit fst snd fs trace]. split; [done|].
    right. exists [], "BEGIN", err. rewrite app_nil_r.
    split; [by left|]. split; [done|]. cbn [app].
    split; [by rewrite <- !app_assoc|done]. }
  rewrite bind_run, client_query_run. cbn [fs trace].
  destruct (client (trace w ++ [EvQuery "BEGIN" None]) sql) as [err|] eqn:H2.
  { rewrite rollback_run. cbn [release emit fst snd fs trace]. split; [done|].
    right. exists [EvQuery "BEGIN" None], sql, err.
    split; [right; by left|]. split; [done|]. cbn [app].
    split; [by rewrite <- !app_assoc|by rewrite <- !app_assoc]. }
  rewrite bind_run, query_run. cbn [fs trace].
  destruct (client ((trace w ++ [EvQuery "BEGIN" None]) ++ [EvQuery sql None])
              "COMMIT") as [err|] eqn:H3.
  - rewrite rollback_run. cbn [release emit fst snd fs trace]. split; [done|].
    right. exists [EvQuery "BEGIN" None; EvQuery sql None], "COMMIT", err.
    split; [right; by right|]. rewrite <- app_assoc in H3. split; [done|].
    cbn [app]. split; by rewrite <- !app_assoc.
  - cbn [ret release emit fst snd fs trace]. split; [done|].
    left. eexists. split; [reflexivity|]. split; [done|].
    by rewrite <- !app_assoc.
Qed.

Lemma rollback_release_run client w :
  (let! _ := query client "ROLLBACK" in release) w =
    match client (trace w) "ROLLBACK" with
    | None =>
        (Ok tt, {| fs := fs w;
                   trace := trace w ++ [EvQuery "ROLLBACK" None; EvRelease] |})
    | Some e =>
        (Throw e, {| fs := fs w;
                     trace := trace w ++ [EvQuery "ROLLBACK" (Some e)] |})
    end.
Proof.
  rewrite bind_run, query_run.
  destruct (client (trace w) "ROLLBACK"); [done|].
  unfold release, emit. cbn [fs trace]. by rewrite <- app_assoc.
Qed.

(** X18. [query] runs the statement in a read-only transaction that it
    always rolls back: it sends BEGIN TRANSACTION READ ONLY, the statement
    if that was accepted, and then ROLLBACK in every case.  When ROLLBACK
    is accepted the connection is released and the outcome is the rows of
    the statement or the first error; when ROLLBACK is rejected its error
    replaces the outcome, even the rows of a successful statement, and the
    connection is never released. *)
Theorem query_is_read_only_and_rolls_back
    {Row : Type} (pool : DatabaseService) (results : Results Row)
    (client : PoolClient) (sql : string) (w : World) :
  getClient_result pool = Ok client ->
  let run := PostgresService.query pool results sql w in
  let begin := client (trace w) "BEGIN TRANSACTION READ ONLY" in
  let began := trace w ++ [EvQuery "BEGIN TRANSACTION READ ONLY" None] in
  let body : list Event * result (list Row) :=
    match begin with
    | Some err => ([EvQuery "BEGIN TRANSACTION READ ONLY" (Some err)], Throw err)
    | None =>
        ([EvQuery "BEGIN TRANSACTION READ ONLY" None;
          EvQuery sql (client began sql)],
         match client began sql with
         | Some err => Throw err
         | None => Ok (rows (results began sql))
         end)
    end in
  let rollback := client (trace w ++ fst body) "ROLLBACK" in
  fs (snd run) = fs w /\
  trace (snd run) =
    trace w ++ fst body ++ EvQuery "ROLLBACK" rollback
                           :: match rollback with
                              | None => [EvRelease]
                              | Some _ => []
                              end /\
  fst run = match rollback with
            | None => snd body
            | Some err => Throw err
            end.
Proof.
  intros Hclient run begin began body rollback.
  subst run. unfold PostgresService.query, PostgresService.connect.
  rewrite bind_run. unfold lift. rewrite Hclient.
  unfold try_finally. rewrite bind_run, query_run. fold begin.
  subst rollback body. destruct begin as [err|]; cbv beta iota.
  - rewrite rollback_release_run. cbn [fst snd fs trace].
    destruct (client _ "ROLLBACK") as [err'|]; cbn [fst snd fs trace];
      by rewrite <- ?app_assoc.
  - rewrite bind_run, client_query_run. cbn [fs trace]. fold began.
    destruct (client began sql) as [err|]; cbv beta iota;
      unfold ret; cbv beta iota;
      rewrite rollback_release_run; cbn [fst snd fs trace];
      subst began; rewrite <- !app_assoc; cbn [app];
      destruct (client _ "ROLLBACK") as [err'|]; cbn [fst snd fs trace];
      by rewrite <- ?app_assoc.
Qed.

Lemma query_is_read_only_and_rolls_back_witness :
  let results : Results string :=
    fun _ _ => {| command := "SELECT"; rowCount := Some 2%Z;
                  rows := ["ada"; "grace"] |} in
  let run := PostgresService.query (Demo.database accepting) results
               "SELECT id FROM users" Demo.bare in
  fs (snd run) = fs Demo.bare /\
  trace (snd run) =
    [EvQuery "BEGIN TRANSACTION READ ONLY" None;
     EvQuery "SELECT id FROM users" None;
     EvQuery "ROLLBACK" None; EvRelease] /\
  fst run = Ok ["ada"; "grace"].
Proof.
  intros results.
  apply (query_is_read_only_and_rolls_back (Demo.database accepting) results
           accepting "SELECT id FROM users" Demo.bare).
  reflexivity.
Defined.



(** *** Identifiers and checksums *)

Lemma length_append (a b : string) :
  String.length (a +:+ b) = String.length a + String.length b.
Proof.
  induction a as [|c a IH]; [done|].
  change (String c a +:+ b) with (String c (a +:+ b)).
  cbn [String.length]. by rewrite IH.
Qed.

(** Strings that end with suffixes of one length split in one way. *)
Lemma append_inj_suffix (a1 : string) : forall a2 s1 s2,
  String.length s1 = String.length s2 ->
  a1 +:+ s1 = a2 +:+ s2 -> a1 = a2 /\ s1 = s2.
Proof.
  induction a1 as [|c a1 IH]; intros [|c' a2] s1 s2 Hlen Heq.
  - done.
  - exfalso. apply (f_equal String.length) in Heq.
    change ("" +:+ s1) with s1 in Heq.
    rewrite length_append in Heq. cbn [String.length] in Heq. lia.
  - exfalso. apply (f_equal String.length) in Heq.
    change ("" +:+ s2) with s2 in Heq.
    rewrite length_append in Heq. cbn [String.length] in Heq. lia.
  - change (String c (a1 +:+ s1) = String c' (a2 +:+ s2)) in Heq.
    injection Heq as -> Heq.
    destruct (IH a2 s1 s2 Hlen Heq) as [-> ->]. done.
Qed.

Lemma append_inv_head (a x y : string) : a +:+ x = a +:+ y -> x = y.
Proof.
  induction a as [|c a IH]; [done|].
  change (String c (a +:+ x) = String c (a +:+ y) -> x = y).
  intros [= H]. by apply IH.
Qed.

Lemma digit_char_inj d1 d2 :
  (d1 < 10)%N -> (d2 < 10)%N -> Js.digit_char d1 = Js.digit_char d2 -> d1 = d2.
Proof.
  intros H1 H2 Heq. apply (f_equal N_of_ascii) in Heq. unfold Js.digit_char in Heq.
  rewrite !N_ascii_embedding in Heq by lia. lia.
Qed.

Lemma string_of_digits_inj a : forall b,
  Forall (fun d => (d < 10)%N) a -> Forall (fun d => (d < 10)%N) b ->
  Js.string_of_digits a = Js.string_of_digits b -> a = b.
Proof.
  unfold Js.string_of_digits.
  induction a as [|d1 a IH]; intros [|d2 b] Ha Hb Heq; try done.
  inversion Ha; inversion Hb; subst. cbn in Heq. injection Heq as Hd Heq.
  f_equal; [by apply digit_char_inj|by apply IH].
Qed.

Lemma N_toString_inj n1 n2 : Js.N_toString n1 = Js.N_toString n2 -> n1 = n2.
Proof.
  unfold Js.N_toString. intros Heq.
  apply string_of_digits_inj in Heq;
    [|apply Forall_rev, digits_le_small|apply Forall_rev, digits_le_small].
  apply (f_equal (@rev N)) in Heq. rewrite !rev_involutive in Heq.
  apply (f_equal value_le) in Heq.
  by rewrite !digits_le_value in Heq by apply enough_fuel.
Qed.

(** A decimal numeral begins with a digit. *)
Lemma N_toString_head n :
  exists d rest, (d < 10)%N /\ Js.N_toString n = String (Js.digit_char d) rest.
Proof.
  unfold Js.N_toString.
  pose proof (digits_le_small (S (N.to_nat (N.log2 n))) n) as Hall.
  apply Forall_rev in Hall.
  destruct (rev (Js.digits_le (S (N.to_nat (N.log2 n))) n)) as [|d l] eqn:E.
  - apply (f_equal (@length N)) in E. rewrite length_rev in E. cbn in E.
    destruct (_ =? _)%N in E; discriminate E.
  - inversion Hall; subst. by exists d, (Js.string_of_digits l).
Qed.

Lemma toString_inj z1 z2 : Js.toString z1 = Js.toString z2 -> z1 = z2.
Proof.
  assert (Hminus : forall n p,
            Js.N_toString n <> "-" +:+ Js.N_toString (Npos p)).
  { intros n p Heq. destruct (N_toString_head n) as (d & rest & Hd & E).
    rewrite E in Heq.
    change (String (Js.digit_char d) rest
            = String "-"%char (Js.N_toString (Npos p))) in Heq.
    injection Heq as Heq _.
    apply (f_equal N_of_ascii) in Heq. unfold Js.digit_char in Heq.
    rewrite N_ascii_embedding in Heq by lia. cbn in Heq. lia. }
  destruct z1 as [|p1|p1], z2 as [|p2|p2]; cbn [Js.toString]; intros Heq;
    try (by apply N_toString_inj in Heq);
    try (apply N_toString_inj in Heq; cbn in Heq; by injection Heq as ->);
    try (by apply Hminus in Heq);
    try (symmetry in Heq; by apply Hminus in Heq).
  change (String "-"%char (Js.N_toString (Npos p1))
          = String "-"%char (Js.N_toString (Npos p2))) in Heq.
  injection Heq as Heq. apply N_toString_inj in Heq. by injection Heq as ->.
Qed.

Lemma hex_of_N8_inj (b1 b2 : byte) :
  Js.hex_of_N8 (Byte.to_N b1) = Js.hex_of_N8 (Byte.to_N b2) -> b1 = b2.
Proof.
  intros Heq.
  assert (Hdec : forall b : byte,
            Byte.of_N
              (match Js.hex_of_N8 (Byte.to_N b) with
               | String h (String l _) =>
                   let v c := let n := N_of_ascii c in
                              if (n <? 58)%N then (n - 48)%N else (n - 87)%N in
                   (16 * v h + v l)%N
               | _ => 0%N
               end) = Some b).
  { intros b. destruct b; vm_compute; reflexivity. }
  pose proof (Hdec b1) as H1. rewrite Heq, Hdec in H1. by injection H1.
Qed.

Lemma length_hex_of_N8 n : String.length (Js.hex_of_N8 n) = 2.
Proof. done. Qed.

(** X19. Two identifiers are equal only when both the clock reading and
    the four random bytes are: [generateMigrationId] loses nothing of
    either, so two calls can collide (and then share one SQL file) only
    within one millisecond and with the same random bytes. *)
Theorem generateMigrationId_is_injective (e1 e2 : Entropy) :
  generateMigrationId e1 = generateMigrationId e2 <->
  now_id e1 = now_id e2 /\ random4 e1 = random4 e2.
Proof.
  unfold generateMigrationId.
  destruct (random4 e1) as [[[a0 a1] a2] a3].
  destruct (random4 e2) as [[[b0 b1] b2] b3].
  split; [|by intros [-> [= -> -> -> ->]]].
  intros Heq. apply append_inj_suffix in Heq as [Ht Hx]; [|done].
  apply toString_inj in Ht. split; [done|].
  apply (append_inv_head "_") in Hx.
  change (Js.hex_of_N8 (Byte.to_N a0) +:+
            (Js.hex_of_N8 (Byte.to_N a1) +:+
               (Js.hex_of_N8 (Byte.to_N a2) +:+
                  (Js.hex_of_N8 (Byte.to_N a3) +:+ ""))) =
          Js.hex_of_N8 (Byte.to_N b0) +:+
            (Js.hex_of_N8 (Byte.to_N b1) +:+
               (Js.hex_of_N8 (Byte.to_N b2) +:+
                  (Js.hex_of_N8 (Byte.to_N b3) +:+ "")))) in Hx.
  apply append_inj_suffix in Hx as [H0 Hx]; [|done].
  apply append_inj_suffix in Hx as [H1 Hx]; [|done].
  apply append_inj_suffix in Hx as [H2 H3]; [|done].
  apply hex_of_N8_inj in H0, H1, H2.
  assert (a3 = b3) as ->.
  { apply hex_of_N8_inj. by destruct (append_inj_suffix _ _ "" "" eq_refl H3). }
  by subst.
Qed.

Lemma contains_append c (a b : string) :
  contains c (a +:+ b) = contains c a || contains c b.
Proof.
  induction a as [|c' a IH]; [done|].
  change (String c' a +:+ b) with (String c' (a +:+ b)).
  cbn [contains]. by rewrite IH, orb_assoc.
Qed.

Lemma hex_char_lowercase d :
  (d < 16)%N -> contains (Js.hex_char d) "0123456789abcdef" = true.
Proof.
  intros Hd. assert (Hn : exists n, d = N.of_nat n /\ n < 16).
  { exists (N.to_nat d). lia. }
  destruct Hn as (n & -> & Hn).
  do 16 (destruct n as [|n]; [reflexivity|]). lia.
Qed.

Lemma digit_char_decimal d :
  (d < 10)%N -> contains (Js.digit_char d) "0123456789" = true.
Proof.
  intros Hd. assert (Hn : exists n, d = N.of_nat n /\ n < 10).
  { exists (N.to_nat d). lia. }
  destruct Hn as (n & -> & Hn).
  do 10 (destruct n as [|n]; [reflexivity|]). lia.
Qed.

Lemma contains_eq c c' s : contains c' s = true -> c = c' -> contains c s = true.
Proof. by intros H ->. Qed.

Lemma contains_weaken c (a b : string) :
  contains c b = true -> contains c (a +:+ b) = true.
Proof. intros H. rewrite contains_append, H. apply orb_true_r. Qed.

Lemma hex_of_N8_lowercase n c :
  (n < 256)%N -> contains c (Js.hex_of_N8 n) = true ->
  contains c "0123456789abcdef" = true.
Proof.
  intros Hn. unfold Js.hex_of_N8. cbn [contains]. rewrite orb_false_r.
  intros [H|H]%orb_true_iff; apply Ascii.eqb_eq in H; subst c;
    apply hex_char_lowercase.
  - apply N.Div0.div_lt_upper_bound. lia.
  - apply N.mod_lt. lia.
Qed.

Lemma N_toString_decimal n c :
  contains c (Js.N_toString n) = true -> contains c "0123456789" = true.
Proof.
  unfold Js.N_toString, Js.string_of_digits.
  pose proof (digits_le_small (S (N.to_nat (N.log2 n))) n) as Hall.
  apply Forall_rev in Hall.
  induction Hall as [|d l Hd _ IH]; [done|].
  cbn [map string_of_list_ascii contains].
  intros [H|H]%orb_true_iff; [|by apply IH].
  apply Ascii.eqb_eq in H. subst c. by apply digit_char_decimal.
Qed.

(** X20. An identifier is made of decimal digits, one underscore and
    eight lowercase hexadecimal digits (with a minus sign before a
    negative clock reading): no other character occurs, so none that
    separates path components, and [<id>.sql] names a file directly inside
    the migrations directory. *)
Theorem generateMigrationId_characters (e : Entropy) (c : ascii) :
  contains c (generateMigrationId e) = true ->
  contains c "-_0123456789abcdef" = true /\ c <> "/"%char /\ c <> "."%char.
Proof.
  intros H.
  assert (Hc : contains c "-_0123456789abcdef" = true).
  { assert (Hdec : contains c "0123456789" = true ->
                   contains c "-_0123456789abcdef" = true).
    { intros H0.
      change "-_0123456789abcdef" with ("-_" +:+ "0123456789" +:+ "abcdef").
      rewrite !contains_append, H0. by rewrite orb_true_r. }
    assert (Hhex : contains c "0123456789abcdef" = true ->
                   contains c "-_0123456789abcdef" = true).
    { apply (contains_weaken c "-_"). }
    unfold generateMigrationId in H.
    destruct (random4 e) as [[[b0 b1] b2] b3].
    rewrite !contains_append in H.
    apply orb_true_iff in H as [H|H]; [|apply orb_true_iff in H as [H|H]].
    - destruct (now_id e) as [|p|p]; cbn [Js.toString] in H.
      + by apply Hdec, (N_toString_decimal 0).
      + by apply Hdec, (N_toString_decimal (Z.to_N (Z.pos p))).
      + rewrite contains_append in H. apply orb_true_iff in H as [H|H].
        * change "-_0123456789abcdef" with ("-" +:+ "_0123456789abcdef").
          rewrite contains_append, H. done.
        * by apply Hdec, (N_toString_decimal (Npos p)).
    - change "-_0123456789abcdef" with ("-" +:+ "_" +:+ "0123456789abcdef").
      rewrite !contains_append, H. by rewrite orb_true_r.
    - apply Hhex. cbn [Js.hex_of_bytes fold_right] in H.
      rewrite !contains_append in H.
      apply orb_true_iff in H as [H|H];
        [|apply orb_true_iff in H as [H|H];
          [|apply orb_true_iff in H as [H|H];
            [|apply orb_true_iff in H as [H|H]; [|done]]]];
        (eapply hex_of_N8_lowercase; [|exact H]);
        match goal with |- (Byte.to_N ?b < 256)%N =>
          pose proof (Byte.to_N_bounded b); lia end. }
  split; [done|]. split; intros ->; discriminate Hc.
Qed.

Lemma generateMigrationId_characters_witness :
  contains "d" "-_0123456789abcdef" = true /\ "d"%char <> "/"%char
  /\ "d"%char <> "."%char.
Proof.
  apply (generateMigrationId_characters
           (Demo.entropy_at 1711017000000 (x0a, x0b, x0c, x0d))).
  reflexivity.
Defined.

Lemma length_round st kw : length (Sha256.round st kw) = length st.
Proof.
  unfold Sha256.round.
  do 9 (destruct st as [|? st]; try reflexivity).
Qed.

Lemma length_rounds kws : forall st,
  length (fold_left Sha256.round kws st) = length st.
Proof.
  induction kws as [|kw kws IH]; intros st; [done|].
  cbn [fold_left]. by rewrite IH, length_round.
Qed.

Lemma length_compress h block : length (Sha256.compress h block) = length h.
Proof.
  unfold Sha256.compress.
  rewrite length_map, length_combine, length_rounds. lia.
Qed.

Lemma length_digest msg : length (Sha256.digest msg) = 8.
Proof.
  unfold Sha256.digest.
  generalize (Sha256.blocks
                (length (Sha256.words_be (Sha256.padding msg)) / 16)
                (Sha256.words_be (Sha256.padding msg))).
  assert (H : length Sha256.H0 = 8) by reflexivity. revert H.
  generalize Sha256.H0. intros h H l. revert h H.
  induction l as [|b l IH]; intros h H; [done|].
  cbn [fold_left]. apply IH. by rewrite length_compress.
Qed.

Lemma land_byte x : (Z.to_N (Z.land x 255) < 256)%N.
Proof.
  change 255%Z with (Z.ones 8). rewrite Z.land_ones by lia.
  pose proof (Z.mod_pos_bound x (2 ^ 8) ltac:(lia)). lia.
Qed.

(** The hexadecimal rendering of a list of words. *)
Lemma hex_words_shape (ws : list Z) :
  let s :=
    fold_right
      (fun w acc =>
         fold_right (fun b acc' => Js.hex_of_N8 (Z.to_N b) +:+ acc') acc
                    (Sha256.be_bytes 4 w))
      "" ws in
  String.length s = 8 * length ws /\
  forall c, contains c s = true -> contains c "0123456789abcdef" = true.
Proof.
  induction ws as [|w ws [IHlen IHc]]; [done|].
  cbn [fold_right Sha256.be_bytes app length].
  set (rest := fold_right _ "" ws) in *. split.
  - rewrite !length_append, !length_hex_of_N8, IHlen. lia.
  - intros c. rewrite !contains_append.
    intros H.
    apply orb_true_iff in H as [H|H];
      [|apply orb_true_iff in H as [H|H];
        [|apply orb_true_iff in H as [H|H];
          [|apply orb_true_iff in H as [H|H]; [|by apply IHc]]]];
      (eapply hex_of_N8_lowercase; [|exact H]);
      apply land_byte.
Qed.

(** X21. The checksum of any SQL text is a string of exactly 64 lowercase
    hexadecimal digits. *)
Theorem generateChecksum_is_64_hex_digits (sql : string) :
  String.length (generateChecksum sql) = 64 /\
  forall c, contains c (generateChecksum sql) = true ->
            contains c "0123456789abcdef" = true.
Proof.
  unfold generateChecksum, Sha256.hex.
  destruct (hex_words_shape (Sha256.digest (Js.utf8 sql))) as [Hlen Hc].
  cbv zeta in Hlen, Hc. split; [|exact Hc].
  by rewrite Hlen, length_digest.
Qed.




(** *** The builders and the revert statements *)

Lemma append_cons c (a b : string) : String c a +:+ b = String c (a +:+ b).
Proof. done. Qed.

Lemma append_nil (b : string) : "" +:+ b = b.
Proof. done. Qed.

(** A run of [p] that is followed by the end of the input or by a code
    unit outside [p] is taken whole by the greedy [+]. *)
Lemma plus_greedy_token {R} (p : ascii -> bool) (name : string) :
  forall (rest : string) (k : string -> option R) (r : R),
  name <> "" ->
  (forall c, contains c name = true -> p c = true) ->
  match rest with String c _ => p c = false | EmptyString => True end ->
  k rest = Some r ->
  Regex.plus_greedy p (name +:+ rest) k = Some r.
Proof.
  induction name as [|c name IH]; intros rest k r Hne Hall Hrest Hk; [done|].
  rewrite append_cons. cbn [Regex.plus_greedy].
  rewrite (Hall c) by (cbn; by rewrite Ascii.eqb_refl).
  destruct name as [|c' name'].
  - rewrite append_nil.
    assert (Hnone : Regex.plus_greedy p rest k = None).
    { destruct rest as [|c0 rest0]; [done|]. cbn. by rewrite Hrest. }
    by rewrite Hnone.
  - rewrite (IH rest k r); try done.
    intros c0 Hc0. apply Hall.
    change (Ascii.eqb c c0 || contains c0 (String c' name') = true).
    rewrite Hc0. apply orb_true_r.
Qed.

Lemma substring_prefix (a b : string) :
  substring 0 (String.length a) (a +:+ b) = a.
Proof.
  induction a as [|c a IH]; [by destruct b|].
  rewrite append_cons. cbn [String.length substring]. by rewrite IH.
Qed.

Lemma consumed_prefix (a rest : string) : Regex.consumed (a +:+ rest) rest = a.
Proof.
  unfold Regex.consumed. rewrite length_append.
  replace (String.length a + String.length rest - String.length rest)
    with (String.length a) by lia.
  apply substring_prefix.
Qed.

Lemma exec_skip r c s :
  Regex.run (Regex.Group 0 r) (String c s) [] (fun _ caps => Some caps) = None ->
  Regex.exec r (String c s) = Regex.exec r s.
Proof. intros H. cbn [Regex.exec]. by rewrite H. Qed.

Lemma exec_here r s caps :
  Regex.run (Regex.Group 0 r) s [] (fun _ caps => Some caps) = Some caps ->
  Regex.exec r s = Some caps.
Proof. intros H. destruct s; cbn [Regex.exec]; by rewrite H. Qed.

Lemma run_lit (w : string) : forall s caps k,
  Regex.run (Regex.lit w) (w +:+ s) caps k = k s caps.
Proof.
  induction w as [|c w IH]; intros s caps k; [done|].
  rewrite append_cons. cbn [Regex.lit Regex.run].
  by rewrite Ascii.eqb_refl, IH.
Qed.

Lemma run_opt_some r s caps k res :
  Regex.run r s caps k = Some res -> Regex.run (Regex.Opt r) s caps k = Some res.
Proof. intros H. cbn [Regex.run]. by rewrite H. Qed.

Lemma run_opt_none r s caps k :
  Regex.run r s caps k = None -> Regex.run (Regex.Opt r) s caps k = k s caps.
Proof. intros H. cbn [Regex.run]. by rewrite H. Qed.

Lemma run_plus p (name rest : string) caps k res :
  name <> "" ->
  (forall c, contains c name = true -> p c = true) ->
  match rest with String c _ => p c = false | EmptyString => True end ->
  k rest caps = Some res ->
  Regex.run (Regex.Plus p) (name +:+ rest) caps k = Some res.
Proof. intros. cbn [Regex.run]. by apply plus_greedy_token. Qed.

Lemma opt_some {A} (x alt : option A) (r : A) :
  x = Some r ->
  match x with Some res => Some res | None => alt end = Some r.
Proof. by intros ->. Qed.

Lemma opt_none {A} (x alt : option A) (r : A) :
  x = None -> alt = Some r ->
  match x with Some res => Some res | None => alt end = Some r.
Proof. by intros -> ->. Qed.

Lemma contains_singleton c c0 :
  contains c (String c0 "") = true -> c = c0.
Proof.
  cbn [contains]. rewrite orb_false_r. intros H. by apply Ascii.eqb_eq in H.
Qed.

Lemma not_space_paren_space c :
  Regex.not_space_paren c = true -> Regex.space c = false.
Proof.
  unfold Regex.not_space_paren. intros [H _]%andb_true_iff.
  by apply negb_true_iff in H.
Qed.

Lemma not_space_space c : Regex.not_space c = true -> Regex.space c = false.
Proof. unfold Regex.not_space. by intros H%negb_true_iff. Qed.

(** The blanks of the templates: one or two spaces before a word. *)
Ltac blanks :=
  match goal with
  | |- Regex.plus_greedy Regex.space (?b +:+ ?rest) ?k = Some ?r =>
      apply (plus_greedy_token Regex.space b rest k r);
      [ discriminate
      | let c := fresh "c" in let H := fresh "H" in
        intros c H; cbn [contains] in H;
        repeat (apply orb_true_iff in H as [H|H];
                [apply Ascii.eqb_eq in H; subst c; reflexivity|]);
        discriminate H
      | try reflexivity
      | cbv beta ]
  end.

(** The head of a token that follows a blank. *)
Lemma token_head p (name rest : string) :
  name <> "" ->
  (forall c, contains c name = true -> p c = true) ->
  (forall c, p c = true -> Regex.space c = false) ->
  match name +:+ rest with
  | String c _ => Regex.space c = false
  | EmptyString => True
  end.
Proof.
  intros Hne Hall Hp. destruct name as [|c name]; [done|].
  rewrite append_cons. apply Hp, Hall. cbn [contains].
  by rewrite Ascii.eqb_refl.
Qed.

Lemma function_re_at name rest :
  name <> "" ->
  (forall c, contains c name = true -> Regex.not_space_paren c = true) ->
  Regex.run (Regex.Group 0 Regex.function_re)
    ("CREATE OR REPLACE FUNCTION " +:+ name +:+ "(" +:+ rest) []
    (fun _ caps => Some caps)
  = Some [(0%nat, "CREATE OR REPLACE FUNCTION " +:+ name); (1%nat, name)].
Proof.
  intros Hne Hall.
  change ("CREATE OR REPLACE FUNCTION " +:+ name +:+ "(" +:+ rest)
    with ("CREATE" +:+ " " +:+ "OR" +:+ " " +:+ "REPLACE" +:+ " "
          +:+ "FUNCTION" +:+ " " +:+ name +:+ "(" +:+ rest).
  unfold Regex.function_re, Regex.seq. cbn [fold_right Regex.run].
  rewrite run_lit. blanks. apply opt_some. rewrite run_lit. blanks.
  rewrite run_lit. blanks. rewrite run_lit. blanks.
  { apply (token_head Regex.not_space_paren); try done.
    apply not_space_paren_space. }
  apply plus_greedy_token; try done.
  rewrite consumed_prefix.
  change ("CREATE" +:+ " " +:+ "OR" +:+ " " +:+ "REPLACE" +:+ " "
          +:+ "FUNCTION" +:+ " " +:+ name +:+ "(" +:+ rest)
    with (("CREATE OR REPLACE FUNCTION " +:+ name) +:+ "(" +:+ rest).
  by rewrite consumed_prefix.
Qed.

(** The revert statement of a function built by [createFunction]. *)
Lemma generateRevertSql_of_createFunction
    params id name timestamp description checksum :
  CreateFunctionParams.name params <> "" ->
  (forall c, contains c (CreateFunctionParams.name params) = true ->
             Regex.not_space_paren c = true) ->
  generateRevertSql
    (Migration.mk id name timestamp (Builders.createFunction params) function
       description checksum)
  = Ok ("DROP FUNCTION IF EXISTS " +:+ CreateFunctionParams.name params).
Proof.
  intros Hne Hall. unfold generateRevertSql, match_group.
  cbn [Migration.type Migration.sql]. unfold Builders.createFunction.
  set (rest := CreateFunctionParams.parameters params +:+ _).
  change (Builders.nl +:+ "      CREATE OR REPLACE FUNCTION "
          +:+ CreateFunctionParams.name params +:+ "(" +:+ rest)
    with (String (ascii_of_nat 10)
            (String " " (String " " (String " " (String " " (String " "
              (String " "
                 ("CREATE OR REPLACE FUNCTION "
                  +:+ CreateFunctionParams.name params +:+ "(" +:+ rest)))))))).
  do 7 (rewrite exec_skip by reflexivity).
  rewrite (exec_here _ _ _ (function_re_at _ rest Hne Hall)).
  cbn [Regex.group Nat.eqb].
  by destruct (CreateFunctionParams.name params).
Qed.

Lemma index_re_unique name rest :
  name <> "" ->
  (forall c, contains c name = true -> Regex.not_space c = true) ->
  match rest with String c _ => Regex.not_space c = false | EmptyString => True end ->
  Regex.run (Regex.Group 0 Regex.index_re)
    ("CREATE UNIQUE INDEX " +:+ name +:+ rest) [] (fun _ caps => Some caps)
  = Some [(0%nat, "CREATE UNIQUE INDEX " +:+ name); (1%nat, name)].
Proof.
  intros Hne Hall Hrest.
  change ("CREATE UNIQUE INDEX " +:+ name +:+ rest)
    with ("CREATE" +:+ " " +:+ "UNIQUE" +:+ " " +:+ "INDEX" +:+ " "
          +:+ name +:+ rest).
  unfold Regex.index_re, Regex.seq. cbn [fold_right Regex.run].
  rewrite run_lit. blanks. apply opt_some. rewrite run_lit. blanks.
  rewrite run_lit. blanks.
  { apply (token_head Regex.not_space); try done. apply not_space_space. }
  apply plus_greedy_token; try done.
  rewrite consumed_prefix.
  change ("CREATE" +:+ " " +:+ "UNIQUE" +:+ " " +:+ "INDEX" +:+ " "
          +:+ name +:+ rest)
    with (("CREATE UNIQUE INDEX " +:+ name) +:+ rest).
  by rewrite consumed_prefix.
Qed.

Lemma index_re_plain name rest :
  name <> "" ->
  (forall c, contains c name = true -> Regex.not_space c = true) ->
  match rest with String c _ => Regex.not_space c = false | EmptyString => True end ->
  Regex.run (Regex.Group 0 Regex.index_re)
    ("CREATE  INDEX " +:+ name +:+ rest) [] (fun _ caps => Some caps)
  = Some [(0%nat, "CREATE  INDEX " +:+ name); (1%nat, name)].
Proof.
  intros Hne Hall Hrest.
  change ("CREATE  INDEX " +:+ name +:+ rest)
    with ("CREATE" +:+ "  " +:+ "INDEX" +:+ " " +:+ name +:+ rest).
  unfold Regex.index_re, Regex.seq. cbn [fold_right Regex.run].
  rewrite run_lit. blanks. apply opt_none; [reflexivity|].
  rewrite run_lit. blanks.
  { apply (token_head Regex.not_space); try done. apply not_space_space. }
  apply plus_greedy_token; try done.
  rewrite consumed_prefix.
  change ("CREATE" +:+ "  " +:+ "INDEX" +:+ " " +:+ name +:+ rest)
    with (("CREATE  INDEX " +:+ name) +:+ rest).
  by rewrite consumed_prefix.
Qed.

(** The revert statement of an index built by [createIndex]. *)
Lemma generateRevertSql_of_createIndex
    params id name timestamp description checksum :
  CreateIndexParams.indexName params <> "" ->
  (forall c, contains c (CreateIndexParams.indexName params) = true ->
             Regex.not_space c = true) ->
  generateRevertSql
    (Migration.mk id name timestamp (Builders.createIndex params) index
       description checksum)
  = Ok ("DROP INDEX IF EXISTS " +:+ CreateIndexParams.indexName params).
Proof.
  intros Hne Hall. unfold generateRevertSql, match_group.
  cbn [Migration.type Migration.sql]. unfold Builders.createIndex.
  cbv zeta.
  set (rest := Builders.nl +:+ "      ON " +:+ _).
  assert (Hrest : match rest with
                  | String c _ => Regex.not_space c = false
                  | EmptyString => True
                  end) by reflexivity.
  destruct (CreateIndexParams.unique params) as [[|]|].
  - change (Builders.nl +:+ "      CREATE " +:+ "UNIQUE" +:+ " INDEX "
            +:+ CreateIndexParams.indexName params +:+ rest)
      with (String (ascii_of_nat 10)
              (String " " (String " " (String " " (String " " (String " "
                (String " "
                   ("CREATE UNIQUE INDEX "
                    +:+ CreateIndexParams.indexName params +:+ rest)))))))).
    do 7 (rewrite exec_skip by reflexivity).
    rewrite (exec_here _ _ _ (index_re_unique _ rest Hne Hall Hrest)).
    cbn [Regex.group Nat.eqb].
    by destruct (CreateIndexParams.indexName params).
  - change (Builders.nl +:+ "      CREATE " +:+ "" +:+ " INDEX "
            +:+ CreateIndexParams.indexName params +:+ rest)
      with (String (ascii_of_nat 10)
              (String " " (String " " (String " " (String " " (String " "
                (String " "
                   ("CREATE  INDEX "
                    +:+ CreateIndexParams.indexName params +:+ rest)))))))).
    do 7 (rewrite exec_skip by reflexivity).
    rewrite (exec_here _ _ _ (index_re_plain _ rest Hne Hall Hrest)).
    cbn [Regex.group Nat.eqb].
    by destruct (CreateIndexParams.indexName params).
  - change (Builders.nl +:+ "      CREATE " +:+ "" +:+ " INDEX "
            +:+ CreateIndexParams.indexName params +:+ rest)
      with (String (ascii_of_nat 10)
              (String " " (String " " (String " " (String " " (String " "
                (String " "
                   ("CREATE  INDEX "
                    +:+ CreateIndexParams.indexName params +:+ rest)))))))).
    do 7 (rewrite exec_skip by reflexivity).
    rewrite (exec_here _ _ _ (index_re_plain _ rest Hne Hall Hrest)).
    cbn [Regex.group Nat.eqb].
    by destruct (CreateIndexParams.indexName params).
Qed.

(** A normal return of a schema tool has written the record. *)
Ltac tool_Ok_inv :=
  rewrite bind_run;
  match goal with
  | |- context [createMigration ?this ?e ?type ?sql ?d ?w] =>
      destruct (createMigration this e type sql d w) as [[?|?] ?]; [|done]
  end;
  rewrite bind_run; unfold Server.getClient, lift;
  match goal with
  | |- context [getClient_result ?db] =>
      destruct (getClient_result db) as [?|?]; [|done]
  end;
  rewrite try_finally_applyMigration;
  match goal with
  | |- context [applyMigration ?c ?m ?w1] =>
      let Hfs := fresh "Hfs" in
      pose proof (applyMigration_fs c m w1) as Hfs;
      destruct (applyMigration c m w1) as [[[]|?] ?]; [|done];
      intros [= <- <-]; by exists m, w1
  end.

Lemma createFunction_Ok_inv this db e args w response w' :
  Tools.createFunction this db e args w = (Ok response, w') ->
  exists m w1,
    createMigration this e function (Builders.createFunction args)
      (Some ("Create function " +:+ CreateFunctionParams.name args)) w
      = (Ok m, w1) /\
    fs w' = fs w1 /\
    response = Created "Function created successfully"
                 (Builders.createFunction args)
                 (Migration.id m) (Migration.name m).
Proof. unfold Tools.createFunction. tool_Ok_inv. Qed.

Lemma createIndex_Ok_inv this db e args w response w' :
  Tools.createIndex this db e args w = (Ok response, w') ->
  exists m w1,
    createMigration this e index (Builders.createIndex args)
      (Some ("Create index " +:+ CreateIndexParams.indexName args)) w
      = (Ok m, w1) /\
    fs w' = fs w1 /\
    response = Created "Index created successfully"
                 (Builders.createIndex args)
                 (Migration.id m) (Migration.name m).
Proof. unfold Tools.createIndex. tool_Ok_inv. Qed.

(** X22. Creating a function and reverting it is a round trip: after
    "createFunction" has returned for a non-empty function name without
    white space or parenthesis, a "revertMigration" without id on a server
    that accepts every statement commits DROP FUNCTION IF EXISTS for that
    name, and leaves the index with the records it held before, less those
    that had the id of the call (none, unless clock reading and random
    bytes coincided), and without the SQL file of the call. *)
Theorem createFunction_then_revertMigration
    (workingDir : path) (db : DatabaseService) (e : Entropy)
    (args : CreateFunctionParams.t) (w w' : World) (response : SchemaResponse) :
  let this := getMigrationConfig workingDir in
  let before := stored this (fs (snd (ensureMigrationsDir this w))) in
  let kept :=
    filter (fun x => Migration.id x <> generateMigrationId e) before in
  let revertSql :=
    "DROP FUNCTION IF EXISTS " +:+ CreateFunctionParams.name args in
  CreateFunctionParams.name args <> "" ->
  (forall c, contains c (CreateFunctionParams.name args) = true ->
             Regex.not_space_paren c = true) ->
  Tools.createFunction this db e args w = (Ok response, w') ->
  exists m w'',
    Server.revertMigration this {| getClient_result := Ok accepting |} None w'
      = (Ok (MigrationReverted m revertSql), w'') /\
    response = Created "Function created successfully"
                 (Builders.createFunction args)
                 (Migration.id m) (Migration.name m) /\
    Migration.id m = generateMigrationId e /\
    trace w'' =
      trace w' ++ transaction revertSql
      ++ [EvWriteFile (metadataFile this) (Json {| migrations := kept |});
          EvUnlink (sqlFile this (Migration.id m));
          EvRelease] /\
    stored this (fs w'') = kept /\
    file_at (fs w'') (sqlFile this (Migration.id m)) = None /\
    (Forall (fun x => Migration.id x <> generateMigrationId e) before ->
     stored this (fs w'') = before).
Proof.
  intros this before kept revertSql Hne Hname Hrun.
  apply createFunction_Ok_inv in Hrun as (m & w1 & Hcreate & Hfs & ->).
  pose proof Hcreate as (Em & _ & _)%createMigration_Ok.
  assert (Hsql : generateRevertSql m = Ok revertSql).
  { rewrite Em. by apply generateRevertSql_of_createFunction. }
  destruct (reverted_store workingDir e _ _ _ w w1 m Hcreate)
    as (Hid & Hst & Hfile & Hfresh).
  exists m. eexists. split.
  { by eapply (revertMigration_after_createMigration workingDir e function). }
  cbn [fs trace]. subst kept before this. do 5 (split; [done|]).
  intros Hall. rewrite Hst. by apply Hfresh.
Qed.

Lemma createFunction_then_revertMigration_witness :
  let e := Demo.entropy_at 1711017000300 (x00, x00, x00, x03) in
  let args := CreateFunctionParams.mk "touch" "" "trigger" "plpgsql"
                "BEGIN NEW.updated := now(); RETURN NEW; END;" None in
  let w := Demo.store [Demo.users] [Migration.id Demo.users] in
  let w' := snd (Tools.createFunction Demo.config (Demo.database accepting)
                   e args w) in
  exists m w'',
    Server.revertMigration Demo.config (Demo.database accepting) None w'
      = (Ok (MigrationReverted m "DROP FUNCTION IF EXISTS touch"), w'') /\
    stored Demo.config (fs w'') = [Demo.users].
Proof.
  intros e args w w'.
  destruct (createFunction_then_revertMigration Demo.workingDir
              (Demo.database accepting) e args w w'
              (Created "Function created successfully"
                 (Builders.createFunction args)
                 "1711017000300_00000003" "function_1711017000300"))
    as (m & w'' & Hrevert & _ & _ & _ & Hstored & _).
  - discriminate.
  - intros c H. cbn [CreateFunctionParams.name args contains] in H.
    repeat (apply orb_true_iff in H as [H|H];
            [apply Ascii.eqb_eq in H; subst c; reflexivity|]).
    discriminate H.
  - reflexivity.
  - exists m, w''. by split.
Defined.

(** X23. Creating an index and reverting it is a round trip: after
    "createIndex" has returned for a non-empty index name without white
    space, unique or not, a "revertMigration" without id on a server that
    accepts every statement commits DROP INDEX IF EXISTS for that name, and
    leaves the index file with the records it held before, less those that
    had the id of the call (none, unless clock reading and random bytes
    coincided), and without the SQL file of the call. *)
Theorem createIndex_then_revertMigration
    (workingDir : path) (db : DatabaseService) (e : Entropy)
    (args : CreateIndexParams.t) (w w' : World) (response : SchemaResponse) :
  let this := getMigrationConfig workingDir in
  let before := stored this (fs (snd (ensureMigrationsDir this w))) in
  let kept :=
    filter (fun x => Migration.id x <> generateMigrationId e) before in
  let revertSql :=
    "DROP INDEX IF EXISTS " +:+ CreateIndexParams.indexName args in
  CreateIndexParams.indexName args <> "" ->
  (forall c, contains c (CreateIndexParams.indexName args) = true ->
             Regex.not_space c = true) ->
  Tools.createIndex this db e args w = (Ok response, w') ->
  exists m w'',
    Server.revertMigration this {| getClient_result := Ok accepting |} None w'
      = (Ok (MigrationReverted m revertSql), w'') /\
    response = Created "Index created successfully"
                 (Builders.createIndex args)
                 (Migration.id m) (Migration.name m) /\
    Migration.id m = generateMigrationId e /\
    trace w'' =
      trace w' ++ transaction revertSql
      ++ [EvWriteFile (metadataFile this) (Json {| migrations := kept |});
          EvUnlink (sqlFile this (Migration.id m));
          EvRelease] /\
    stored this (fs w'') = kept /\
    file_at (fs w'') (sqlFile this (Migration.id m)) = None /\
    (Forall (fun x => Migration.id x <> generateMigrationId e) before ->
     stored this (fs w'') = before).
Proof.
  intros this before kept revertSql Hne Hname Hrun.
  apply createIndex_Ok_inv in Hrun as (m & w1 & Hcreate & Hfs & ->).
  pose proof Hcreate as (Em & _ & _)%createMigration_Ok.
  assert (Hsql : generateRevertSql m = Ok revertSql).
  { rewrite Em. by apply generateRevertSql_of_createIndex. }
  destruct (reverted_store workingDir e _ _ _ w w1 m Hcreate)
    as (Hid & Hst & Hfile & Hfresh).
  exists m. eexists. split.
  { by eapply (revertMigration_after_createMigration workingDir e index). }
  cbn [fs trace]. subst kept before this. do 5 (split; [done|]).
  intros Hall. rewrite Hst. by apply Hfresh.
Qed.

Lemma createIndex_then_revertMigration_witness :
  let e := Demo.entropy_at 1711017000300 (x00, x00, x00, x03) in
  let args := CreateIndexParams.mk "users" "users_id" ["id"] (Some true)
                None None in
  let w := Demo.store [Demo.users] [Migration.id Demo.users] in
  let w' := snd (Tools.createIndex Demo.config (Demo.database accepting)
                   e args w) in
  exists m w'',
    Server.revertMigration Demo.config (Demo.database accepting) None w'
      = (Ok (MigrationReverted m "DROP INDEX IF EXISTS users_id"), w'') /\
    stored Demo.config (fs w'') = [Demo.users].
Proof.
  intros e args w w'.
  destruct (createIndex_then_revertMigration Demo.workingDir
              (Demo.database accepting) e args w w'
              (Created "Index created successfully"
                 (Builders.createIndex args)
                 "1711017000300_00000003" "index_1711017000300"))
    as (m & w'' & Hrevert & _ & _ & _ & Hstored & _).
  - discriminate.
  - intros c H. cbn [CreateIndexParams.indexName args contains] in H.
    repeat (apply orb_true_iff in H as [H|H];
            [apply Ascii.eqb_eq in H; subst c; reflexivity|]).
    discriminate H.
  - reflexivity.
  - exists m, w''. by split.
Defined.



(** *** A trigger built by [createTrigger] has no revert statement *)

Lemma plus_greedy_one {R} (p : ascii -> bool) c s (k : string -> option R) :
  p c = true ->
  match s with String c' _ => p c' = false | EmptyString => True end ->
  Regex.plus_greedy p (String c s) k = k s.
Proof.
  intros Hc Hs. cbn [Regex.plus_greedy]. rewrite Hc.
  assert (Hnone : Regex.plus_greedy p s k = None).
  { destruct s as [|c' s']; [done|]. cbn. by rewrite Hs. }
  by rewrite Hnone.
Qed.

(** A token none of whose ends lets the continuation succeed. *)
Lemma plus_greedy_token_none {R} (p : ascii -> bool) (name : string) :
  forall (rest : string) (k : string -> option R),
  (forall c, contains c name = true -> p c = true) ->
  match rest with String c _ => p c = false | EmptyString => True end ->
  (forall c s, p c = true -> k (String c s) = None) ->
  k rest = None ->
  Regex.plus_greedy p (name +:+ rest) k = None.
Proof.
  induction name as [|c name IH]; intros rest k Hall Hrest Hk Hend.
  - rewrite append_nil. destruct rest as [|c0 rest0]; [done|].
    cbn. by rewrite Hrest.
  - rewrite append_cons. cbn [Regex.plus_greedy].
    rewrite (Hall c) by (cbn; by rewrite Ascii.eqb_refl).
    rewrite IH; try done.
    + destruct name as [|c' name'].
      * by rewrite append_nil.
      * rewrite append_cons. apply Hk, Hall.
        change (Ascii.eqb c c' || contains c' (String c' name') = true).
        cbn [contains]. rewrite Ascii.eqb_refl. apply orb_true_r.
    + intros c0 Hc0. apply Hall.
      change (Ascii.eqb c c0 || contains c0 name = true).
      rewrite Hc0. apply orb_true_r.
Qed.

Lemma star_lazy_skip {R} (p : ascii -> bool) c s (k : string -> option R) :
  k (String c s) = None -> p c = true ->
  Regex.star_lazy p (String c s) k = Regex.star_lazy p s k.
Proof. intros Hk Hp. cbn [Regex.star_lazy]. by rewrite Hk, Hp. Qed.

Lemma star_lazy_stop {R} (p : ascii -> bool) c s (k : string -> option R) :
  k (String c s) = None -> p c = false ->
  Regex.star_lazy p (String c s) k = None.
Proof. intros Hk Hp. cbn [Regex.star_lazy]. by rewrite Hk, Hp. Qed.

Lemma append_assoc (a b c : string) : (a +:+ b) +:+ c = a +:+ b +:+ c.
Proof.
  induction a as [|x a IH]; [done|]. rewrite !append_cons. by rewrite IH.
Qed.

(** The literal parts of a template, code unit by code unit. *)
Ltac literal := repeat (rewrite append_cons || rewrite append_nil).

Section Line.

Context {R : Type} (k : string -> option R).

(** The continuation wants the word ON. *)
Hypothesis wants_O : forall c s,
  Ascii.eqb (Regex.canon c) (Regex.canon "O") = false -> k (String c s) = None.
Hypothesis wants_N : forall c s,
  Ascii.eqb (Regex.canon c) (Regex.canon "N") = false ->
  k (String "O" (String c s)) = None.

Ltac skip_dot :=
  rewrite star_lazy_skip
    by first [ apply wants_O; reflexivity
             | apply wants_N; reflexivity
             | reflexivity ].

(** No ON on the line of the events. *)
Lemma star_lazy_events (events : list TriggerEvent) (rest : string) :
  Regex.star_lazy Regex.dot
    (Js.join " OR " (map TriggerEvent_toString events) +:+ Builders.nl +:+ rest) k
  = None.
Proof.
  assert (Hstop : Regex.star_lazy Regex.dot (Builders.nl +:+ rest) k = None).
  { change (Builders.nl +:+ rest) with (String (ascii_of_nat 10) rest).
    apply star_lazy_stop; [by apply wants_O|done]. }
  induction events as [|x l IH]; [exact Hstop|].
  destruct l as [|y l].
  - cbn [map Js.join].
    destruct x; cbn [TriggerEvent_toString];
      literal; repeat skip_dot; exact Hstop.
  - change (Js.join " OR " (map TriggerEvent_toString (x :: y :: l)))
      with (TriggerEvent_toString x +:+ " OR "
            +:+ Js.join " OR " (map TriggerEvent_toString (y :: l))).
    destruct x; cbn [TriggerEvent_toString];
      literal; repeat skip_dot; exact IH.
Qed.

(** Nor after the blanks that begin it. *)
Lemma star_lazy_line (W : TriggerWhen) (events : list TriggerEvent)
    (rest : string) (n : nat) :
  Regex.star_lazy Regex.dot
    (string_of_list_ascii (repeat " "%char n)
     +:+ TriggerWhen_toString W +:+ " "
     +:+ Js.join " OR " (map TriggerEvent_toString events)
     +:+ Builders.nl +:+ rest) k
  = None.
Proof.
  induction n as [|n IH]; cbn [repeat string_of_list_ascii].
  - rewrite append_nil.
    destruct W; cbn [TriggerWhen_toString];
      literal; repeat skip_dot; apply star_lazy_events.
  - rewrite append_cons. skip_dot. apply IH.
Qed.

End Line.

Lemma plus_greedy_none_cons {R} (p : ascii -> bool) c s
    (k : string -> option R) :
  Regex.plus_greedy p s k = None -> k s = None ->
  Regex.plus_greedy p (String c s) k = None.
Proof. intros H1 H2. cbn [Regex.plus_greedy]. rewrite H1, H2. by destruct (p c). Qed.

Lemma trigger_re_at name W events rest :
  name <> "" ->
  (forall c, contains c name = true -> Regex.not_space c = true) ->
  Regex.run (Regex.Group 0 Regex.trigger_re)
    ("CREATE TRIGGER " +:+ name +:+ Builders.nl +:+ "      "
     +:+ TriggerWhen_toString W +:+ " "
     +:+ Js.join " OR " (map TriggerEvent_toString events)
     +:+ Builders.nl +:+ rest) []
    (fun _ caps => Some caps) = None.
Proof.
  intros Hne Hall.
  set (line := TriggerWhen_toString W +:+ " "
               +:+ Js.join " OR " (map TriggerEvent_toString events)
               +:+ Builders.nl +:+ rest).
  change ("CREATE TRIGGER " +:+ name +:+ Builders.nl +:+ "      " +:+ line)
    with ("CREATE" +:+ String " " ("TRIGGER" +:+ String " "
            (name +:+ String (ascii_of_nat 10) ("      " +:+ line)))).
  unfold Regex.trigger_re, Regex.seq. cbn [fold_right Regex.run].
  rewrite run_lit. rewrite plus_greedy_one by reflexivity.
  rewrite run_lit. rewrite plus_greedy_one.
  2: reflexivity.
  2: { apply (token_head Regex.not_space); try done. apply not_space_space. }
  apply plus_greedy_token_none; try done.
  { intros c s Hc. cbn [Regex.plus_greedy]. by rewrite (not_space_space c Hc). }
  match goal with
  | |- Regex.plus_greedy _ _ (fun s' => Regex.star_lazy _ s' ?k) = None =>
      set (wants_ON := k)
  end.
  assert (Hline : forall n,
            Regex.star_lazy Regex.dot
              (string_of_list_ascii (repeat " "%char n) +:+ line) wants_ON
            = None).
  { intros n. apply star_lazy_line.
    - intros c s Hc. subst wants_ON. cbn [Regex.lit Regex.run]. by rewrite Hc.
    - intros c s Hc. subst wants_ON. cbn [Regex.lit Regex.run].
      change (Ascii.eqb (Regex.canon "O") (Regex.canon "O")) with true.
      cbv iota. by rewrite Hc. }
  literal.
  apply plus_greedy_none_cons; [|exact (Hline 6)].
  apply plus_greedy_none_cons; [|exact (Hline 5)].
  apply plus_greedy_none_cons; [|exact (Hline 4)].
  apply plus_greedy_none_cons; [|exact (Hline 3)].
  apply plus_greedy_none_cons; [|exact (Hline 2)].
  apply plus_greedy_none_cons; [|exact (Hline 1)].
  apply plus_greedy_none_cons; [|exact (Hline 0)].
  subst line. destruct W; reflexivity.
Qed.

(** A text that does not mention CREATE cannot begin a match of a pattern
    that starts with [CREATE\s+], whatever follows the text, as long as
    what follows cannot continue the word and does not go on with the
    pattern. *)
Lemma run_lit_boundary (w : string) :
  forall (u rest : string) (caps : Regex.captures)
         (k kk : string -> Regex.captures -> option Regex.captures),
  (forall s c, kk s c <> None) ->
  Regex.run (Regex.Cat (Regex.lit w) (Regex.Class Regex.space)) u [] kk = None ->
  (forall c, contains c w = true ->
     match rest with
     | String d _ => Ascii.eqb (Regex.canon d) (Regex.canon c) = false
     | EmptyString => True
     end) ->
  (forall c s c0, Regex.space c = false -> k (String c s) c0 = None) ->
  k rest caps = None ->
  Regex.run (Regex.lit w) (u +:+ rest) caps k = None.
Proof.
  induction w as [|c w IH]; intros u rest caps k kk Hkk Hu Hrest Hk Hend.
  - cbn [Regex.lit Regex.run] in *. destruct u as [|x u].
    + by rewrite append_nil.
    + rewrite append_cons. apply Hk.
      destruct (Regex.space x); [by apply Hkk in Hu|done].
  - cbn [Regex.lit Regex.run] in *. destruct u as [|x u].
    + rewrite append_nil. destruct rest as [|d rest']; [done|].
      rewrite (Hrest c); [done|]. cbn [contains]. by rewrite Ascii.eqb_refl.
    + rewrite append_cons.
      destruct (Ascii.eqb (Regex.canon x) (Regex.canon c)); [|done].
      apply (IH u rest caps k kk); try done.
      intros c0 Hc0. apply Hrest. cbn [contains]. rewrite Hc0. apply orb_true_r.
Qed.

Lemma exec_None_inv r c s :
  Regex.exec r (String c s) = None ->
  Regex.run (Regex.Group 0 r) (String c s) [] (fun _ caps => Some caps) = None
  /\ Regex.exec r s = None.
Proof.
  cbn [Regex.exec].
  by destruct (Regex.run (Regex.Group 0 r) (String c s) [] _).
Qed.

Lemma mentions_create_inv c s :
  mentions_create (String c s) = false ->
  Regex.run (Regex.Group 0 create_blank) (String c s) []
    (fun _ caps => Some caps) = None
  /\ mentions_create s = false.
Proof.
  unfold mentions_create. intros H.
  destruct (Regex.exec create_blank (String c s)) eqn:E; [done|].
  apply exec_None_inv in E as [E1 E2]. by rewrite E1, E2.
Qed.

(** The letters of CREATE are not what follows the texts of the template. *)
Ltac not_a_letter :=
  let c := fresh "c" in let H := fresh "H" in
  intros c H; cbn [contains] in H;
  repeat (apply orb_true_iff in H as [H|H];
          [apply Ascii.eqb_eq in H; subst c; reflexivity|]);
  discriminate H.

Lemma exec_site (text : string) : forall rest,
  mentions_create text = false ->
  (forall c, contains c "CREATE" = true ->
     match rest with
     | String d _ => Ascii.eqb (Regex.canon d) (Regex.canon c) = false
     | EmptyString => True
     end) ->
  (forall caps k,
     Regex.plus_greedy Regex.space rest
       (fun s' => Regex.run (Regex.lit "TRIGGER") s' caps k) = None) ->
  Regex.exec Regex.trigger_re (text +:+ rest) = Regex.exec Regex.trigger_re rest.
Proof.
  induction text as [|x text IH]; intros rest Hno Hrest Hnext; [done|].
  apply mentions_create_inv in Hno as [Hhere Hno].
  rewrite append_cons, exec_skip; [by apply IH|].
  rewrite <- append_cons.
  unfold Regex.trigger_re, Regex.seq. cbn [fold_right Regex.run].
  change (Regex.run
            (Regex.Cat (Regex.lit "CREATE") (Regex.Class Regex.space))
            (String x text) []
            (fun s' caps' =>
               Some ((0%nat, Regex.consumed (String x text) s') :: caps'))
          = None) in Hhere.
  eapply run_lit_boundary; [|exact Hhere|exact Hrest| |apply Hnext].
  - done.
  - intros c s c0 Hc. cbn [Regex.plus_greedy]. by rewrite Hc.
Qed.

(** No match begins among the events. *)
Lemma exec_events (events : list TriggerEvent) (rest : string) :
  Regex.exec Regex.trigger_re
    (Js.join " OR " (map TriggerEvent_toString events) +:+ rest)
  = Regex.exec Regex.trigger_re rest.
Proof.
  induction events as [|x l IH]; [done|].
  destruct l as [|y l].
  - cbn [map Js.join].
    destruct x; cbn [TriggerEvent_toString]; literal;
      by repeat (rewrite exec_skip by reflexivity).
  - change (Js.join " OR " (map TriggerEvent_toString (x :: y :: l)))
      with (TriggerEvent_toString x +:+ " OR "
            +:+ Js.join " OR " (map TriggerEvent_toString (y :: l))).
    destruct x; cbn [TriggerEvent_toString]; literal;
      repeat (rewrite exec_skip by reflexivity); exact IH.
Qed.

(** A text without white space does not mention CREATE before one. *)
Lemma no_space_no_create (text : string) :
  (forall c, contains c text = true -> Regex.not_space c = true) ->
  mentions_create text = false.
Proof.
  intros Hall.
  assert (Hrun : forall w u (kk : string -> Regex.captures -> option Regex.captures),
            (forall c, contains c u = true -> Regex.not_space c = true) ->
            Regex.run (Regex.Cat (Regex.lit w) (Regex.Class Regex.space)) u [] kk
            = None).
  { induction w as [|c w IHw]; intros u kk Hu; cbn [Regex.lit Regex.run].
    - destruct u as [|x u]; [done|].
      rewrite (not_space_space x); [done|].
      apply Hu. cbn. by rewrite Ascii.eqb_refl.
    - destruct u as [|x u]; [done|].
      destruct (Ascii.eqb _ _); [|done].
      apply (IHw u). intros c0 Hc0. apply Hu. cbn [contains].
      rewrite Hc0. apply orb_true_r. }
  unfold mentions_create.
  assert (Hexec : Regex.exec create_blank text = None); [|by rewrite Hexec].
  induction text as [|x text IH]; [done|].
  cbn [Regex.exec].
  change (Regex.run (Regex.Group 0 create_blank) (String x text) []
            (fun _ caps => Some caps))
    with (Regex.run
            (Regex.Cat (Regex.lit "CREATE") (Regex.Class Regex.space))
            (String x text) []
            (fun s' caps' =>
               Some ((0%nat, Regex.consumed (String x text) s') :: caps'))).
  rewrite (Hrun "CREATE" (String x text)) by done.
  apply IH. intros c0 Hc0. apply Hall. cbn [contains].
  rewrite Hc0. apply orb_true_r.
Qed.

Ltac skip_literal := repeat (rewrite exec_skip by reflexivity).

Ltac skip_text H :=
  rewrite exec_site; [|exact H|not_a_letter|reflexivity].

(** The pattern of the revert finds nothing in the statement the builder
    writes for a trigger: on the line after the name of the trigger there
    is no ON, and the dot of the pattern does not pass the end of a line. *)
Lemma createTrigger_has_no_match (params : CreateTriggerParams.t) :
  CreateTriggerParams.name params <> "" ->
  (forall c, contains c (CreateTriggerParams.name params) = true ->
             Regex.not_space c = true) ->
  mentions_create (CreateTriggerParams.tableName params) = false ->
  mentions_create (CreateTriggerParams.functionName params) = false ->
  (forall text, CreateTriggerParams.condition params = Some text ->
                mentions_create text = false) ->
  Regex.exec Regex.trigger_re (Builders.createTrigger params) = None.
Proof.
  intros Hne Hname Htable Hfunction Hcondition.
  pose proof (no_space_no_create _ Hname) as Hname'.
  unfold Builders.createTrigger. cbv zeta.
  set (rest := "      ON " +:+ CreateTriggerParams.tableName params +:+ _).
  change (Builders.nl +:+ "      CREATE TRIGGER "
          +:+ CreateTriggerParams.name params +:+ Builders.nl +:+ "      "
          +:+ TriggerWhen_toString (CreateTriggerParams.when params) +:+ " "
          +:+ Js.join " OR "
                (map TriggerEvent_toString (CreateTriggerParams.events params))
          +:+ Builders.nl +:+ rest)
    with (String (ascii_of_nat 10)
            (String " " (String " " (String " " (String " " (String " "
              (String " "
                 (String "C"
                    ("REATE TRIGGER "
                     +:+ CreateTriggerParams.name params
                     +:+ Builders.nl +:+ "      "
                     +:+ TriggerWhen_toString (CreateTriggerParams.when params)
                     +:+ " "
                     +:+ Js.join " OR "
                           (map TriggerEvent_toString
                              (CreateTriggerParams.events params))
                     +:+ Builders.nl +:+ rest))))))))).
  skip_literal.
  rewrite exec_skip
    by exact (trigger_re_at _ (CreateTriggerParams.when params)
                (CreateTriggerParams.events params) rest Hne Hname).
  subst rest. unfold Builders.wrapped, Builders.nl, newline.
  destruct (CreateTriggerParams.when params),
           (CreateTriggerParams.forEach params);
    cbn [TriggerWhen_toString TriggerScope_toString];
    literal; skip_literal; skip_text Hname'; skip_literal;
    rewrite exec_events; skip_literal; skip_text Htable; skip_literal.
  all: destruct (CreateTriggerParams.condition params) as [[|c0 condition]|];
    cbn [Js.truthy Js.template] in *; literal; skip_literal;
    try (rewrite append_assoc; literal; rewrite <- append_cons;
         skip_text (Hcondition _ eq_refl); skip_literal);
    skip_text Hfunction; by skip_literal.
Qed.

Lemma createTrigger_Ok_inv this db e args w response w' :
  Tools.createTrigger this db e args w = (Ok response, w') ->
  exists m w1,
    createMigration this e trigger (Builders.createTrigger args)
      (Some ("Create trigger " +:+ CreateTriggerParams.name args)) w
      = (Ok m, w1) /\
    fs w' = fs w1 /\
    response = Created "Trigger created successfully"
                 (Builders.createTrigger args)
                 (Migration.id m) (Migration.name m).
Proof. unfold Tools.createTrigger. tool_Ok_inv. Qed.

(** X24. Reverting a trigger does not drop it: for a trigger with a
    non-empty name without white space, and a table, a function and a
    condition that do not contain CREATE before a white space, the pattern
    of [generateRevertSql] finds nothing in the statement "createTrigger"
    has built, because the statement puts ON on a later line than the
    name.  A "revertMigration" without id on a server that accepts every
    statement then commits the empty statement, answers with an empty
    revert SQL, and deletes the record (with any earlier record of the
    same id) and the SQL file of the trigger. *)
Theorem createTrigger_then_revertMigration
    (workingDir : path) (db : DatabaseService) (e : Entropy)
    (args : CreateTriggerParams.t) (w w' : World) (response : SchemaResponse) :
  let this := getMigrationConfig workingDir in
  let before := stored this (fs (snd (ensureMigrationsDir this w))) in
  let kept :=
    filter (fun x => Migration.id x <> generateMigrationId e) before in
  CreateTriggerParams.name args <> "" ->
  (forall c, contains c (CreateTriggerParams.name args) = true ->
             Regex.not_space c = true) ->
  mentions_create (CreateTriggerParams.tableName args) = false ->
  mentions_create (CreateTriggerParams.functionName args) = false ->
  (forall text, CreateTriggerParams.condition args = Some text ->
                mentions_create text = false) ->
  Tools.createTrigger this db e args w = (Ok response, w') ->
  exists m w'',
    Server.revertMigration this {| getClient_result := Ok accepting |} None w'
      = (Ok (MigrationReverted m ""), w'') /\
    Migration.sql m = Builders.createTrigger args /\
    Migration.id m = generateMigrationId e /\
    trace w'' =
      trace w' ++ transaction ""
      ++ [EvWriteFile (metadataFile this) (Json {| migrations := kept |});
          EvUnlink (sqlFile this (Migration.id m));
          EvRelease] /\
    stored this (fs w'') = kept /\
    file_at (fs w'') (sqlFile this (Migration.id m)) = None /\
    (Forall (fun x => Migration.id x <> generateMigrationId e) before ->
     stored this (fs w'') = before).
Proof.
  intros this before kept Hne Hname Htable Hfunction Hcondition Hrun.
  apply createTrigger_Ok_inv in Hrun as (m & w1 & Hcreate & Hfs & ->).
  pose proof Hcreate as (Em & _ & _)%createMigration_Ok.
  assert (Hsql : generateRevertSql m = Ok "").
  { rewrite Em. unfold generateRevertSql. cbn [Migration.type Migration.sql].
    by rewrite createTrigger_has_no_match. }
  destruct (reverted_store workingDir e _ _ _ w w1 m Hcreate)
    as (Hid & Hst & Hfile & Hfresh).
  exists m. eexists. split.
  { by eapply (revertMigration_after_createMigration workingDir e trigger). }
  cbn [fs trace]. subst kept before this.
  split; [by rewrite Em|]. do 4 (split; [done|]).
  intros Hall. rewrite Hst. by apply Hfresh.
Qed.

Lemma createTrigger_then_revertMigration_witness :
  let e := Demo.entropy_at 1711017000300 (x00, x00, x00, x03) in
  let args := CreateTriggerParams.mk "touch_users" "users" "touch" BEFORE
                [INSERT; UPDATE] ROW (Some "NEW.id > 0") in
  let w := Demo.store [Demo.users] [Migration.id Demo.users] in
  let w' := snd (Tools.createTrigger Demo.config (Demo.database accepting)
                   e args w) in
  exists m w'',
    Server.revertMigration Demo.config (Demo.database accepting) None w'
      = (Ok (MigrationReverted m ""), w'') /\
    Migration.sql m = Builders.createTrigger args /\
    stored Demo.config (fs w'') = [Demo.users].
Proof.
  intros e args w w'.
  destruct (createTrigger_then_revertMigration Demo.workingDir
              (Demo.database accepting) e args w w'
              (Created "Trigger created successfully"
                 (Builders.createTrigger args)
                 "1711017000300_00000003" "trigger_1711017000300"))
    as (m & w'' & Hrevert & Hsql & _ & _ & Hstored & _).
  - discriminate.
  - intros c H. cbn [CreateTriggerParams.name args contains] in H.
    repeat (apply orb_true_iff in H as [H|H];
            [apply Ascii.eqb_eq in H; subst c; reflexivity|]).
    discriminate H.
  - reflexivity.
  - reflexivity.
  - intros text [= <-]. reflexivity.
  - reflexivity.
  - exists m, w''. by repeat split.
Defined.



(** *** Tools one after the other *)

(** X25. The server keeps no account of what it has applied: after
    "createTable" has returned, having created the table, an
    "applyMigrations" without [fromId] on a server that accepts every
    statement sends the transactions of all the records again, and the
    CREATE TABLE statement of that call as the last of them. *)
Theorem createTable_then_applyMigrations
    (this : MigrationConfig) (db : DatabaseService) (e : Entropy)
    (args : CreateTableParams.t) (w w' : World) (response : Response) :
  let before := stored this (fs (snd (ensureMigrationsDir this w))) in
  Server.createTable this db e args w = (Ok response, w') ->
  Server.applyMigrations this {| getClient_result := Ok accepting |} None w' =
    (Ok MigrationsApplied,
     {| fs := fs w';
        trace := trace w'
                 ++ concat (map (fun m => transaction (Migration.sql m)) before)
                 ++ transaction (SchemaService.createTable args)
                 ++ [EvRelease] |}).
Proof.
  intros before Hrun.
  apply createTable_Ok_inv in Hrun as (m & w1 & Hcreate & Hfs & ->).
  pose proof Hcreate as (Em & _ & Hst)%createMigration_Ok.
  rewrite applyMigrations_accepting. cbn [Js.truthy negb].
  rewrite pending_all, Hfs, Hst. fold before.
  rewrite map_app, concat_app. cbn [map concat]. rewrite app_nil_r.
  rewrite Em at 1. cbn [Migration.sql]. by rewrite <- !app_assoc.
Qed.

Lemma createTable_then_applyMigrations_witness :
  let e := Demo.entropy_at 1711017000300 (x00, x00, x00, x03) in
  let args := CreateTableParams.mk "notes"
                [ColumnDefinition.mk "id" "SERIAL" None] None in
  let w := Demo.store [Demo.users] [Migration.id Demo.users] in
  let w' := snd (Server.createTable Demo.config (Demo.database accepting) e args w) in
  Server.applyMigrations Demo.config (Demo.database accepting) None w' =
    (Ok MigrationsApplied,
     {| fs := fs w';
        trace := trace w'
                 ++ transaction "CREATE TABLE users (id SERIAL)"
                 ++ transaction "CREATE TABLE notes (id SERIAL)"
                 ++ [EvRelease] |}).
Proof.
  intros e args w w'.
  apply (createTable_then_applyMigrations Demo.config
           (Demo.database accepting) e args w w'
           (TableCreated "CREATE TABLE notes (id SERIAL)"
              "1711017000300_00000003" "table_1711017000300")).
  reflexivity.
Defined.

Lemma alterTable_Ok_inv this db e args w response w' :
  Tools.alterTable this db e args w = (Ok response, w') ->
  exists m w1,
    createMigration this e alter (Builders.alterTable args)
      (Some ("Alter table " +:+ AlterTableParams.tableName args)) w
      = (Ok m, w1) /\
    fs w' = fs w1 /\
    response = Created "Table altered successfully"
                 (Builders.alterTable args)
                 (Migration.id m) (Migration.name m).
Proof. unfold Tools.alterTable. tool_Ok_inv. Qed.

(** X26. An alteration cannot be taken back: after "alterTable" has
    returned, a "revertMigration" without id selects the record of that
    call, sends only ROLLBACK, releases the connection and throws "Revert
    not implemented for migration type: alter" (the error of ROLLBACK,
    should the server reject it); no file changes and the record stays the
    last of the index, so that every later revert without id is refused
    the same way. *)
Theorem alterTable_then_revertMigration
    (this : MigrationConfig) (db db' : DatabaseService) (client : PoolClient)
    (e : Entropy) (args : AlterTableParams.t) (w w' : World)
    (response : SchemaResponse) :
  Tools.alterTable this db e args w = (Ok response, w') ->
  getClient_result db' = Ok client ->
  let rollback := client (trace w') "ROLLBACK" in
  let err := JsError "Revert not implemented for migration type: alter" in
  let run := Server.revertMigration this db' None w' in
  run = (Throw (match rollback with None => err | Some e' => e' end),
         {| fs := fs w';
            trace := trace w' ++ [EvQuery "ROLLBACK" rollback; EvRelease] |})
  /\ exists m,
       last (stored this (fs (snd run))) = Some m /\
       Migration.id m = generateMigrationId e /\
       Migration.sql m =
         "ALTER TABLE " +:+ AlterTableParams.tableName args +:+ " "
         +:+ AlterTableParams.operation args +:+ " "
         +:+ AlterTableParams.details args.
Proof.
  intros Hrun Hclient rollback err run.
  apply alterTable_Ok_inv in Hrun as (m & w1 & Hcreate & Hfs & ->).
  pose proof Hcreate as (Em & _ & Hst)%createMigration_Ok.
  assert (Hlast : last (stored this (fs w')) = Some m).
  { rewrite Hfs, Hst. apply last_snoc. }
  assert (Hrevert : run =
            (Throw (match rollback with None => err | Some e' => e' end),
             {| fs := fs w';
                trace := trace w' ++ [EvQuery "ROLLBACK" rollback; EvRelease] |})).
  { subst run. unfold Server.revertMigration.
    rewrite bind_run, getMigrations_stored. cbv beta iota.
    assert (Htarget : Server.targetMigration None (stored this (fs w')) = Some m)
      by exact Hlast.
    rewrite (targetMigration_nonempty _ _ _ Htarget), Htarget.
    rewrite bind_run. unfold Server.getClient, lift. rewrite Hclient.
    unfold try_finally, try_catch. rewrite bind_run.
    assert (Hsql : generateRevertSql m = Throw err) by (by rewrite Em).
    rewrite Hsql, rollback_run. cbn [release emit fs trace].
    by rewrite <- app_assoc. }
  split; [exact Hrevert|]. exists m. rewrite Hrevert. cbn [snd fs].
  split; [done|]. by rewrite Em.
Qed.

Lemma alterTable_then_revertMigration_witness :
  let e := Demo.entropy_at 1711017000300 (x00, x00, x00, x03) in
  let args := AlterTableParams.mk "users" "ADD COLUMN" "email TEXT" in
  let w := Demo.store [Demo.users] [Migration.id Demo.users] in
  let w' := snd (Tools.alterTable Demo.config (Demo.database accepting) e args w) in
  fst (Server.revertMigration Demo.config (Demo.database accepting) None w')
    = Throw (JsError "Revert not implemented for migration type: alter").
Proof.
  intros e args w w'.
  destruct (alterTable_then_revertMigration Demo.config
              (Demo.database accepting) (Demo.database accepting) accepting
              e args w w'
              (Created "Table altered successfully"
                 "ALTER TABLE users ADD COLUMN email TEXT"
                 "1711017000300_00000003" "alter_1711017000300")
              eq_refl eq_refl) as [Hrun _].
  by rewrite Hrun.
Defined.

(** *** A batch that fails *)

Lemma accepts_app client : forall l1 history l2,
  accepts client history (l1 ++ l2) =
    accepts client history l1
    && accepts client (history ++ map (fun s => EvQuery s None) l1) l2.
Proof.
  induction l1 as [|s l1 IH]; intros history l2.
  - cbn. by rewrite app_nil_r.
  - cbn [app accepts map]. destruct (client history s); [done|].
    rewrite IH. by rewrite <- app_assoc.
Qed.

Lemma applyMigration_accepted client m w :
  accepts client (trace w) ["BEGIN"; Migration.sql m; "COMMIT"] = true ->
  applyMigration client m w =
    (Ok tt, {| fs := fs w;
               trace := trace w ++ transaction (Migration.sql m) |}).
Proof.
  cbn [accepts]. intros H.
  destruct (client (trace w) "BEGIN") eqn:H1; [done|].
  destruct (client (trace w ++ [EvQuery "BEGIN" None]) (Migration.sql m))
    eqn:H2; [done|].
  destruct (client ((trace w ++ [EvQuery "BEGIN" None])
                    ++ [EvQuery (Migration.sql m) None]) "COMMIT")
    eqn:H3; [done|].
  unfold applyMigration, try_catch. rewrite bind_run, query_run, H1.
  rewrite bind_run, query_run. cbn [fs trace]. rewrite H2.
  rewrite query_run. cbn [fs trace]. rewrite H3.
  unfold transaction. by rewrite <- !app_assoc.
Qed.

(** The loop up to the first record the server refuses. *)
Lemma applyLoop_rejected client fromId err m after : forall ms shouldApply w before,
  pending fromId shouldApply ms = before ++ m :: after ->
  accepts client (trace w) (statements_of before ++ ["BEGIN"]) = true ->
  let committed := concat (map (fun x => transaction (Migration.sql x)) before) in
  client (trace w ++ committed ++ [EvQuery "BEGIN" None]) (Migration.sql m)
    = Some err ->
  let rollback :=
    client (trace w ++ committed
            ++ [EvQuery "BEGIN" None; EvQuery (Migration.sql m) (Some err)])
      "ROLLBACK" in
  Server.applyLoop client fromId shouldApply ms w =
    (Throw (match rollback with None => err | Some e' => e' end),
     {| fs := fs w;
        trace := trace w ++ committed
                 ++ [EvQuery "BEGIN" None; EvQuery (Migration.sql m) (Some err);
                     EvQuery "ROLLBACK" rollback] |}).
Proof.
  induction ms as [|x rest IH]; intros shouldApply w before Hpending Haccepts;
    cbv zeta.
  { by destruct before. }
  cbn [pending] in Hpending. cbn [Server.applyLoop].
  destruct (Server.id_is x fromId); [by apply IH|].
  rewrite bind_run. destruct shouldApply; [|by apply IH].
  destruct before as [|b before].
  - injection Hpending as Hx Hrest. subst x. cbn [map concat app].
    intros Hsql. cbn [statements_of flat_map app accepts] in Haccepts.
    destruct (client (trace w) "BEGIN") eqn:Hbegin; [done|].
    by rewrite (applyMigration_rejected client m w err Hbegin Hsql).
  - injection Hpending as Hx Hrest. subst b.
    change (statements_of (x :: before) ++ ["BEGIN"])
      with (["BEGIN"; Migration.sql x; "COMMIT"]
            ++ (statements_of before ++ ["BEGIN"])) in Haccepts.
    rewrite accepts_app in Haccepts.
    apply andb_true_iff in Haccepts as [Hx Hrest'].
    rewrite (applyMigration_accepted client x w Hx).
    cbn [map concat]. intros Hsql.
    specialize (IH true
                  {| fs := fs w;
                     trace := trace w ++ transaction (Migration.sql x) |}
                  before Hrest Hrest').
    cbn [fs trace] in IH. cbv zeta in IH.
    rewrite <- !app_assoc in IH. rewrite <- !app_assoc in Hsql.
    rewrite (IH Hsql). by rewrite <- !app_assoc.
Qed.

(** X9. A failure aborts the batch: when the server, having accepted the
    transactions of the pending records before it, rejects the SQL of a
    pending record, "applyMigrations" has committed those before it, sends
    ROLLBACK for that record and nothing for the records after it,
    releases the connection and throws the error of the server (that of
    ROLLBACK, should the server reject ROLLBACK too); no file changes.
    The pending records are those the loop applies for the given [fromId]:
    all of them without [fromId], those after the record of that id
    otherwise. *)
Theorem applyMigrations_stops_at_the_first_failure
    (this : MigrationConfig) (client : PoolClient) (fromId : option string)
    (w : World) (before after : list Migration.t) (m : Migration.t)
    (err : Error) :
  let committed := concat (map (fun x => transaction (Migration.sql x)) before) in
  pending fromId (negb (Js.truthy fromId)) (stored this (fs w))
    = before ++ m :: after ->
  accepts client (trace w) (statements_of before ++ ["BEGIN"]) = true ->
  client (trace w ++ committed ++ [EvQuery "BEGIN" None]) (Migration.sql m)
    = Some err ->
  let rollback :=
    client (trace w ++ committed
            ++ [EvQuery "BEGIN" None; EvQuery (Migration.sql m) (Some err)])
      "ROLLBACK" in
  Server.applyMigrations this {| getClient_result := Ok client |} fromId w =
    (Throw (match rollback with None => err | Some e' => e' end),
     {| fs := fs w;
        trace := trace w ++ committed
                 ++ [EvQuery "BEGIN" None; EvQuery (Migration.sql m) (Some err);
                     EvQuery "ROLLBACK" rollback; EvRelease] |}).
Proof.
  intros committed Hpending Haccepts Hsql rollback.
  unfold Server.applyMigrations.
  rewrite bind_run, getMigrations_stored, bind_run.
  unfold Server.getClient, lift. cbn [getClient_result].
  unfold try_finally. rewrite bind_run.
  rewrite (applyLoop_rejected client fromId err m after _ _ w before
             Hpending Haccepts Hsql).
  cbn [release emit fs trace]. fold committed. fold rollback.
  by rewrite <- !app_assoc.
Qed.

Lemma applyMigrations_stops_at_the_first_failure_witness :
  let err := PgError "relation users already exists" in
  let client : PoolClient :=
    fun history statement =>
      if String.eqb statement (Migration.sql Demo.users)
      then (if Nat.ltb 3 (length history) then Some err else None)
      else None in
  let note := Demo.record "1711017000050_00000009"
                "CREATE TABLE notes (id SERIAL)" table in
  Server.applyMigrations Demo.config {| getClient_result := Ok client |}
    (Some (Migration.id Demo.tasks))
    (Demo.store [Demo.tasks; note; Demo.users; Demo.idx] []) =
    (Throw err,
     {| fs := fs (Demo.store [Demo.tasks; note; Demo.users; Demo.idx] []);
        trace := transaction "CREATE TABLE notes (id SERIAL)"
                 ++ [EvQuery "BEGIN" None;
                     EvQuery (Migration.sql Demo.users) (Some err);
                     EvQuery "ROLLBACK" None; EvRelease] |}).
Proof.
  intros err client note.
  apply (applyMigrations_stops_at_the_first_failure Demo.config client
           (Some (Migration.id Demo.tasks))
           (Demo.store [Demo.tasks; note; Demo.users; Demo.idx] [])
           [note] [Demo.idx] Demo.users err); reflexivity.
Defined.
